(* ===== verification/_CoqProject ===== *)
-Q . S2P
Prelude.v
Js.v
Transport.v
Endpoints.v
Routes.v
Cache.v
App.v
Responses.v
ProductForm.v
Navbar.v
Blog.v
Views.v
Scenario.v
