(* ===== verification/Prelude.v ===== *)
(** * A verification development of basic-dashboard (chaudhuree/basic-dashboard)

    The program is the browser side of an e-commerce administration
    dashboard (Next.js, React, Redux Toolkit).  Its parts and how they
    interact:
    - [src/src/Redux/Api/baseApi.ts] creates the RTK Query API: the base
      URL, [fetchBaseQuery] with [prepareHeaders] (the ["accessToken"]
      cookie becomes the [Authorization] header) and the [tagTypes];
    - [productApi.ts], [userApi.ts], [blogApi.ts] and [uploadApi.ts]
      inject the endpoints: each query or mutation builds a request from
      its argument and provides or invalidates cache tags;
    - the components call the generated hooks: [AddProduct.tsx] and
      [AddBlog.tsx] are forms that send mutations, [DashboardOverview.tsx]
      and [AllProducts.tsx] subscribe to queries, [NavbarSlider.tsx] is the
      sidebar with the logout button, [ModalData.tsx] shows an order's
      address;
    - between hooks and HTTP sits the RTK Query cache (the library, not in
      the repository): subscriptions share one request per cache key, and
      a successful mutation refetches the subscribed queries whose tags it
      invalidates (spec §4.1).

    Files, in dependency order:
    - [Prelude]: the scope [dash_scope] (the step notations [⇝] of the
      cache and [⟶] of a session live there), the hint databases [dash]
      (invariant preservation) and [dash_rw], list tactics, and generic
      lemmas on occurrences, filters, association lists and [find];
    - [Js]: the JavaScript the code relies on, as values [jsval] and total
      functions: truthiness and [||], [split]/[join], template literals,
      property reads with their [TypeError], optional chaining, object
      spread, [FormData.append], [JSON.stringify] and React's rendering of
      a child; fallible code returns [js_result] ([js_error + A]), a small
      error monad;
    - [Transport] (baseApi.ts): [prepareHeaders], RTK's [joinUrls] and
      content-type rule, and [fetchBaseQuery] building a [request];
    - [Endpoints] (the four Api files): one [endpoint_def] per endpoint in
      a Module per file, [api_endpoints], the mutation call [mcall] and its
      outcome [mresult], and the class [TagTable], the interface through
      which the cache sees the endpoints' tags (instance [api_tags]);
    - [Routes]: the REST table of spec §6 and the refinement theorem that
      the endpoints implement it; the tag analysis;
    - [Cache]: the RTK Query cache as a record [cstate] (entries by key,
      requests in flight, next request id, requests sent), written against
      [TagTable]; one definition per event (subscribe, unsubscribe, expire,
      settle, mutation settled, reset), the step relation [⇝] with its
      invariant [cache_wf] proved by rule induction, and the contract of
      invalidation;
    - [App]: the composition: cache, cookie jar, the argument of each key
      and the log of HTTP requests; [app_mount], [app_mutate], ... and the
      session relation [⟶];
    - [Responses]: responses as their own relation [respond_step] and as
      a list applied in a given order ([respond_list]); the measure (the
      number of requests in flight) that ends the traffic, and the lemma
      that an entry ends settled by its own response wherever that
      response stands among the others;
    - [ProductForm] (AddProduct.tsx), [Navbar] (NavbarSlider.tsx), [Blog]
      (AddBlog.tsx) and [Views] (DashboardOverview.tsx, AllProducts.tsx,
      ModalData.tsx): each component's state as a record and each handler
      as a function; asynchronous handlers are split at their [await] into
      a send half (the mutation called) and a settle half (the outcome);
    - [Scenario]: the product form, the API and the cache together.

    What the theorems show, by claim:
    - the cache through the application (C1-C6, C19): a mutation sends its
      request and then exactly one refetch per subscribed, affected,
      non-pending key, and the cache is the same after a failure (an HTTP
      error) as after a success, RTK invalidating on both; the example of
      spec §8 (a product submitted from the form refetches the listing
      once, also when the server fails it); concurrent mounts of a key
      share one request, also when the argument lists its keys in another
      order; every reachable session keeps the cache well formed; every
      pending query is resolved by the response it waits for, and the
      responses to the requests in flight always come to an end, sending
      nothing, in a state where no view is loading;
    - the product form (C7, C10, C13-C18, C32): the validation gate is
      exactly the schema of the code, also read from the typed texts as
      HTML parses a number input, rounding to doubles at both ends of
      their range; stock 0 blocks saving, the add page fetches the product
      ["undefined"], a missing image is sent as ["undefined"], removing
      the preview shows the picker but keeps the file, two submissions
      within one render duplicate the parts; prefill and submit round-trip
      sizes, and an unchanged edit sends the product back with PATCH;
    - the session and the sidebar (C8, C9, C26, C27): every request of a
      session carries its token, the login request included; the stale
      cache a logout leaves to the next user; the dropdown toggle, and the
      open dropdowns bounded by the one item with sub-items;
    - the API against the spec (C11, C21, C28): the endpoints refine the
      REST table, invalidation follows the resources except that an upload
      refreshes the blog list, and the tags against [tagTypes];
    - the blog form (C12, C20, C25, C31, C33): an edit wipes the
      description, a failed upload leaves a stale preview, and the image
      saved follows the events as a reference fold says; the page as it
      opens, whose create mode can preview an image it will not save; the
      form and the requests keep the three keys of the form whatever the
      events;
    - the views (C22-C24, C29, C30): the product list shows an error as an
      empty catalogue; the dashboard's four requests, its cards showing
      their own status's count whatever the order of the responses, and a
      failed counter reads as one still loading; the address modal's
      empty, text and throwing cases.

    Bounds and choices.  No definition needs fuel: every recursion is
    structural, and repeated events are [Nat.iter] or a list of events.
    JavaScript numbers are rationals [Q] plus [NaN]: the code only
    compares them with 0 and prints small integers.  A number input's
    text is parsed exactly and then passed through the two rounding
    boundaries of binary64 ([Js.html_round]): at or above
    [2^1024 - 2^970] in magnitude it is an error ([NaN]), at most
    [2^-1075] it is 0; in between the double the code gets has the
    sign of the exact value, is not 0 and is finite, so every test the
    code makes agrees with the model, only the digits may differ.  Request ids are [nat]s that only grow; the invariant
    shows they never collide.  Time is an explicit [expire] event
    (RTK's [keepUnusedDataFor]); responses are explicit events, so any
    interleaving of responses and user events is a sequence of steps.
    Termination of the response traffic is [sn] (stdpp's strong
    normalisation, [Acc] of the converse relation) by the length of the
    list of requests in flight, which every response shortens.

    Not modelled: the RTK Query library's code (modelled from the spec
    and RTK's documented behaviour, marked so in the manifest; where
    the two differ the model follows the library: a mutation rejected
    with [fetchBaseQuery]'s error value invalidates its tags as a
    fulfilled one does, and a subscription does not refetch an entry
    fulfilled before; invalidation is applied at once, as before RTK 2,
    whose default delays it until no query is pending; an entry is
    chosen for invalidation by its endpoint's [providesTags] already
    before its first response); the parent that renders [NavbarSlider]
    with [isOpen], which is not in the repository; the auth
    slice, store and toast helper, which the repository imports but does
    not contain; the login page (a login is the [loginUser] mutation
    followed by setting the cookie); charts, loader, product card and the
    rich-text editor, which are presentational; the network, which is
    reduced to the log of requests and the responses the events carry. *)

From stdpp Require Import base list decidable sets options.

(** The development's own notation scope. *)
Declare Scope dash_scope.
Delimit Scope dash_scope with dash.

(** The hint database the components extend with their rewriting and
    resolution lemmas. *)
Create HintDb dash.
Create Rewrite HintDb dash_rw.

(** [elem_of_cases H]: split [H : x ∈ [a; b; ...]] into one goal per
    element, with [x] replaced by it. *)
Ltac elem_of_cases H :=
  repeat (apply elem_of_cons in H as [->|H]); [..|by apply elem_of_nil in H].

(** [elem_of_search]: prove [a ∈ [..; a; ..]] of a concrete list. *)
Ltac elem_of_search :=
  repeat first [apply list_elem_of_here | apply list_elem_of_further].

Section count.
  Context {A : Type} `{EqDecision A}.

  (** The number of occurrences of [x] in [l]. *)
Definition occurrences (x : A) (l : list A) : nat :=
    length (filter (λ y, y = x) l).

Lemma occurrences_app x l1 l2 :
    occurrences x (l1 ++ l2) = occurrences x l1 + occurrences x l2.
  Proof. unfold occurrences. by rewrite list.filter_app, length_app. Qed.

Lemma occurrences_cons x y l :
  occurrences x (y :: l) = (if decide (y = x) then 1 else 0) + occurrences x l.
Proof. unfold occurrences. rewrite list.filter_cons. by case_decide. Qed.

Lemma occurrences_not_in x l : x ∉ l → occurrences x l = 0.
  Proof.
    unfold occurrences. induction l as [|y l IH]; intros Hx; [done|].
    rewrite list.filter_cons. case_decide; subst; [set_solver|].
    apply IH. set_solver.
  Qed.

Lemma occurrences_NoDup_in x l : NoDup l → x ∈ l → occurrences x l = 1.
  Proof.
    unfold occurrences. induction l as [|y l IH]; intros Hnd Hx; [set_solver|].
    apply NoDup_cons in Hnd as [Hy Hnd]. rewrite filter_cons.
    case_decide; subst.
    - simpl. f_equal. by apply occurrences_not_in.
    - apply IH; [done|]. set_solver.
  Qed.
End count.

Section filter_ext.
  Context {A : Type} (P Q : A → Prop) `{∀ x, Decision (P x), ∀ x, Decision (Q x)}.

  (** Two filters agree on a list when their predicates agree on its members. *)
Lemma filter_ext_in (l : list A) :
    (∀ x, x ∈ l → P x ↔ Q x) → filter P l = filter Q l.
  Proof.
    induction l as [|x l IH]; intros Hpq; [done|].
    rewrite !list.filter_cons.
    assert (P x ↔ Q x) as Hx by (apply Hpq; set_solver).
    rewrite IH by (intros y Hy; apply Hpq; set_solver).
    repeat case_decide; naive_solver.
  Qed.
Lemma filter_all_true (l : list A) : (∀ x, x ∈ l → P x) → filter P l = l.
Proof.
  induction l as [|x l IH]; intros Hall; [done|]. rewrite list.filter_cons.
  rewrite decide_True by (apply Hall; set_solver). f_equal. apply IH. set_solver.
Qed.

Lemma filter_all_false (l : list A) : (∀ x, x ∈ l → ¬ P x) → filter P l = [].
Proof.
  induction l as [|x l IH]; intros Hall; [done|]. rewrite list.filter_cons.
  rewrite decide_False by (apply Hall; set_solver). apply IH. set_solver.
Qed.
End filter_ext.

(** [foldl] preserves whatever each step preserves. *)
Lemma foldl_invariant {A B} (P : A → Prop) (f : A → B → A) (l : list B) (a : A) :
  (∀ a b, b ∈ l → P a → P (f a b)) → P a → P (foldl f a l).
Proof.
  revert a. induction l as [|b l IH]; intros a Hf Ha; [done|]. simpl.
  apply IH; [intros; apply Hf; set_solver|]. apply Hf; [set_solver|done].
Qed.

#[export] Hint Rewrite @occurrences_app : dash_rw.

Section assoc.
  Context {K V : Type}.
  Implicit Types (l : list (K * V)).

  (** In a list whose first components are distinct, a key has one value. *)
Lemma NoDup_fst_unique l k v1 v2 :
    NoDup l.*1 → (k, v1) ∈ l → (k, v2) ∈ l → v1 = v2.
  Proof.
    induction l as [|[k' v'] l IH]; simpl; intros Hnd H1 H2; [set_solver|].
    apply NoDup_cons in Hnd as [Hk Hnd].
    apply elem_of_cons in H1 as [H1|H1]; apply elem_of_cons in H2 as [H2|H2];
      simplify_eq; auto.
    - destruct Hk. apply list_elem_of_fmap. by exists (k', v2).
    - destruct Hk. apply list_elem_of_fmap. by exists (k', v1).
  Qed.

Lemma NoDup_fst_filter (P : K * V → Prop) `{∀ x, Decision (P x)} l :
    NoDup l.*1 → NoDup (filter P l).*1.
  Proof.
    induction l as [|x l IH]; simpl; intros Hnd; [constructor|].
    apply NoDup_cons in Hnd as [Hx Hnd]. rewrite list.filter_cons.
    case_decide; simpl; [|by apply IH]. constructor; [|by apply IH].
    intros Hin. apply Hx. apply list_elem_of_fmap in Hin as [y [-> Hy]].
    apply list_elem_of_fmap. exists y. split; [done|].
    by apply list_elem_of_filter in Hy as [_ ?].
  Qed.
End assoc.

Lemma find_app {A} (P : A → bool) (l1 l2 : list A) :
  List.find P (l1 ++ l2) = match List.find P l1 with Some x => Some x | None => List.find P l2 end.
Proof. induction l1 as [|x l1 IH]; simpl; [done|]. by destruct (P x). Qed.
