(* ===== verification/Js.v ===== *)
(** * Js: the JavaScript value semantics the TypeScript sources rely on

    The components are TypeScript; the few runtime behaviours of JavaScript
    they depend on are written out here once: the values a form field or an
    API response can hold ([jsval]), truthiness and the [||] operator (used
    by [AddProduct.tsx] to pre-fill the edit form), [String.prototype.split]
    and [Array.prototype.join] on one separator (the product's size list is
    edited as the string ["S,M,L"]), and the conversion a template literal
    [`${x}`] applies to the values the endpoint modules interpolate into
    URLs.  It also holds property reads with their [TypeError] and
    optional chaining, object spread, [FormData.append], [JSON.stringify]
    with the sorted keys of RTK's [defaultSerializeQueryArgs] (and the
    proof that the order of distinct keys does not matter), the
    [valueAsNumber] of a number input (HTML's number parsing), and the
    text React renders for a child value.  Fallible code returns
    [js_result], a small error monad.  Numbers are rationals [Q]; a
    number input's value goes through the two binary64 boundaries that
    decide its sign, zero-ness and finiteness ([html_round]), and the
    lemmas at the end of the file state what the code's tests see. *)

From stdpp Require Import base list decidable sets strings sorting options.
From Stdlib Require Import Ascii QArith Qabs ZArith DecimalString Lqa.
From S2P Require Import Prelude.

Local Open Scope string_scope.

(** ** Values *)

Inductive jsval : Type :=
  | JUndefined
  | JNull
  | JBool (b : bool)
  | JNum (q : Q)
  | JNaN
  | JStr (s : string)
  | JArr (xs : list jsval)
  | JObj (fields : list (string * jsval))
  | JFile (name : string)
  | JFormData (parts : list (string * formval))
(** The value of one [FormData] part: a string, a [File], or the string
    [JSON.stringify(v)], represented by the value [v] it encodes. *)
with formval : Type :=
  | FVText (s : string)
  | FVJson (v : jsval)
  | FVFile (name : string).

(** [ToBoolean]: [undefined], [null], [false], [0], [NaN] and [""] are
    falsy; every other value, arrays and objects included, is truthy. *)
Definition truthy (v : jsval) : bool :=
  match v with
  | JUndefined | JNull | JNaN => false
  | JBool b => b
  | JNum q => negb (Qeq_bool q 0)
  | JStr s => negb (bool_decide (s = ""))
  | JArr _ | JObj _ | JFile _ | JFormData _ => true
  end.

(** [a || b] returns [a] when it is truthy and [b] otherwise. *)
Definition js_or (a b : jsval) : jsval := if truthy a then a else b.

(** ** [split] and [join] on a one-character separator *)

(** ["s".split(c)]: the pieces between the occurrences of [c]; the empty
    string splits into one empty piece, never into the empty list. *)
Fixpoint js_split (c : ascii) (s : string) : list string :=
  match s with
  | EmptyString => [""]
  | String a s' =>
      let rest := js_split c s' in
      if decide (a = c) then "" :: rest
      else match rest with
           | [] => [String a ""]
           | r :: rs => String a r :: rs
           end
  end.

(** [l.join(sep)]: the empty array joins to [""]. *)
Fixpoint js_join (sep : string) (l : list string) : string :=
  match l with
  | [] => ""
  | [x] => x
  | x :: xs => x +:+ sep +:+ js_join sep xs
  end.

(** [c] does not occur in [s]. *)
Fixpoint no_char (c : ascii) (s : string) : bool :=
  match s with
  | EmptyString => true
  | String a s' => negb (bool_decide (a = c)) && no_char c s'
  end.

(** ** [valueAsNumber] of a number input *)

Definition digit_of (a : ascii) : option nat :=
  let n := nat_of_ascii a in
  if Nat.leb 48 n && Nat.leb n 57 then Some (n - 48)%nat else None.

(** The leading digits of a string, and the rest. *)
Fixpoint take_digits (s : string) : list nat * string :=
  match s with
  | String a s' =>
      match digit_of a with
      | Some d => let '(ds, r) := take_digits s' in (d :: ds, r)
      | None => ([], s)
      end
  | EmptyString => ([], EmptyString)
  end.

Definition digits_Z (ds : list nat) : Z := fold_left (λ acc d, 10 * acc + Z.of_nat d)%Z ds 0%Z.

(** An optional exponent [e], [E], with an optional sign. *)
Definition parse_exponent (s : string) : option Z :=
  match s with
  | EmptyString => Some 0%Z
  | String e r =>
      if bool_decide (e = "e"%char ∨ e = "E"%char) then
        let '(neg, r1) := match r with
                          | String "-" r' => (true, r')
                          | String "+" r' => (false, r')
                          | _ => (false, r)
                          end in
        let '(ds, rest) := take_digits r1 in
        if bool_decide (ds ≠ [] ∧ rest = EmptyString)
        then Some (if neg then (- digits_Z ds)%Z else digits_Z ds) else None
      else None
  end.

(** HTML's rules for parsing floating-point number values: an optional
    [-], digits, an optional [.] followed by digits (at least one digit
    in all), and an optional exponent; anything else is not a number. *)
Definition parse_float (s : string) : option Q :=
  let '(neg, s1) := match s with String "-" r => (true, r) | _ => (false, s) end in
  let '(ip, s2) := take_digits s1 in
  let '(fp, dot, s3) := match s2 with
                        | String "." r => let '(fp, r') := take_digits r in (fp, true, r')
                        | _ => ([], false, s2)
                        end in
  if bool_decide ((ip ≠ [] ∨ fp ≠ []) ∧ (dot = true → fp ≠ [])) then
    e ← parse_exponent s3;
    let m := digits_Z (ip ++ fp) in
    Some (Qred (inject_Z (if neg then - m else m)%Z *
                Qpower 10 (e - Z.of_nat (length fp))%Z))
  else None.

(** The two rounding boundaries of binary64 that the parser's last step
    ("the number in S closest to the value", S the finite doubles without
    [-0], plus [2^1024] and [-2^1024] that report an error) turns into
    outcomes: a magnitude at or above [2^1024 - 2^970], half an ulp above
    the largest finite double, rounds to [2^1024] (an error, so [NaN]);
    a magnitude at most [2^-1075], half the least subnormal, rounds to
    [0] (never [-0]). *)
Definition double_overflow : Q := inject_Z (2 ^ 1024 - 2 ^ 970)%Z.
Definition double_underflow : Q := Qmake 1 (2 ^ 1075)%positive.

(** The number the parser returns for the exact value [q]: [None] on
    overflow, [0] on underflow, and otherwise [q] itself, where the code
    gets the double nearest to [q].  That double has the sign of [q], is
    not zero and is finite, so every test the code makes on it
    ([isNaN], [> 0], [>= 0]) answers as on [q]; only its digits may
    differ. *)
Definition html_round (q : Q) : option Q :=
  if Qle_bool double_overflow (Qabs q) then None
  else if Qle_bool (Qabs q) double_underflow then Some 0
  else Some q.

(** [input.valueAsNumber] of an [<input type="number">]: [NaN] unless the
    text is a valid number whose value is in the range of doubles. *)
Definition valueAsNumber (s : string) : jsval :=
  match parse_float s ≫= html_round with Some q => JNum q | None => JNaN end.

(** ** Template literals *)

(** The decimal text of an integer, as [Number.prototype.toString] writes it. *)
Definition z_to_string (z : Z) : string := NilZero.string_of_int (Z.to_int z).

(** [`${v}`]: [undefined] and [null] print their names, an integer its
    decimal text, an object ["[object Object]"], an array its elements
    joined by [","] with [null] and [undefined] printed as [""].
    Non-integer numbers are outside the model ([None]). *)
Fixpoint js_template (v : jsval) : option string :=
  match v with
  | JUndefined => Some "undefined"
  | JNull => Some "null"
  | JBool b => Some (if b then "true" else "false")
  | JNum q => if (Qden q =? 1)%positive then Some (z_to_string (Qnum q)) else None
  | JNaN => Some "NaN"
  | JStr s => Some s
  | JArr xs =>
      let fix go (xs : list jsval) : option (list string) :=
        match xs with
        | [] => Some []
        | x :: xs' =>
            match (match x with
                   | JUndefined | JNull => Some ""
                   | _ => js_template x
                   end), go xs' with
            | Some s, Some ss => Some (s :: ss)
            | _, _ => None
            end
        end in
      match go xs with Some ss => Some (js_join "," ss) | None => None end
  | JObj _ => Some "[object Object]"
  | JFile _ => Some "[object File]"
  | JFormData _ => Some "[object FormData]"
  end.

(** ** Errors *)

(** What a JavaScript expression of the sources can throw, and [Unmodelled]
    for an input outside the model (a non-integer in a template). *)
Inductive js_error := TypeError | Unmodelled.

Definition js_result (A : Type) : Type := js_error + A.

#[export] Instance js_result_ret : MRet js_result := λ A a, inr a.
#[export] Instance js_result_bind : MBind js_result :=
  λ A B f m, match m with inl e => inl e | inr a => f a end.

Definition of_option {A} (e : js_error) (o : option A) : js_result A :=
  match o with Some a => inr a | None => inl e end.

(** [`${v}`] inside the error monad. *)
Definition tmpl (v : jsval) : js_result string := of_option Unmodelled (js_template v).

(** The value of key [k] among the fields of an object: the later of two
    entries wins, a missing key reads [undefined]. *)
Definition js_get_field (fs : list (string * jsval)) (k : string) : jsval :=
  match List.find (λ kv, bool_decide (kv.1 = k)) (rev fs) with
  | Some kv => kv.2
  | None => JUndefined
  end.

(** Property read [v.k] and object destructuring [({k}) => ...]: reading a
    property of [undefined] or [null] throws a [TypeError]; a missing
    property reads [undefined]; of two entries with one key the later wins,
    as in an object literal or a spread.  Of the properties of arrays and
    strings only [length] is modelled. *)
Definition js_get (v : jsval) (k : string) : js_result jsval :=
  match v with
  | JUndefined | JNull => inl TypeError
  | JObj fs => inr (js_get_field fs k)
  | JArr xs => inr (if bool_decide (k = "length") then JNum (inject_Z (Z.of_nat (length xs)))
                    else JUndefined)
  | JStr s => inr (if bool_decide (k = "length") then JNum (inject_Z (Z.of_nat (String.length s)))
                   else JUndefined)
  | _ => inr JUndefined
  end.

(** Optional chaining [v?.k]: [undefined] on [undefined] or [null], a
    property read otherwise. *)
Definition js_opt_get (v : jsval) (k : string) : jsval :=
  match js_get v k with inr x => x | inl _ => JUndefined end.

(** The text React renders for a value placed as a child: nothing for
    [undefined], [null] and booleans, the text of a string or number, the
    children of an array one after the other; an object is not a valid
    child and makes rendering throw. *)
Fixpoint react_text (v : jsval) : js_result string :=
  match v with
  | JUndefined | JNull | JBool _ => inr ""
  | JNum _ | JNaN | JStr _ => tmpl v
  | JArr xs =>
      let fix go (xs : list jsval) : js_result string :=
        match xs with
        | [] => inr ""
        | x :: xs' => s ← react_text x; t ← go xs'; inr (s +:+ t)
        end in
      go xs
  | JObj _ | JFile _ | JFormData _ => inl TypeError
  end.

(** [FormData.prototype.append(name, v)]: a [File] is kept, any other value
    is converted to its string (so [undefined] becomes ["undefined"]). *)
Definition fd_value (v : jsval) : formval :=
  match v with
  | JFile f => FVFile f
  | _ => FVText (default "" (js_template v))
  end.

(** ** Laws of [split] and [join] *)

Section split_join.
  Context (c : ascii).

Lemma js_split_not_nil s : js_split c s ≠ [].
  Proof.
    induction s as [|a s IH]; simpl; [done|].
    case_decide; [done|]. by destruct (js_split c s).
  Qed.

Lemma js_join_cons x xs :
    js_join (String c "") (x :: xs) = match xs with [] => x | _ => x +:+ String c "" +:+ js_join (String c "") xs end.
  Proof. by destruct xs. Qed.

Lemma js_split_no_char x : no_char c x = true → js_split c x = [x].
  Proof.
    induction x as [|a x IH]; simpl; [done|].
    intros [Ha Hx]%andb_prop. rewrite IH by done.
    case_decide; [|done]. by rewrite bool_decide_true in Ha.
  Qed.

Lemma js_split_app_sep x t :
    no_char c x = true → js_split c (x +:+ String c "" +:+ t) = x :: js_split c t.
  Proof.
    induction x as [|a x IH]; simpl; intros Hx.
    - by rewrite decide_True.
    - apply andb_prop in Hx as [Ha Hx]. rewrite IH by done.
      rewrite decide_False; [done|]. intros ->. by rewrite bool_decide_true in Ha.
  Qed.
End split_join.

Section split_join_inverse.
  Context (c : ascii).

  (** Joining the pieces of a split gives the string back. *)
Lemma js_join_split s : js_join (String c "") (js_split c s) = s.
  Proof.
    induction s as [|a s IH]; [done|]. cbn [js_split].
    pose proof (js_split_not_nil c s) as Hne.
    destruct (js_split c s) as [|r rs]; [done|].
    case_decide as Hac; [subst a|].
    - rewrite js_join_cons, IH. done.
    - rewrite js_join_cons in IH |- *. by destruct rs; rewrite <- IH.
  Qed.

  (** Splitting a join of separator-free, non-empty-list pieces gives the
      pieces back. *)
Lemma js_split_join l :
    l ≠ [] → Forall (λ x, no_char c x = true) l → js_split c (js_join (String c "") l) = l.
  Proof.
    induction l as [|x xs IH]; intros Hne Hall; [done|].
    apply Forall_cons in Hall as [Hx Hall].
    rewrite js_join_cons. destruct xs as [|y ys].
    - by apply js_split_no_char.
    - rewrite js_split_app_sep by done. f_equal. by apply IH.
  Qed.
End split_join_inverse.

#[export] Hint Resolve js_split_not_nil : dash.
#[export] Hint Rewrite js_join_split : dash_rw.

(** ** [JSON.stringify] and RTK Query's argument serialisation *)

(** A string literal: quotes and backslashes escaped (control characters
    are outside the model). *)
(** The double-quote character, from its code. *)
Definition dquote : ascii := ascii_of_nat 34.

Fixpoint json_escape (s : string) : string :=
  match s with
  | EmptyString => EmptyString
  | String a s' =>
      if decide (a = dquote) then String "\" (String a (json_escape s'))
      else if decide (a = "\"%char) then String "\" (String a (json_escape s'))
      else String a (json_escape s')
  end.

Definition json_quote (s : string) : string := String dquote (json_escape s +:+ String dquote "").

(** Insert a field in a list sorted by key (RTK sorts the keys of plain
    objects before stringifying a query argument). *)
Fixpoint insert_field {A} (f : string * A) (fs : list (string * A)) : list (string * A) :=
  match fs with
  | [] => [f]
  | g :: gs => if String.leb f.1 g.1 then f :: g :: gs else g :: insert_field f gs
  end.

Definition sort_fields {A} (fs : list (string * A)) : list (string * A) :=
  foldr insert_field [] fs.

(** [JSON.stringify(v)] with sorted object keys; [None] is the
    [undefined] it returns for [undefined]. *)
Fixpoint json_stringify (v : jsval) : option string :=
  match v with
  | JUndefined => None
  | JNull | JNaN => Some "null"
  | JBool b => Some (if b then "true" else "false")
  | JNum q => if (Qden q =? 1)%positive then Some (z_to_string (Qnum q)) else None
  | JStr s => Some (json_quote s)
  | JArr xs =>
      Some ("[" +:+ js_join "," (map (λ x, default "null" (json_stringify x)) xs) +:+ "]")
  | JObj fs =>
      let texts := List.map (λ kv, (kv.1, json_stringify kv.2)) fs in
      let present := omap (λ kt, (λ t, (kt.1, t)) <$> kt.2) texts in
      Some ("{" +:+ js_join "," (map (λ kt, json_quote kt.1 +:+ ":" +:+ kt.2)
                                      (sort_fields present)) +:+ "}")
  | JFile _ | JFormData _ => Some "{}"
  end.

(** [defaultSerializeQueryArgs]: the argument part of a query cache key. *)
Definition serializeQueryArgs (arg : jsval) : string :=
  default "undefined" (json_stringify arg).

(** ** Object spread *)

(** [{...o, k: v}] on the fields of [o]: an existing key keeps its place and
    takes the new value, a new key goes last. *)
Fixpoint set_field (k : string) (v : jsval) (fs : list (string * jsval)) : list (string * jsval) :=
  match fs with
  | [] => [(k, v)]
  | (k', v') :: fs' => if decide (k = k') then (k, v) :: fs' else (k', v') :: set_field k v fs'
  end.

Definition js_spread_set (o : jsval) (k : string) (v : jsval) : jsval :=
  match o with
  | JObj fs => JObj (set_field k v fs)
  | _ => JObj [(k, v)]
  end.

Lemma js_get_truthy v k : truthy v = true → ∃ x, js_get v k = inr x.
Proof. destruct v; simpl; try done; eauto. Qed.

(** ** Template literals of arrays *)

(** The elements of an array as [`${xs}`] prints them. *)
Fixpoint template_elems (xs : list jsval) : option (list string) :=
  match xs with
  | [] => Some []
  | x :: xs' =>
      match (match x with
             | JUndefined | JNull => Some ""
             | _ => js_template x
             end), template_elems xs' with
      | Some s, Some ss => Some (s :: ss)
      | _, _ => None
      end
  end.

Lemma js_template_arr xs :
  js_template (JArr xs) = (λ ss, js_join "," ss) <$> template_elems xs.
Proof. reflexivity. Qed.

Lemma template_elems_strs (l : list string) : template_elems (map JStr l) = Some l.
Proof. induction l as [|s l IH]; simpl; [done|]. by rewrite IH. Qed.

(** An array of strings prints as the strings joined by commas. *)
Lemma js_template_strs (l : list string) : js_template (JArr (map JStr l)) = Some (js_join "," l).
Proof. by rewrite js_template_arr, template_elems_strs. Qed.

Lemma string_app_cons a (s t : string) : String a s +:+ t = String a (s +:+ t).
Proof. reflexivity. Qed.

Lemma string_app_nil_r (s : string) : s +:+ "" = s.
Proof. induction s as [|a s IH]; [done|]. by rewrite string_app_cons, IH. Qed.

Lemma string_app_assoc (s t u : string) : s +:+ (t +:+ u) = (s +:+ t) +:+ u.
Proof. induction s as [|a s IH]; [done|]. by rewrite !string_app_cons, IH. Qed.

(** ** Objects with distinct keys *)

(** With distinct keys the last entry of a key is its only one. *)
Lemma js_get_field_NoDup fs k :
  NoDup fs.*1 →
  js_get_field fs k = default JUndefined (snd <$> List.find (λ kv, bool_decide (kv.1 = k)) fs).
Proof.
  unfold js_get_field. induction fs as [|[k1 v1] fs IH]; intros Hnd; [done|].
  apply NoDup_cons in Hnd as [Hk1 Hnd]. specialize (IH Hnd). simpl. rewrite find_app.
  destruct (List.find _ (rev fs)) as [[k2 v2]|] eqn:Hf.
  - apply find_some in Hf as [Hin Hk2%bool_decide_eq_true]. apply in_rev in Hin.
    simpl in Hk2. subst k2. rewrite bool_decide_false; [exact IH|]. intros ->.
    destruct Hk1. apply list_elem_of_fmap. exists (k, v2). split; [done|].
    by apply list_elem_of_In.
  - simpl. by case_bool_decide.
Qed.

Lemma set_field_keys k v fs :
  (set_field k v fs).*1 = if bool_decide (k ∈ fs.*1) then fs.*1 else (fs.*1 ++ [k])%list.
Proof.
  induction fs as [|[k1 v1] fs IH]; [done|]. cbn [set_field].
  destruct (decide (k = k1)) as [->|Hk]; rewrite !fmap_cons.
  - rewrite bool_decide_true; [done|]. apply elem_of_cons. by left.
  - rewrite IH. simpl. destruct (decide (k ∈ fs.*1)).
    + by rewrite !bool_decide_true by set_solver.
    + by rewrite !bool_decide_false by set_solver.
Qed.

Lemma set_field_NoDup k v fs : NoDup fs.*1 → NoDup (set_field k v fs).*1.
Proof.
  intros Hnd. rewrite set_field_keys. case_bool_decide; [done|].
  apply NoDup_app. split_and!; [done| |apply NoDup_singleton]. set_solver.
Qed.

Lemma js_get_field_set_field k k' v fs :
  NoDup fs.*1 →
  js_get_field (set_field k v fs) k' = if bool_decide (k = k') then v else js_get_field fs k'.
Proof.
  intros Hnd. rewrite !js_get_field_NoDup by auto using set_field_NoDup.
  clear Hnd. induction fs as [|[k1 v1] fs IH]; cbn [set_field].
  - simpl. by case_bool_decide.
  - destruct (decide (k = k1)) as [->|Hk]; simpl;
      destruct (decide (k1 = k')) as [->|Hk1].
    + by rewrite !bool_decide_true.
    + by rewrite !bool_decide_false.
    + rewrite bool_decide_true, bool_decide_false; [done|congruence|done].
    + rewrite bool_decide_false by done. exact IH.
Qed.

(** ** Objects as RTK serialises them: keys in order *)

Lemma string_leb_trans s1 s2 s3 :
  String.leb s1 s2 = true → String.leb s2 s3 = true → String.leb s1 s3 = true.
Proof.
  unfold String.leb. revert s2 s3.
  induction s1 as [|a s1 IH]; intros [|b s2] [|c s3]; simpl; try done. unfold Ascii.compare.
  destruct (N.compare_spec (N_of_ascii a) (N_of_ascii b));
  destruct (N.compare_spec (N_of_ascii b) (N_of_ascii c));
  destruct (N.compare_spec (N_of_ascii a) (N_of_ascii c)); try done; try lia.
  apply IH.
Qed.

(** The order [insert_field] sorts by. *)
Definition key_le {A} (f g : string * A) : Prop := String.leb f.1 g.1 = true.

#[export] Instance key_le_trans {A} : Transitive (@key_le A).
Proof. intros f g h. apply string_leb_trans. Qed.

Lemma insert_field_perm {A} (f : string * A) fs : insert_field f fs ≡ₚ f :: fs.
Proof.
  induction fs as [|g fs IH]; simpl; [done|].
  destruct (String.leb f.1 g.1); [done|]. by rewrite IH, Permutation_swap.
Qed.

Lemma sort_fields_perm {A} (fs : list (string * A)) : sort_fields fs ≡ₚ fs.
Proof.
  induction fs as [|f fs IH]; simpl; [done|]. by rewrite insert_field_perm, IH.
Qed.

Lemma insert_field_sorted {A} (f : string * A) fs :
  Sorted key_le fs → Sorted key_le (insert_field f fs).
Proof.
  induction 1 as [|g fs Hs IH Hhd]; simpl; [by repeat constructor|].
  destruct (String.leb f.1 g.1) eqn:Hfg; [by repeat constructor|].
  assert (key_le g f) as Hgf.
  { unfold key_le. destruct (String.leb_total f.1 g.1); congruence. }
  constructor; [done|]. destruct fs as [|h fs]; simpl; [by repeat constructor|].
  inversion Hhd as [|? ? Hgh]; subst.
  destruct (String.leb f.1 h.1); by constructor.
Qed.

Lemma sort_fields_sorted {A} (fs : list (string * A)) : Sorted key_le (sort_fields fs).
Proof. induction fs as [|f fs IH]; simpl; [constructor|]. by apply insert_field_sorted. Qed.

(** With distinct keys, the sorted fields do not depend on the order the
    object lists them in. *)
Lemma sort_fields_perm_eq {A} (fs gs : list (string * A)) :
  NoDup fs.*1 → fs ≡ₚ gs → sort_fields fs = sort_fields gs.
Proof.
  intros Hnd Hp. apply (Sorted_unique_strong key_le); [|apply sort_fields_sorted..|].
  - intros [k1 v1] [k2 v2] H1 H2 H12 H21. unfold key_le in *. simpl in *.
    assert (k1 = k2) as <- by (by apply String.leb_antisym).
    rewrite sort_fields_perm in H1. rewrite sort_fields_perm, <- Hp in H2.
    f_equal. by eapply NoDup_fst_unique.
  - by rewrite !sort_fields_perm.
Qed.

(** The fields [JSON.stringify] keeps of an object: those whose value is
    not [undefined], with their text. *)
Definition json_present (fs : list (string * jsval)) : list (string * string) :=
  omap (λ kt, (λ t, (kt.1, t)) <$> kt.2) (List.map (λ kv, (kv.1, json_stringify kv.2)) fs).

Lemma json_present_keys fs : (json_present fs).*1 `sublist_of` fs.*1.
Proof.
  unfold json_present. induction fs as [|[k v] fs IH]; simpl; [done|].
  destruct (json_stringify v); simpl; [by apply sublist_skip|by apply sublist_cons].
Qed.

Lemma json_stringify_obj fs :
  json_stringify (JObj fs) =
    Some ("{" +:+ js_join "," (map (λ kt, json_quote kt.1 +:+ ":" +:+ kt.2)
                                    (sort_fields (json_present fs))) +:+ "}").
Proof. reflexivity. Qed.

(** [JSON.stringify] with sorted keys gives one text for an object
    whatever the order of its (distinct) keys. *)
Lemma json_stringify_perm fs gs :
  NoDup fs.*1 → fs ≡ₚ gs → json_stringify (JObj fs) = json_stringify (JObj gs).
Proof.
  intros Hnd Hp. rewrite !json_stringify_obj. do 5 f_equal.
  apply sort_fields_perm_eq.
  - eapply sublist_NoDup; [exact Hnd|apply json_present_keys].
  - unfold json_present. apply omap_Permutation, Permutation_map, Hp.
Qed.

(** ** What the tests of the code see of a number input *)

Lemma double_underflow_pos : (0 < double_underflow)%Q.
Proof. by vm_compute. Qed.

Lemma double_bounds : (double_underflow < double_overflow)%Q.
Proof. by vm_compute. Qed.

Lemma html_round_spec q r :
  html_round q = Some r ↔
    (Qabs q < double_overflow)%Q ∧
    ((Qabs q <= double_underflow)%Q ∧ r = 0%Q ∨ (double_underflow < Qabs q)%Q ∧ r = q).
Proof.
  unfold html_round.
  destruct (Qle_bool double_overflow (Qabs q)) eqn:E1;
    [apply Qle_bool_iff in E1|apply not_true_iff_false in E1; rewrite Qle_bool_iff in E1].
  - split; [done|]. intros [H _]. lra.
  - destruct (Qle_bool (Qabs q) double_underflow) eqn:E2;
      [apply Qle_bool_iff in E2|apply not_true_iff_false in E2; rewrite Qle_bool_iff in E2].
    + split; [intros [= <-]; split; [lra|left; done]|].
      intros [_ [[_ ->]|[H _]]]; [done|lra].
    + split; [intros [= <-]; split; [lra|right; split; [lra|done]]|].
      intros [_ [[H _]|[_ ->]]]; [lra|done].
Qed.

(** A number input reads a positive number exactly when its text is a
    number above [2^-1075] and below the overflow bound. *)
Lemma valueAsNumber_pos t :
  (∃ q, valueAsNumber t = JNum q ∧ (0 < q)%Q) ↔
  (∃ q, parse_float t = Some q ∧ (double_underflow < q)%Q ∧ (q < double_overflow)%Q).
Proof.
  pose proof double_underflow_pos.
  unfold valueAsNumber. destruct (parse_float t) as [q|]; simpl; [|naive_solver].
  destruct (html_round q) as [r|] eqn:Hr.
  - apply html_round_spec in Hr as [Hov [[Hun ->]|[Hun ->]]]; apply Qabs_Qlt_condition in Hov.
    + apply Qabs_Qle_condition in Hun.
      split; [intros (? & [= <-] & ?); lra|intros (? & [= <-] & ? & ?); lra].
    + split.
      * intros (? & [= <-] & Hq). exists q. split_and!; [done| |lra].
        by rewrite Qabs_pos in Hun by lra.
      * intros (? & [= <-] & ? & ?). exists q. split; [done|lra].
  - split; [naive_solver|]. intros (? & [= <-] & Hq1 & Hq2). exfalso.
    unfold html_round in Hr. destruct (Qle_bool double_overflow (Qabs q)) eqn:E1; [|by case_match].
    apply Qle_bool_iff in E1. rewrite Qabs_pos in E1 by lra. lra.
Qed.

(** A number input reads a number at least 0 exactly when its text is a
    number at least [-2^-1075] (a smaller negative magnitude rounds to
    0) and below the overflow bound. *)
Lemma valueAsNumber_nonneg t :
  (∃ q, valueAsNumber t = JNum q ∧ (0 <= q)%Q) ↔
  (∃ q, parse_float t = Some q ∧ (- double_underflow <= q)%Q ∧ (q < double_overflow)%Q).
Proof.
  pose proof double_underflow_pos. pose proof double_bounds.
  unfold valueAsNumber. destruct (parse_float t) as [q|]; simpl; [|naive_solver].
  destruct (html_round q) as [r|] eqn:Hr.
  - apply html_round_spec in Hr as [Hov [[Hun ->]|[Hun ->]]]; apply Qabs_Qlt_condition in Hov.
    + apply Qabs_Qle_condition in Hun.
      split; [intros _; exists q; split_and!; [done|lra|lra]|intros _; exists 0%Q; split; [done|lra]].
    + split.
      * intros (? & [= <-] & Hq). exists q. split_and!; [done|lra|lra].
      * intros (? & [= <-] & Hq1 & Hq2). exists q. split; [done|].
        destruct (Qlt_le_dec q 0); [|done].
        rewrite Qabs_neg in Hun by lra. lra.
  - split; [naive_solver|]. intros (? & [= <-] & Hq1 & Hq2). exfalso.
    unfold html_round in Hr. destruct (Qle_bool double_overflow (Qabs q)) eqn:E1; [|by case_match].
    apply Qle_bool_iff in E1.
    destruct (Qlt_le_dec q 0); [rewrite Qabs_neg in E1 by lra|rewrite Qabs_pos in E1 by lra]; lra.
Qed.
