(* ===== verification/Transport.v ===== *)
(** * Transport: the HTTP client configuration of [src/src/Redux/Api/baseApi.ts]

    [baseApi] is [createApi({ baseQuery: fetchBaseQuery({ baseUrl,
    prepareHeaders }), tagTypes })].  This file models the request that
    [fetchBaseQuery] builds from an endpoint's [{url, method, body}]:
    - the URL is [joinUrls(baseUrl, url)] (RTK Query's helper, modelled
      from its documented behaviour: one slash between base and path);
    - [prepareHeaders] reads the cookie ["accessToken"] and, when it is
      truthy, sets [Authorization] to the token verbatim (no scheme);
    - a plain-object or array body is sent as JSON with a [content-type]
      header; a [FormData] body is sent as multipart, a string as it is.
    The cookie jar is a [gmap string string]; headers are an association
    list whose [set] replaces an existing entry, as [Headers.set] does. *)

From stdpp Require Import base list decidable strings gmap options.
From Stdlib Require Import Ascii.
From S2P Require Import Prelude Js.

Local Open Scope string_scope.

(** ** Data *)

Inductive http_method := GET | POST | PUT | PATCH | DELETE.

#[export] Instance http_method_eq_dec : EqDecision http_method.
Proof. solve_decision. Defined.

(** What an endpoint's [query(arg)] returns: [{ url, method, body }]. *)
Record fetch_args := FetchArgs {
  fa_url : string;
  fa_method : http_method;
  fa_body : jsval
}.

Definition headers := list (string * string).

(** The request [fetchBaseQuery] hands to [fetch]. *)
Record request := Request {
  rq_url : string;
  rq_method : http_method;
  rq_headers : headers;
  rq_body : jsval
}.

(** ** The configuration of [baseApi] *)

Definition baseUrl : string := "http://104.236.194.254:5009/api/v1".

Definition tagTypes : list string :=
  ["logIn"; "transaction"; "allUsers"; "allProducts"; "allOrders"].

(** [Headers.set(k, v)]: replace the entry for [k], or add it. *)
Definition headers_set (k v : string) (h : headers) : headers :=
  (k, v) :: filter (λ kv, kv.1 ≠ k) h.

Definition headers_get (k : string) (h : headers) : option string :=
  snd <$> List.find (λ kv, bool_decide (kv.1 = k)) h.

(** [Cookies.get(name)]: [undefined] when the cookie is absent. *)
Definition cookie_get (jar : gmap string string) (name : string) : option string :=
  jar !! name.

(** [prepareHeaders]: [const token = Cookies.get("accessToken");
    if (token) headers.set('Authorization', `${token}`)]. *)
Definition prepareHeaders (jar : gmap string string) (h : headers) : headers :=
  match cookie_get jar "accessToken" with
  | Some token => if truthy (JStr token) then headers_set "Authorization" token h else h
  | None => h
  end.

(** ** [joinUrls] of RTK Query *)

Definition starts_with (p s : string) : bool := String.prefix p s.

Fixpoint ends_with_slash (s : string) : bool :=
  match s with
  | EmptyString => false
  | String a EmptyString => bool_decide (a = "/"%char)
  | String _ s' => ends_with_slash s'
  end.

Fixpoint contains (p s : string) : bool :=
  match s with
  | EmptyString => starts_with p s
  | String _ s' => starts_with p s || contains p s'
  end.

(** [/(^|:)\/\//.test(url)]: a scheme or a protocol-relative prefix. *)
Definition isAbsoluteUrl (url : string) : bool :=
  starts_with "//" url || contains "://" url.

(** [s.replace(/\/$/, '')]: drop one trailing slash. *)
Fixpoint withoutTrailingSlash (s : string) : string :=
  match s with
  | EmptyString => EmptyString
  | String a EmptyString => if bool_decide (a = "/"%char) then EmptyString else s
  | String a s' => String a (withoutTrailingSlash s')
  end.

(** [s.replace(/^\//, '')]: drop one leading slash. *)
Definition withoutLeadingSlash (s : string) : string :=
  match s with
  | String a s' => if bool_decide (a = "/"%char) then s' else s
  | EmptyString => EmptyString
  end.

Definition joinUrls (base url : string) : string :=
  if bool_decide (base = "") then url
  else if bool_decide (url = "") then base
  else if isAbsoluteUrl url then url
  else
    let delimiter :=
      if ends_with_slash base || negb (starts_with "?" url) then "/" else "" in
    withoutTrailingSlash base +:+ delimiter +:+ withoutLeadingSlash url.

(** ** The request [fetchBaseQuery] builds *)

(** [isJsonifiable(body)]: a plain object or an array.  A [FormData] is
    left for [fetch] to label as multipart, a string is sent as it is. *)
Definition isJsonifiable (b : jsval) : bool :=
  match b with JObj _ | JArr _ => true | _ => false end.

(** [if (!headers.has('content-type') && isJsonifiable(body))
    headers.set('content-type', 'application/json')]. *)
Definition content_headers (b : jsval) (h : headers) : headers :=
  if isJsonifiable b then
    match headers_get "content-type" h with
    | Some _ => h
    | None => headers_set "content-type" "application/json" h
    end
  else h.

Definition fetchBaseQuery (jar : gmap string string) (a : fetch_args) : request :=
  let h := prepareHeaders jar [] in
  {| rq_url := joinUrls baseUrl (fa_url a);
     rq_method := fa_method a;
     rq_headers := content_headers (fa_body a) h;
     rq_body := fa_body a |}.

(** ** Properties of the transport layer *)

Lemma headers_get_set_eq k v h : headers_get k (headers_set k v h) = Some v.
Proof. unfold headers_get, headers_set. simpl. by rewrite bool_decide_true. Qed.

Lemma headers_get_nil k : headers_get k [] = None.
Proof. done. Qed.

#[export] Hint Rewrite headers_get_set_eq headers_get_nil : dash_rw.

(** The [Authorization] header [prepareHeaders] produces, as a function of
    the ["accessToken"] cookie. *)
Definition auth_of_cookie (jar : gmap string string) : option string :=
  match jar !! "accessToken" with
  | Some t => if bool_decide (t = "") then None else Some t
  | None => None
  end.

Lemma prepareHeaders_auth jar :
  headers_get "Authorization" (prepareHeaders jar []) = auth_of_cookie jar.
Proof.
  unfold prepareHeaders, auth_of_cookie, cookie_get.
  destruct (jar !! "accessToken") as [t|]; [|done]. simpl.
  by case_bool_decide; autorewrite with dash_rw.
Qed.

Lemma headers_get_set_ne k k' v h :
  k ≠ k' → headers_get k (headers_set k' v h) = headers_get k h.
Proof.
  intros Hne. unfold headers_get, headers_set. simpl.
  rewrite bool_decide_false by congruence. f_equal.
  induction h as [|[k1 v1] h IH]; [done|]. cbn [filter list_filter].
  case_decide as Hk1; simpl.
  - case_bool_decide; [done|exact IH].
  - rewrite bool_decide_false; [exact IH|]. simpl in *. naive_solver.
Qed.

Lemma content_headers_auth b h :
  headers_get "Authorization" (content_headers b h) = headers_get "Authorization" h.
Proof.
  unfold content_headers. destruct (isJsonifiable b); [|done].
  destruct (headers_get "content-type" h); [done|]. by apply headers_get_set_ne.
Qed.

(** Every request [fetchBaseQuery] builds carries the token of the
    ["accessToken"] cookie, and no [Authorization] header without it. *)
Lemma fetchBaseQuery_auth jar a :
  headers_get "Authorization" (rq_headers (fetchBaseQuery jar a)) = auth_of_cookie jar.
Proof. simpl. by rewrite content_headers_auth, prepareHeaders_auth. Qed.

Lemma baseUrl_shape :
  ends_with_slash baseUrl = false ∧ withoutTrailingSlash baseUrl = baseUrl ∧ baseUrl ≠ "".
Proof. by vm_compute. Qed.

Lemma contains_slash_cons p : contains "://" (String "/" p) = contains "://" p.
Proof. done. Qed.

(** ** Relative paths under [baseUrl] *)

Lemma no_char_app c s t : no_char c (s +:+ t) = no_char c s && no_char c t.
Proof. induction s as [|a s IH]; simpl; [done|]. by rewrite IH, andb_assoc. Qed.

Lemma starts_with_colon_false s : no_char ":" s = true → starts_with "://" s = false.
Proof.
  destruct s as [|a s]; [done|]. intros [Ha _]%andb_prop.
  change (starts_with "://" (String a s)) with
    (if ascii_dec ":" a then String.prefix "//" s else false).
  destruct (ascii_dec ":" a) as [<-|]; [by rewrite bool_decide_true in Ha|done].
Qed.

(** A string with no colon names no scheme. *)
Lemma contains_scheme_no_colon s : no_char ":" s = true → contains "://" s = false.
Proof.
  induction s as [|a s IH]; [done|]. intros Hs.
  change (contains "://" (String a s)) with (starts_with "://" (String a s) || contains "://" s).
  rewrite starts_with_colon_false by done. simpl in Hs. apply andb_prop in Hs as [_ Hs].
  by rewrite IH.
Qed.

(** A relative path with no colon and no query start lands under
    [baseUrl], after one slash. *)
Lemma joinUrls_baseUrl p :
  p ≠ "" → no_char ":" p = true → starts_with "?" p = false → starts_with "//" p = false →
  joinUrls baseUrl p = baseUrl +:+ "/" +:+ withoutLeadingSlash p.
Proof.
  intros Hne Hc Hq Hs. unfold joinUrls, isAbsoluteUrl.
  rewrite bool_decide_false by done. rewrite bool_decide_false by done.
  rewrite Hs, contains_scheme_no_colon, Hq by done. simpl. done.
Qed.
