(* ===== verification/Endpoints.v ===== *)
(** * Endpoints: the resource endpoint modules of [src/src/Redux/Api/]

    Each of [productApi.ts], [userApi.ts], [blogApi.ts] and [uploadApi.ts]
    calls [baseApi.injectEndpoints] with a set of [build.query] and
    [build.mutation] definitions.  An endpoint is modelled by the record
    [endpoint_def]: its name, its kind, its [query] function (from the
    argument the hook is called with to the [{url, method, body}] it
    returns, throwing a [TypeError] where the source destructures
    [undefined]), and its static [providesTags] / [invalidatesTags].
    One Module per source file holds its endpoints; [api_endpoints] is the
    table the injected API ends up with, [mcall] and [mresult] are a
    component's call of a mutation trigger and its outcome, and [TagTable]
    is the interface the cache ([Cache.v]) is written against. *)

From stdpp Require Import base list decidable strings options.
From S2P Require Import Prelude Js Transport.

Local Open Scope string_scope.

Inductive endpoint_kind := Query | Mutation.

#[export] Instance endpoint_kind_eq_dec : EqDecision endpoint_kind.
Proof. solve_decision. Defined.

Record endpoint_def := Endpoint {
  ep_name : string;
  ep_kind : endpoint_kind;
  ep_query : jsval → js_result fetch_args;
  ep_provides : list string;
  ep_invalidates : list string
}.

Module ProductApi.

Definition addProduct : endpoint_def := {|
    ep_name := "addProduct"; ep_kind := Mutation;
    ep_query := λ data, mret (FetchArgs "/products" POST data);
    ep_provides := []; ep_invalidates := ["allProducts"] |}.

Definition allProducts : endpoint_def := {|
    ep_name := "allProducts"; ep_kind := Query;
    ep_query := λ _, mret (FetchArgs "/products" GET JUndefined);
    ep_provides := ["allProducts"]; ep_invalidates := [] |}.

Definition deleteProduct : endpoint_def := {|
    ep_name := "deleteProduct"; ep_kind := Mutation;
    ep_query := λ id, u ← tmpl id; mret (FetchArgs ("/products/" +:+ u) DELETE JUndefined);
    ep_provides := []; ep_invalidates := ["allProducts"] |}.

Definition singleProduct : endpoint_def := {|
    ep_name := "singleProduct"; ep_kind := Query;
    ep_query := λ id, u ← tmpl id; mret (FetchArgs ("/products/" +:+ u) GET JUndefined);
    ep_provides := ["allProducts"]; ep_invalidates := [] |}.

Definition updateProduct : endpoint_def := {|
    ep_name := "updateProduct"; ep_kind := Mutation;
    ep_query := λ arg,
      id ← js_get arg "id"; data ← js_get arg "data"; u ← tmpl id;
      mret (FetchArgs ("/products/" +:+ u) PATCH data);
    ep_provides := []; ep_invalidates := ["allProducts"] |}.

Definition orderHistory : endpoint_def := {|
    ep_name := "orderHistory"; ep_kind := Query;
    ep_query := λ status, u ← tmpl status;
      mret (FetchArgs ("/orders/all?status=" +:+ u) GET JUndefined);
    ep_provides := ["allOrders"]; ep_invalidates := [] |}.

Definition orderStatus : endpoint_def := {|
    ep_name := "orderStatus"; ep_kind := Mutation;
    ep_query := λ arg,
      id ← js_get arg "id"; status ← js_get arg "status"; u ← tmpl id;
      mret (FetchArgs ("/orders/" +:+ u) PATCH status);
    ep_provides := []; ep_invalidates := ["allOrders"] |}.

Definition endpoints : list endpoint_def :=
    [addProduct; allProducts; deleteProduct; singleProduct; updateProduct;
     orderHistory; orderStatus].
End ProductApi.

Module UserApi.

Definition loginUser : endpoint_def := {|
    ep_name := "loginUser"; ep_kind := Mutation;
    ep_query := λ data, mret (FetchArgs "/auth/login" POST data);
    ep_provides := []; ep_invalidates := ["logIn"] |}.

Definition allUsers : endpoint_def := {|
    ep_name := "allUsers"; ep_kind := Query;
    ep_query := λ arg,
      page ← js_get arg "page"; limit ← js_get arg "limit"; email ← js_get arg "email";
      p ← tmpl page; l ← tmpl limit; e ← tmpl email;
      mret (FetchArgs ("/users?page=" +:+ p +:+ "&limit=" +:+ l +:+ "&email=" +:+ e)
                      GET JUndefined);
    ep_provides := ["allUsers"]; ep_invalidates := [] |}.

Definition userStatusUpdate : endpoint_def := {|
    ep_name := "userStatusUpdate"; ep_kind := Mutation;
    ep_query := λ arg,
      id ← js_get arg "id"; status ← js_get arg "status"; u ← tmpl id;
      mret (FetchArgs ("/users/update-status/" +:+ u) PUT (JObj [("status", status)]));
    ep_provides := []; ep_invalidates := ["allUsers"] |}.

Definition endpoints : list endpoint_def := [loginUser; allUsers; userStatusUpdate].
End UserApi.

(** [blogApi.ts] names its result [eventApi]. *)
Module BlogApi.

Definition blog : endpoint_def := {|
    ep_name := "blog"; ep_kind := Query;
    ep_query := λ _, mret (FetchArgs "/blogs" GET JUndefined);
    ep_provides := ["approveEvent"]; ep_invalidates := [] |}.

Definition addblog : endpoint_def := {|
    ep_name := "addblog"; ep_kind := Mutation;
    ep_query := λ data, mret (FetchArgs "/blogs/create-blog" POST data);
    ep_provides := []; ep_invalidates := ["approveEvent"] |}.

Definition deleteBlog : endpoint_def := {|
    ep_name := "deleteBlog"; ep_kind := Mutation;
    ep_query := λ id, u ← tmpl id; mret (FetchArgs ("/blogs/" +:+ u) DELETE JUndefined);
    ep_provides := []; ep_invalidates := ["approveEvent"] |}.

Definition updateBlog : endpoint_def := {|
    ep_name := "updateBlog"; ep_kind := Mutation;
    ep_query := λ arg,
      id ← js_get arg "id"; data ← js_get arg "data"; u ← tmpl id;
      mret (FetchArgs ("/blogs/" +:+ u) PATCH data);
    ep_provides := []; ep_invalidates := ["approveEvent"] |}.

Definition endpoints : list endpoint_def := [blog; addblog; deleteBlog; updateBlog].
End BlogApi.

(** [uploadApi.ts] also names its result [eventApi]. *)
Module UploadApi.

Definition upload : endpoint_def := {|
    ep_name := "upload"; ep_kind := Mutation;
    ep_query := λ data, mret (FetchArgs "products/upload-file" POST data);
    ep_provides := []; ep_invalidates := ["approveEvent"] |}.

Definition endpoints : list endpoint_def := [upload].
End UploadApi.

(** The endpoints [baseApi] holds once the four modules are injected. *)
Definition api_endpoints : list endpoint_def :=
  ProductApi.endpoints ++ UserApi.endpoints ++ BlogApi.endpoints ++ UploadApi.endpoints.

Definition find_endpoint (name : string) : option endpoint_def :=
  List.find (λ e, bool_decide (ep_name e = name)) api_endpoints.

(** Split a hypothesis [ep ∈ api_endpoints] into one case per endpoint. *)
Ltac endpoint_cases H :=
  unfold api_endpoints, ProductApi.endpoints, UserApi.endpoints, BlogApi.endpoints,
    UploadApi.endpoints in H; simpl in H; elem_of_cases H.

(** [ep ∈ api_endpoints] for a named endpoint of the table. *)
Ltac in_api :=
  unfold api_endpoints, ProductApi.endpoints, UserApi.endpoints, BlogApi.endpoints,
    UploadApi.endpoints; simpl; elem_of_search.

Lemma find_endpoint_in ep : ep ∈ api_endpoints → find_endpoint (ep_name ep) = Some ep.
Proof. intros H. endpoint_cases H; reflexivity. Qed.

Lemma find_endpoint_elem n ep : find_endpoint n = Some ep → ep ∈ api_endpoints.
Proof. intros Hf. apply find_some in Hf as [Hin _]. by apply list_elem_of_In. Qed.

(** ** Mutation triggers as components call them *)

(** A call [fn(arg)] of the trigger [const [fn] = useXxxMutation()]. *)
Record mcall := MCall { mc_ep : endpoint_def; mc_arg : jsval }.

(** What the call resolves to: [{ data }] or [{ error }]; [.unwrap()]
    returns the data or throws the error. *)
Inductive mresult := MData (res : jsval) | MError (err : jsval).

(** ** The interface the cache is written against *)

(** What the cache needs to know of an API: the tags the query endpoint
    named [n] provides, and the tags the mutation endpoint named [n]
    invalidates. *)
Class TagTable := {
  provides_of : string → list string;
  invalidates_of : string → list string
}.

(** The tag table of the injected API: an unknown name has no tags. *)
#[export] Instance api_tags : TagTable := {|
  provides_of n := default [] (ep_provides <$> find_endpoint n);
  invalidates_of n := default [] (ep_invalidates <$> find_endpoint n)
|}.
