(* ===== verification/Routes.v ===== *)
(** * Routes: the REST contract of spec §6 and the endpoints that implement it

    The table of spec §6 is the abstract specification of the endpoint
    modules: for each operation, the resource, the HTTP method, the path
    (literal pieces and parameters) and the body.  [spec_table] writes it
    down, pairing each row with the endpoint that implements it and with
    the argument a component passes to the endpoint's hook.  The
    refinement theorem [endpoints_refine_spec_table] shows that every
    endpoint's [query], sent through [fetchBaseQuery], produces exactly the
    row's method, URL under [baseUrl] and body.  The second part compares
    the endpoints' tags with the resources of the table and with the
    [tagTypes] [baseApi] declares. *)

From stdpp Require Import base list decidable sets strings options.
From Stdlib Require Import Ascii.
From S2P Require Import Prelude Js Transport Endpoints.

Local Open Scope string_scope.

Inductive resource := Auth | Users | Products | FileUpload | Orders | Blog.

#[export] Instance resource_eq_dec : EqDecision resource.
Proof. solve_decision. Defined.

(** A path of the table: literal pieces and named parameters. *)
Inductive seg := Lit (s : string) | Par (name : string).

Fixpoint fill_path (env : string → string) (p : list seg) : string :=
  match p with
  | [] => ""
  | Lit s :: p' => s +:+ fill_path env p'
  | Par x :: p' => env x +:+ fill_path env p'
  end.

Record row := Row {
  rw_endpoint : string;
  rw_resource : resource;
  rw_method : http_method;
  rw_path : list seg;
  rw_arg : (string → string) → jsval → jsval;   (** what the hook is called with *)
  rw_body : (string → string) → jsval → jsval    (** the body the row prescribes *)
}.

Definition no_body : (string → string) → jsval → jsval := λ _ _, JUndefined.
Definition data_body : (string → string) → jsval → jsval := λ _ data, data.
Definition id_arg : (string → string) → jsval → jsval := λ env _, JStr (env "id").
Definition id_data_arg : (string → string) → jsval → jsval :=
  λ env data, JObj [("id", JStr (env "id")); ("data", data)].
Definition id_status_arg : (string → string) → jsval → jsval :=
  λ env _, JObj [("id", JStr (env "id")); ("status", JStr (env "status"))].

(** The rows of spec §6, in the order the endpoints are injected. *)
Definition spec_table : list row := [
  Row "addProduct" Products POST [Lit "/products"] data_body data_body;
  Row "allProducts" Products GET [Lit "/products"] no_body no_body;
  Row "deleteProduct" Products DELETE [Lit "/products/"; Par "id"] id_arg no_body;
  Row "singleProduct" Products GET [Lit "/products/"; Par "id"] id_arg no_body;
  Row "updateProduct" Products PATCH [Lit "/products/"; Par "id"] id_data_arg data_body;
  Row "orderHistory" Orders GET [Lit "/orders/all?status="; Par "status"]
      (λ env _, JStr (env "status")) no_body;
  Row "orderStatus" Orders PATCH [Lit "/orders/"; Par "id"] id_status_arg
      (λ env _, JStr (env "status"));
  Row "loginUser" Auth POST [Lit "/auth/login"] data_body data_body;
  Row "allUsers" Users GET
      [Lit "/users?page="; Par "page"; Lit "&limit="; Par "limit"; Lit "&email="; Par "email"]
      (λ env _, JObj [("page", JStr (env "page")); ("limit", JStr (env "limit"));
                      ("email", JStr (env "email"))]) no_body;
  Row "userStatusUpdate" Users PUT [Lit "/users/update-status/"; Par "id"] id_status_arg
      (λ env _, JObj [("status", JStr (env "status"))]);
  Row "blog" Blog GET [Lit "/blogs"] no_body no_body;
  Row "addblog" Blog POST [Lit "/blogs/create-blog"] data_body data_body;
  Row "deleteBlog" Blog DELETE [Lit "/blogs/"; Par "id"] id_arg no_body;
  Row "updateBlog" Blog PATCH [Lit "/blogs/"; Par "id"] id_data_arg data_body;
  Row "upload" FileUpload POST [Lit "/products/upload-file"] data_body data_body
].

(** The table has one row per endpoint of the API, in the same order. *)
Lemma spec_table_endpoints : rw_endpoint <$> spec_table = ep_name <$> api_endpoints.
Proof. reflexivity. Qed.

Lemma string_app_lit_ne (a : ascii) (s t : string) : String a s +:+ t ≠ "".
Proof. by rewrite string_app_cons. Qed.

(** Split a hypothesis [rw ∈ spec_table] into one case per row. *)
Ltac row_cases H :=
  unfold spec_table in H;
  repeat (apply elem_of_cons in H as [->|H]); [..|by apply elem_of_nil in H].

(** The side conditions of [joinUrls_baseUrl] on a path built from
    literals and colon-free parameters. *)
Ltac path_side Henv :=
  first [ apply string_app_lit_ne | done
        | (rewrite ?no_char_app, ?Henv; reflexivity)
        | (repeat rewrite string_app_cons; reflexivity) ].

(** C11. Every endpoint implements its row of the REST table of spec §6:
    called with the row's argument, its [query] function returns the row's
    method and body, and [fetchBaseQuery] sends it to [baseUrl] followed
    by the row's path with the parameters filled in (for parameters with no
    colon, which [joinUrls] would read as a scheme). *)
Theorem endpoints_refine_spec_table rw env data :
  rw ∈ spec_table → (∀ p, no_char ":" (env p) = true) →
  ∃ ep fa, find_endpoint (rw_endpoint rw) = Some ep ∧
           ep_query ep (rw_arg rw env data) = inr fa ∧
           fa_method fa = rw_method rw ∧
           fa_body fa = rw_body rw env data ∧
           joinUrls baseUrl (fa_url fa) =
             baseUrl +:+ "/" +:+ withoutLeadingSlash (fill_path env (rw_path rw)).
Proof.
  intros Hin Henv. row_cases Hin;
    (eexists _, _; split_and!; [reflexivity|reflexivity|reflexivity|reflexivity|]);
    (cbn [fa_url fill_path rw_path];
     rewrite joinUrls_baseUrl; [|path_side Henv..]);
    by rewrite ?string_app_nil_r.
Qed.

Definition upload_row : row := Row "upload" FileUpload POST [Lit "/products/upload-file"] data_body data_body.

Definition demo_env : string → string := λ _, "p1".

Lemma endpoints_refine_spec_table_witness :
  upload_row ∈ spec_table ∧ (∀ p, no_char ":" (demo_env p) = true) ∧
  ∃ ep fa, find_endpoint (rw_endpoint upload_row) = Some ep ∧
           ep_query ep (rw_arg upload_row demo_env (JFormData [])) = inr fa ∧
           fa_method fa = rw_method upload_row ∧
           fa_body fa = rw_body upload_row demo_env (JFormData []) ∧
           joinUrls baseUrl (fa_url fa) =
             baseUrl +:+ "/" +:+ withoutLeadingSlash (fill_path demo_env (rw_path upload_row)).
Proof.
  assert (upload_row ∈ spec_table) as Hin
    by (unfold spec_table; elem_of_search).
  assert (∀ p, no_char ":" (demo_env p) = true) as Henv by reflexivity.
  split; [exact Hin|]. split; [exact Henv|].
  exact (endpoints_refine_spec_table upload_row demo_env (JFormData []) Hin Henv).
Defined.

(** ** Which mutation refreshes which query *)

(** The resource of spec §6 an endpoint belongs to. *)
Definition resource_of (n : string) : option resource :=
  rw_resource <$> List.find (λ rw, bool_decide (rw_endpoint rw = n)) spec_table.

(** Two tag lists share a tag. *)
Definition tags_meet (ts us : list string) : bool := existsb (λ t, bool_decide (t ∈ us)) ts.

(** C21. Tag invalidation follows the resources of spec §6 with one
    exception: a mutation's invalidated tags meet a query's provided tags
    exactly when both belong to the same resource, except that the file
    [upload] also refreshes the blog list (it invalidates the blog tag
    ["approveEvent"]); order mutations never refresh product queries and
    the like. *)
Theorem invalidation_by_resource m q :
  m ∈ api_endpoints → q ∈ api_endpoints → ep_kind m = Mutation → ep_kind q = Query →
  tags_meet (ep_invalidates m) (ep_provides q) = true ↔
    (resource_of (ep_name m) = resource_of (ep_name q) ∧ ep_name m ≠ "upload") ∨
    (ep_name m = "upload" ∧ ep_name q = "blog").
Proof.
  intros Hm Hq Hkm Hkq.
  endpoint_cases Hm; try discriminate; endpoint_cases Hq; try discriminate;
    vm_compute; naive_solver.
Qed.

Lemma invalidation_by_resource_witness :
  ProductApi.orderStatus ∈ api_endpoints ∧ ProductApi.allProducts ∈ api_endpoints ∧
  ep_kind ProductApi.orderStatus = Mutation ∧ ep_kind ProductApi.allProducts = Query ∧
  (tags_meet (ep_invalidates ProductApi.orderStatus) (ep_provides ProductApi.allProducts) = true ↔
    (resource_of (ep_name ProductApi.orderStatus) = resource_of (ep_name ProductApi.allProducts) ∧
     ep_name ProductApi.orderStatus ≠ "upload") ∨
    (ep_name ProductApi.orderStatus = "upload" ∧ ep_name ProductApi.allProducts = "blog")).
Proof.
  assert (ProductApi.orderStatus ∈ api_endpoints) as Hm
    by in_api.
  assert (ProductApi.allProducts ∈ api_endpoints) as Hq
    by in_api.
  split_and!; [exact Hm|exact Hq|reflexivity|reflexivity|].
  exact (invalidation_by_resource _ _ Hm Hq eq_refl eq_refl).
Defined.

(** C28. The tags the endpoints use against the [tagTypes] [baseApi]
    declares: every tag used is declared except the blog tag
    ["approveEvent"], and the declared ["transaction"] is used by no
    endpoint. *)
Theorem tags_vs_tagTypes :
  "approveEvent" ∉ tagTypes ∧
  (∀ ep t, ep ∈ api_endpoints → t ∈ (ep_provides ep ++ ep_invalidates ep)%list →
           t ∈ tagTypes ∨ t = "approveEvent") ∧
  (∀ ep, ep ∈ api_endpoints → "transaction" ∉ (ep_provides ep ++ ep_invalidates ep)%list).
Proof.
  split_and!.
  - unfold tagTypes. set_solver.
  - intros ep t Hep Ht. endpoint_cases Hep; unfold tagTypes; simpl in Ht; set_solver.
  - intros ep Hep. endpoint_cases Hep; simpl; set_solver.
Qed.
