(* ===== verification/Cache.v ===== *)
(** * Cache: the tag-invalidated query cache of RTK Query (spec §4.1)

    The cache is not code of this repository: [createApi] in
    [baseApi.ts] configures RTK Query's, and the endpoint modules only
    declare tags.  It is modelled from the contract of spec §4.1 and §5:
    - a cache entry per query key (endpoint name, serialised argument),
      with a status, the last data, the id of the request it waits for,
      and the number of subscribed views;
    - [subscribe]: a view mounting [useXxxQuery(arg)]; a missing entry,
      or a rejected one that never had data, issues a request; a pending
      one, or one fulfilled before, is reused (RTK's [condition]; at most
      one in-flight request per key);
    - [settle]: the response of request [id]; it is applied only to the
      entry still waiting for that id (a dropped entry ignores it);
    - [mutation_settled]: a mutation's settlement; when it is fulfilled,
      and also when it is rejected with a value (an HTTP error returned by
      [fetchBaseQuery]), as RTK's invalidation middleware does for a fixed
      [invalidatesTags] list, every entry whose endpoint provides a tag
      the mutation invalidates is refetched when it has subscribers and
      dropped otherwise (an entry already pending keeps its request in
      flight and is not fetched a second time, so a key never has two
      requests tracked at once); a rejection without a value (the
      [query] function threw) changes nothing.  Spec §4.1 says a failed
      mutation invalidates nothing; the library the code uses does
      otherwise, and the model follows the library.  Invalidation is
      applied at once (RTK's [invalidationBehavior: 'immediately'], the
      default before RTK 2, whose default delays it until no query is
      pending); an entry is chosen by its endpoint's [providesTags], also
      before its first response, where RTK's table of provided tags only
      lists it once a response came;
    - [unsubscribe], [expire] (the unused-data timer) and [resetApiState].
    Requests are recorded in [c_sent] (the network log) and [c_inflight].
    The model is generic in the response data [D] and in the tag table
    (the [TagTable] interface of [Endpoints.v]). *)

From stdpp Require Import base list decidable strings gmap fin_maps options.
From S2P Require Import Prelude Js Endpoints.

(** A query key: the endpoint name and the serialised argument. *)
Abbreviation qkey := (string * string)%type.

Inductive qstatus := Pending | Fulfilled | Rejected.

(** How a mutation's thunk ends: [fulfilled]; [rejected] with the value
    the base query returned ([fetchBaseQuery] returns HTTP and network
    errors as a value); or [rejected] by an exception, as when the
    endpoint's [query] function throws and no request is made. *)
Inductive msettle := MFulfilled | MRejectedWithValue | MRejectedThrown.

(** Whether a settlement invalidates the mutation's tags. *)
Definition invalidates_on (o : msettle) : bool :=
  match o with MFulfilled | MRejectedWithValue => true | MRejectedThrown => false end.

#[export] Instance qstatus_eq_dec : EqDecision qstatus.
Proof. solve_decision. Defined.

Section cache.
  Context `{TagTable} {D : Type}.

Record entry := Entry {
    e_status : qstatus;
    e_data : option D;
    e_req : option nat;
    e_subs : nat
  }.

Record cstate := CState {
    c_entries : gmap qkey entry;
    c_inflight : list (nat * qkey);
    c_next : nat;
    c_sent : list qkey
  }.

Definition cache_init : cstate := CState ∅ [] 0 [].

Definition set_entries (m : gmap qkey entry) (s : cstate) : cstate :=
    CState m (c_inflight s) (c_next s) (c_sent s).

Definition with_subs (n : nat) (e : entry) : entry :=
    Entry (e_status e) (e_data e) (e_req e) n.

  (** Issue request [c_next] for key [k]; the entry waits for it. *)
Definition start_fetch (k : qkey) (e : entry) (s : cstate) : cstate :=
    CState (<[k := Entry Pending (e_data e) (Some (c_next s)) (e_subs e)]> (c_entries s))
           (c_inflight s ++ [(c_next s, k)]) (S (c_next s)) (c_sent s ++ [k]).

  (** RTK's [condition] on a subscription's query: no request for a
      pending entry nor for one fulfilled before ([fulfilledTimeStamp]
      set; here, it holds data, which only a fulfilment gives); a missing
      entry, or a rejected one that never had data, is fetched. *)
Definition subscribe (k : qkey) (s : cstate) : cstate :=
    match c_entries s !! k with
    | None => start_fetch k (Entry Pending None None 1) s
    | Some e =>
        let e' := with_subs (S (e_subs e)) e in
        match e_status e, e_data e with
        | Rejected, None => start_fetch k e' s
        | _, _ => set_entries (<[k := e']> (c_entries s)) s
        end
    end.

Definition unsubscribe (k : qkey) (s : cstate) : cstate :=
    set_entries (alter (λ e, with_subs (pred (e_subs e)) e) k (c_entries s)) s.

Definition expire (k : qkey) (s : cstate) : cstate :=
    match c_entries s !! k with
    | Some e => if decide (e_subs e = 0) then set_entries (delete k (c_entries s)) s else s
    | None => s
    end.

Definition settle_entry (r : option D) (e : entry) : entry :=
    match r with
    | Some d => Entry Fulfilled (Some d) None (e_subs e)
    | None => Entry Rejected (e_data e) None (e_subs e)
    end.

  (** The response [r] ([None] for an error) of request [id] arrives. *)
Definition settle (id : nat) (r : option D) (s : cstate) : cstate :=
    let infl := filter (λ p, p.1 ≠ id) (c_inflight s) in
    match List.find (λ p, bool_decide (p.1 = id)) (c_inflight s) with
    | None => s
    | Some (_, k) =>
        let m := match c_entries s !! k with
                 | Some e => if decide (e_req e = Some id)
                             then <[k := settle_entry r e]> (c_entries s)
                             else c_entries s
                 | None => c_entries s
                 end in
        CState m infl (c_next s) (c_sent s)
    end.

  (** The provided tags of [k]'s endpoint meet the tags [ts]. *)
Definition affected (ts : list string) (k : qkey) : bool :=
    existsb (λ t, bool_decide (t ∈ provides_of k.1)) ts.

Definition invalidate_one (k : qkey) (s : cstate) : cstate :=
    match c_entries s !! k with
    | Some e =>
        if decide (e_subs e = 0) then set_entries (delete k (c_entries s)) s
        else if decide (e_status e = Pending) then s
        else start_fetch k e s
    | None => s
    end.

Definition invalidated_keys (ts : list string) (s : cstate) : list qkey :=
    filter (λ k, affected ts k = true) (map_to_list (c_entries s)).*1.

Definition invalidate (ts : list string) (s : cstate) : cstate :=
    foldl (λ s k, invalidate_one k s) s (invalidated_keys ts s).

  (** A mutation's settlement: RTK's invalidation middleware acts on
      [isFulfilled] and on [isRejectedWithValue] of the mutation thunk,
      with the fixed [invalidatesTags] list either way; a rejection
      without a value (the thunk threw) invalidates nothing. *)
Definition mutation_settled (m : string) (o : msettle) (s : cstate) : cstate :=
    match o with
    | MFulfilled | MRejectedWithValue => invalidate (invalidates_of m) s
    | MRejectedThrown => s
    end.

  (** [api.util.resetApiState()]: the cache is emptied; requests still in
      flight complete against no entry. *)
Definition resetApiState (s : cstate) : cstate := set_entries ∅ s.

End cache.

Arguments cstate : clear implicits.
Arguments entry : clear implicits.

(** ** Lemmas on the operations *)

Section cache_lemmas.
  Context `{TagTable} {D : Type}.
  Implicit Types (s : cstate D) (k : qkey) (e : entry D).

  (** What a view reads of an entry: status, data and subscriber count
      (the request id is bookkeeping). *)
Definition view (o : option (entry D)) : option (qstatus * option D * nat) :=
    (λ e, (e_status e, e_data e, e_subs e)) <$> o.

  (** The effect of invalidation on one entry, as a view reads it. *)
Definition invalidated_view (o : option (entry D)) : option (qstatus * option D * nat) :=
    match o with
    | Some e => if decide (e_subs e = 0) then None else Some (Pending, e_data e, e_subs e)
    | None => None
    end.

  (** Invalidation of this entry issues a request. *)
Definition needs_refetch (o : option (entry D)) : bool :=
    match o with
    | Some e => bool_decide (e_subs e ≠ 0 ∧ e_status e ≠ Pending)
    | None => false
    end.

Lemma start_fetch_lookup_ne k k' e s :
    k ≠ k' → c_entries (start_fetch k e s) !! k' = c_entries s !! k'.
  Proof. intros. by apply lookup_insert_ne. Qed.

Lemma invalidate_one_lookup_ne k k' s :
    k ≠ k' → c_entries (invalidate_one k s) !! k' = c_entries s !! k'.
  Proof.
    intros Hne. unfold invalidate_one.
    destruct (c_entries s !! k) as [e|]; [|done].
    repeat case_decide; simpl; [by apply lookup_delete_ne|done|by apply lookup_insert_ne].
  Qed.

Lemma invalidate_one_view k s :
    view (c_entries (invalidate_one k s) !! k) = invalidated_view (c_entries s !! k).
  Proof.
    unfold invalidate_one, invalidated_view.
    destruct (c_entries s !! k) as [e|] eqn:Ek; [|by rewrite Ek].
    case_decide; simpl; [by rewrite lookup_delete_eq|].
    case_decide as Hp; simpl.
    - rewrite Ek. simpl. by rewrite <- Hp; destruct e.
    - by rewrite lookup_insert_eq.
  Qed.

Lemma invalidate_one_sent k s :
    c_sent (invalidate_one k s) = c_sent s ++ (if needs_refetch (c_entries s !! k) then [k] else []).
  Proof.
    unfold invalidate_one, needs_refetch.
    destruct (c_entries s !! k) as [e|]; simpl; [|by rewrite app_nil_r].
    repeat case_decide; simpl; rewrite ?bool_decide_false, ?bool_decide_true, ?app_nil_r;
      naive_solver.
  Qed.
End cache_lemmas.

Section invalidate_fold.
  Context `{TagTable} {D : Type}.
  Implicit Types (s : cstate D) (k : qkey) (L : list qkey).

  Local Abbreviation fold_inv := (foldl (λ s k, invalidate_one k s)).

Lemma invalidate_fold_notin L s k :
    k ∉ L → c_entries (fold_inv s L) !! k = c_entries s !! k.
  Proof.
    revert s. induction L as [|x L IH]; intros s Hk; [done|]. simpl.
    rewrite IH by set_solver. apply invalidate_one_lookup_ne. set_solver.
  Qed.

Lemma invalidate_fold_in L s k :
    NoDup L → k ∈ L → view (c_entries (fold_inv s L) !! k) = invalidated_view (c_entries s !! k).
  Proof.
    revert s. induction L as [|x L IH]; intros s Hnd Hk; [set_solver|].
    apply NoDup_cons in Hnd as [Hx Hnd]. simpl.
    destruct (decide (k = x)) as [->|Hne].
    - rewrite invalidate_fold_notin by done. apply invalidate_one_view.
    - rewrite IH by (done || set_solver). f_equal. by apply invalidate_one_lookup_ne.
  Qed.

Lemma invalidate_fold_sent L s :
    NoDup L →
    c_sent (fold_inv s L) = c_sent s ++ filter (λ k, needs_refetch (c_entries s !! k) = true) L.
  Proof.
    revert s. induction L as [|x L IH]; intros s Hnd; simpl; [by rewrite app_nil_r|].
    apply NoDup_cons in Hnd as [Hx Hnd].
    rewrite IH, invalidate_one_sent by done. rewrite list.filter_cons, <- app_assoc.
    rewrite (filter_ext_in _ (λ k, needs_refetch (c_entries s !! k) = true)).
    - f_equal. case_decide as Hr; [by rewrite Hr|].
      apply not_true_is_false in Hr. by rewrite Hr.
    - intros y Hy. rewrite invalidate_one_lookup_ne; [done|set_solver].
  Qed.
End invalidate_fold.

Section invalidate_spec.
  Context `{TagTable} {D : Type}.
  Implicit Types (s : cstate D) (k : qkey).

Lemma invalidated_keys_NoDup ts s : NoDup (invalidated_keys ts s).
  Proof. apply NoDup_filter, NoDup_fst_map_to_list. Qed.

Lemma elem_of_invalidated_keys ts s k :
    k ∈ invalidated_keys ts s ↔ affected ts k = true ∧ is_Some (c_entries s !! k).
  Proof.
    unfold invalidated_keys. rewrite list_elem_of_filter, list_elem_of_fmap.
    split.
    - intros [Ha [[k' e] [-> Hin]]]. apply elem_of_map_to_list in Hin. simpl in *. eauto.
    - intros [Ha [e He]]. split; [done|]. exists (k, e). split; [done|].
      by apply elem_of_map_to_list.
  Qed.

Lemma needs_refetch_is_Some (o : option (entry D)) : needs_refetch o = true → is_Some o.
  Proof. destruct o; [eauto|done]. Qed.

  (** The requests an invalidation issues. *)
Lemma invalidate_sent ts s :
    c_sent (invalidate ts s) =
    c_sent s ++ filter (λ k, needs_refetch (c_entries s !! k) = true) (invalidated_keys ts s).
  Proof. apply invalidate_fold_sent, invalidated_keys_NoDup. Qed.

Lemma invalidate_lookup_unaffected ts s k :
    affected ts k = false → c_entries (invalidate ts s) !! k = c_entries s !! k.
  Proof.
    intros Ha. apply invalidate_fold_notin.
    rewrite elem_of_invalidated_keys. intros [? _]. congruence.
  Qed.

  (** Tags that no endpoint provides invalidate nothing. *)
Lemma invalidate_unprovided ts s :
    (∀ n t, t ∈ ts → t ∉ provides_of n) → invalidate ts s = s.
  Proof.
    intros Hts. unfold invalidate, invalidated_keys.
    rewrite filter_all_false; [done|]. intros k _ Hk.
    apply existsb_exists in Hk as (t & Ht%list_elem_of_In & Hp).
    apply bool_decide_eq_true in Hp. by apply (Hts k.1 t).
  Qed.

Lemma mutation_settled_unprovided m o s :
    (∀ n t, t ∈ invalidates_of m → t ∉ provides_of n) → mutation_settled m o s = s.
  Proof. intros Hm. unfold mutation_settled. destruct o; [..|done]; by apply invalidate_unprovided. Qed.

Lemma invalidate_view_affected ts s k :
    affected ts k = true →
    view (c_entries (invalidate ts s) !! k) = invalidated_view (c_entries s !! k).
  Proof.
    intros Ha. destruct (c_entries s !! k) as [e|] eqn:Ek.
    - rewrite <- Ek. apply invalidate_fold_in; [apply invalidated_keys_NoDup|].
      apply elem_of_invalidated_keys. rewrite Ek. eauto.
    - unfold invalidate. rewrite invalidate_fold_notin; [by rewrite Ek|].
      rewrite elem_of_invalidated_keys, Ek. intros [_ []]. done.
  Qed.

Lemma invalidate_occurrences ts s k :
    occurrences k (filter (λ k, needs_refetch (c_entries s !! k) = true) (invalidated_keys ts s)) =
    if affected ts k && needs_refetch (c_entries s !! k) then 1 else 0.
  Proof.
    destruct (affected ts k && needs_refetch (c_entries s !! k)) eqn:E.
    - apply andb_prop in E as [Ha Hr]. apply occurrences_NoDup_in.
      + apply NoDup_filter, invalidated_keys_NoDup.
      + apply list_elem_of_filter. split; [done|].
        apply elem_of_invalidated_keys. split; [done|]. by apply needs_refetch_is_Some.
    - apply occurrences_not_in. rewrite list_elem_of_filter, elem_of_invalidated_keys.
      intros (Hr & Ha & _). by rewrite Ha, Hr in E.
  Qed.
End invalidate_spec.

(** ** The contract of spec §4.1 *)

Section contract.
  Context `{TagTable} {D : Type}.
  Implicit Types (s : cstate D) (k : qkey).

  (** A mutation's settlement, when it is fulfilled or rejected with a
      value: an entry whose provided tags meet the invalidated tags is
      dropped when no view subscribes to it and is otherwise marked
      pending with its data kept, and exactly one request is issued for it
      when it was not already pending; every other entry is untouched and
      no other request is issued.  A rejection without a value changes
      nothing. *)
Theorem mutation_settled_spec m o s k :
    (∃ new, c_sent (mutation_settled m o s) = c_sent s ++ new ∧
       occurrences k new =
         if invalidates_on o && affected (invalidates_of m) k && needs_refetch (c_entries s !! k)
         then 1 else 0) ∧
    (invalidates_on o = true → affected (invalidates_of m) k = true →
       view (c_entries (mutation_settled m o s) !! k) = invalidated_view (c_entries s !! k)) ∧
    (affected (invalidates_of m) k = false →
       c_entries (mutation_settled m o s) !! k = c_entries s !! k) ∧
    (invalidates_on o = false → mutation_settled m o s = s).
  Proof.
    destruct o; simpl.
    1,2: split_and!; [|intros _; apply invalidate_view_affected|apply invalidate_lookup_unaffected|done];
      eexists; split; [apply invalidate_sent|apply invalidate_occurrences].
    split_and!; [|done..]. exists []. by rewrite app_nil_r.
  Qed.

  (** Subscribing to an entry that is pending or fulfilled reuses it. *)
Lemma subscribe_reuse k s e :
    c_entries s !! k = Some e → e_status e ≠ Rejected →
    c_sent (subscribe k s) = c_sent s ∧
    view (c_entries (subscribe k s) !! k) = Some (e_status e, e_data e, S (e_subs e)).
  Proof.
    intros Ek Hst. unfold subscribe. rewrite Ek.
    destruct (e_status e) eqn:Es; [..|done]; simpl;
      rewrite lookup_insert_eq; simpl; by rewrite Es.
  Qed.

Lemma subscribe_iter k s n :
    c_entries s !! k = None →
    c_sent (Nat.iter (S n) (subscribe k) s) = c_sent s ++ [k] ∧
    ∃ e, c_entries (Nat.iter (S n) (subscribe k) s) !! k = Some e ∧
         e_status e = Pending ∧ e_data e = None ∧ e_subs e = S n.
  Proof.
    intros Ek. induction n as [|n [IHs (e & He & Hst & Hd & Hn)]].
    - simpl. unfold subscribe. rewrite Ek. simpl. rewrite lookup_insert_eq. split; eauto 10.
    - rewrite Nat.iter_succ. set (s1 := Nat.iter (S n) (subscribe k) s) in *.
      destruct (subscribe_reuse k s1 e) as [Hs Hv]; [done|by rewrite Hst|].
      split; [by rewrite Hs|].
      unfold view in Hv. destruct (c_entries (subscribe k s1) !! k) as [e'|]; [|done].
      simpl in Hv. injection Hv as H1 H2 H3. exists e'. by rewrite H1, H2, H3, Hst, Hd, Hn.
  Qed.

  (** [n+1] views subscribing to the same query key before any
      response arrives issue one request: the first creates the pending
      entry and the others reuse it. *)
Theorem subscribe_dedup k s n :
    c_entries s !! k = None →
    c_sent (Nat.iter (S n) (subscribe k) s) = c_sent s ++ [k] ∧
    view (c_entries (Nat.iter (S n) (subscribe k) s) !! k) = Some (Pending, None, S n).
  Proof.
    intros Ek. destruct (subscribe_iter k s n Ek) as [Hs (e & He & Hst & Hd & Hn)].
    split; [done|]. rewrite He. simpl. by rewrite Hst, Hd, Hn.
  Qed.
End contract.

(** ** The cache as a state machine *)

Section machine.
  Context `{TagTable} {D : Type}.
  Implicit Types (s : cstate D) (k : qkey) (e : entry D).

  (** The events of spec §5, one step each; a response only arrives for a
      request in flight. *)
Inductive cstep : cstate D → cstate D → Prop :=
    | step_subscribe k s : cstep s (subscribe k s)
    | step_unsubscribe k s : cstep s (unsubscribe k s)
    | step_expire k s : cstep s (expire k s)
    | step_settle id k r s : (id, k) ∈ c_inflight s → cstep s (settle id r s)
    | step_mutation m o s : cstep s (mutation_settled m o s)
    | step_reset s : cstep s (resetApiState s).

Inductive reachable : cstate D → Prop :=
    | reach_init : reachable cache_init
    | reach_step s s' : reachable s → cstep s s' → reachable s'.

  (** Every entry is pending exactly when it waits for a request id, and
      that request is in flight for its key. *)
Definition entries_ok (m : gmap qkey (entry D)) (infl : list (nat * qkey)) : Prop :=
    ∀ k e, m !! k = Some e →
      (e_status e = Pending ↔ is_Some (e_req e)) ∧ ∀ id, e_req e = Some id → (id, k) ∈ infl.

  (** The invariant: request ids in flight are distinct and already
      issued, and the entries are consistent with them. *)
Definition cache_wf (s : cstate D) : Prop :=
    NoDup (c_inflight s).*1 ∧
    (∀ id k, (id, k) ∈ c_inflight s → id < c_next s) ∧
    entries_ok (c_entries s) (c_inflight s).

Lemma entries_ok_weaken m infl infl' :
    entries_ok m infl → infl ⊆ infl' → entries_ok m infl'.
  Proof. intros Hm Hsub k e Hk. specialize (Hm k e Hk). naive_solver. Qed.

Lemma entries_ok_insert m infl k e :
    entries_ok m infl →
    (e_status e = Pending ↔ is_Some (e_req e)) → (∀ id, e_req e = Some id → (id, k) ∈ infl) →
    entries_ok (<[k := e]> m) infl.
  Proof.
    intros Hm He1 He2 k' e'. rewrite lookup_insert.
    case_decide; [subst; intros; simplify_eq; auto|apply Hm].
  Qed.

Lemma entries_ok_delete m infl k : entries_ok m infl → entries_ok (delete k m) infl.
  Proof. intros Hm k' e'. rewrite lookup_delete. case_decide; [done|apply Hm]. Qed.

Lemma entries_ok_empty infl : entries_ok ∅ infl.
  Proof. intros k e. by rewrite lookup_empty. Qed.

Lemma set_entries_wf m s :
    cache_wf s → entries_ok m (c_inflight s) → cache_wf (set_entries m s).
  Proof. intros (? & ? & ?) Hm. by split_and!. Qed.

Lemma start_fetch_wf k e s : cache_wf s → cache_wf (start_fetch k e s).
  Proof.
    intros (Hnd & Hlt & Hm). split_and!; simpl.
    - rewrite fmap_app. apply NoDup_app. split_and!; [done| |apply NoDup_singleton].
      intros i Hi Hi'. apply list_elem_of_singleton in Hi'; subst.
      apply list_elem_of_fmap in Hi as [[i' k'] [Heq Hin]]. simpl in Heq; subst.
      specialize (Hlt _ _ Hin). lia.
    - intros id k' [Hin | [= -> ->]%list_elem_of_singleton]%elem_of_app; [|lia].
      specialize (Hlt _ _ Hin). lia.
    - apply entries_ok_insert.
      + eapply entries_ok_weaken; [done|set_solver].
      + simpl. split; eauto.
      + intros id [= <-]. set_solver.
  Qed.
End machine.

(** [s ⇝ s']: one event of the cache. *)
Infix "⇝" := cstep (at level 70) : dash_scope.
Local Open Scope dash_scope.

Section machine_wf.
  Context `{TagTable} {D : Type}.
  Implicit Types (s : cstate D) (k : qkey) (e : entry D).

Lemma entries_ok_lookup m infl k e :
    entries_ok m infl → m !! k = Some e →
    (e_status e = Pending ↔ is_Some (e_req e)) ∧ ∀ id, e_req e = Some id → (id, k) ∈ infl.
  Proof. intros Hm Hk. by apply Hm. Qed.

Lemma subscribe_wf k s : cache_wf s → cache_wf (subscribe k s).
  Proof.
    intros Hwf. unfold subscribe.
    destruct (c_entries s !! k) as [e|] eqn:Ek; [|by apply start_fetch_wf].
    destruct (e_status e) eqn:Es, (e_data e) eqn:Ed; try by apply start_fetch_wf.
    all: apply set_entries_wf; [done|]; destruct Hwf as (_ & _ & Hm).
    all: apply entries_ok_insert; [done|apply (entries_ok_lookup _ _ _ _ Hm Ek)..].
  Qed.

Lemma unsubscribe_wf k s : cache_wf s → cache_wf (unsubscribe k s).
  Proof.
    intros Hwf. apply set_entries_wf; [done|]. destruct Hwf as (_ & _ & Hm).
    intros k' e'. rewrite lookup_alter. case_decide; [subst|apply Hm].
    destruct (c_entries s !! k') as [e|] eqn:Ek; intros Hx; simpl in Hx; [|done].
    injection Hx as <-. apply (entries_ok_lookup _ _ _ _ Hm Ek).
  Qed.

Lemma expire_wf k s : cache_wf s → cache_wf (expire k s).
  Proof.
    intros Hwf. unfold expire. destruct (c_entries s !! k); [|done].
    case_decide; [|done]. apply set_entries_wf; [done|].
    apply entries_ok_delete. apply Hwf.
  Qed.

Lemma reset_wf s : cache_wf s → cache_wf (resetApiState s).
  Proof. intros Hwf. apply set_entries_wf; [done|apply entries_ok_empty]. Qed.

Lemma invalidate_one_wf k s : cache_wf s → cache_wf (invalidate_one k s).
  Proof.
    intros Hwf. unfold invalidate_one. destruct (c_entries s !! k); [|done].
    case_decide; [|case_decide; [done|by apply start_fetch_wf]].
    apply set_entries_wf; [done|]. apply entries_ok_delete. apply Hwf.
  Qed.

Lemma mutation_settled_wf m o s : cache_wf s → cache_wf (mutation_settled m o s).
  Proof.
    intros Hwf. unfold mutation_settled, invalidate. destruct o; [..|done];
      (apply foldl_invariant; [|done]); intros s' k _; apply invalidate_one_wf.
  Qed.
End machine_wf.

Section settle_wf.
  Context `{TagTable} {D : Type}.
  Implicit Types (s : cstate D) (k : qkey) (e : entry D).

Lemma entries_ok_filter_id m infl id :
    entries_ok m infl → (∀ k e, m !! k = Some e → e_req e ≠ Some id) →
    entries_ok m (filter (λ p, p.1 ≠ id) infl).
  Proof.
    intros Hm Hno k e Hk. destruct (Hm k e Hk) as [Hst Hin]. split; [done|].
    intros id' Hid. apply list_elem_of_filter. split; [|by apply Hin].
    simpl. intros ->. by apply (Hno k e).
  Qed.

  (** Only the entry of key [k] can wait for request [id] when [(id, k)] is
      in flight. *)
Lemma waiting_for_unique s id k k' e :
    cache_wf s → (id, k) ∈ c_inflight s →
    c_entries s !! k' = Some e → e_req e = Some id → k' = k.
  Proof.
    intros (Hnd & _ & Hm) Hin Hk' Hreq.
    destruct (Hm k' e Hk') as [_ Hin']. specialize (Hin' id Hreq).
    eapply NoDup_fst_unique; eauto.
  Qed.

Lemma settle_entry_settled r e :
    (e_status (settle_entry r e) = Pending ↔ is_Some (e_req (settle_entry r e))) ∧
    e_req (settle_entry r e) = None.
  Proof. destruct r; simpl; (split; [split; [done|intros [? ?]; done]|done]). Qed.

Lemma settle_wf id r s : cache_wf s → cache_wf (settle id r s).
  Proof.
    intros Hwf. unfold settle.
    destruct (List.find _ _) as [[id' k]|] eqn:Hf; [|done].
    apply find_some in Hf as [Hin Hb]. apply bool_decide_eq_true in Hb. simpl in Hb; subst id'.
    apply list_elem_of_In in Hin.
    pose proof Hwf as (Hnd & Hlt & Hm).
    split_and!; simpl.
    - by apply NoDup_fst_filter.
    - intros id'' k'' [_ Hin'']%list_elem_of_filter. by apply (Hlt id'' k'').
    - apply entries_ok_filter_id.
      + destruct (c_entries s !! k) as [e|]; [|done]. case_decide; [|done].
        apply entries_ok_insert; [done|apply settle_entry_settled|].
        intros ?. by rewrite (proj2 (settle_entry_settled r e)).
      + intros k'' e''. destruct (c_entries s !! k) as [e|] eqn:Ek;
          [case_decide as Hreq|]; [rewrite lookup_insert; case_decide|..];
          intros Hk'' Hreq''; simplify_eq.
        * by rewrite (proj2 (settle_entry_settled r e)) in Hreq''.
        * destruct H0. symmetry. by apply (waiting_for_unique s id k k'' e'').
        * assert (k'' = k) as -> by (by apply (waiting_for_unique s id k k'' e'')).
          congruence.
        * assert (k'' = k) as -> by (by apply (waiting_for_unique s id k k'' e'')).
          congruence.
  Qed.

  (** The response to the request an entry waits for settles it. *)
Lemma settle_waiting s k e id r :
    cache_wf s → c_entries s !! k = Some e → e_req e = Some id →
    c_entries (settle id r s) !! k = Some (settle_entry r e).
  Proof.
    intros Hwf Hk Hreq. pose proof Hwf as (Hnd & _ & Hm).
    destruct (Hm k e Hk) as [_ Hin]. specialize (Hin id Hreq).
    unfold settle. destruct (List.find _ _) as [[id' k']|] eqn:Hf.
    - apply find_some in Hf as [Hin'%list_elem_of_In Hb%bool_decide_eq_true].
      simpl in Hb. subst id'.
      assert (k' = k) as -> by (eapply NoDup_fst_unique; eauto).
      simpl. rewrite Hk, decide_True by done. by rewrite lookup_insert_eq.
    - apply list_elem_of_In in Hin. eapply find_none in Hf; [|exact Hin].
      simpl in Hf. by rewrite bool_decide_true in Hf.
  Qed.

  (** A response leaves alone every entry that does not wait for it. *)
Lemma settle_lookup_other s k e id r :
    c_entries s !! k = Some e → e_req e ≠ Some id → c_entries (settle id r s) !! k = Some e.
  Proof.
    intros Hk Hreq. unfold settle. destruct (List.find _ _) as [[id' k']|]; [|done]. simpl.
    destruct (c_entries s !! k') as [e'|] eqn:Hk'; [|done]. case_decide as Hw; [|done].
    rewrite lookup_insert_ne; [done|]. intros ->. congruence.
  Qed.

  (** The response to the request just issued for [k] settles [k]. *)
Lemma settle_start_fetch k e r s :
    cache_wf s →
    c_entries (settle (c_next s) r (start_fetch k e s)) !! k =
      Some (settle_entry r (Entry Pending (e_data e) (Some (c_next s)) (e_subs e))).
  Proof.
    intros (_ & Hlt & _). unfold settle, start_fetch. simpl. rewrite find_app.
    destruct (List.find _ (c_inflight s)) as [[id k']|] eqn:Hf.
    - apply find_some in Hf as [Hin%list_elem_of_In Hb%bool_decide_eq_true].
      simpl in Hb. subst id. specialize (Hlt _ _ Hin). lia.
    - simpl. rewrite bool_decide_true by done. rewrite lookup_insert_eq. simpl.
      rewrite decide_True by done. by rewrite lookup_insert_eq.
  Qed.

End settle_wf.

#[export] Hint Resolve subscribe_wf unsubscribe_wf expire_wf settle_wf mutation_settled_wf
  reset_wf : dash.

Section reachable_wf.
  Context `{TagTable} {D : Type}.
  Implicit Types (s : cstate D).

Lemma cache_init_wf : cache_wf (@cache_init D).
  Proof. split_and!; [constructor|set_solver|apply entries_ok_empty]. Qed.

Lemma cstep_wf s s' : s ⇝ s' → cache_wf s → cache_wf s'.
  Proof. destruct 1; eauto with dash. Qed.

  (** In every reachable cache state, request ids in flight are
      distinct and already issued, an entry is pending exactly when it
      waits for a request, and that request is in flight for its key: a
      key never has two requests tracked at once. *)
Theorem reachable_wf s : reachable s → cache_wf s.
  Proof.
    induction 1 as [|s s' _ IH Hstep].
    - apply cache_init_wf.
    - by apply (cstep_wf s).
  Qed.
End reachable_wf.

(** ** Which keys an operation can add *)

Section keys.
  Context `{TagTable} {D : Type}.
  Implicit Types (s : cstate D) (k : qkey).

  (** The keys of [s'] are keys of [s]. *)
Definition keys_within (s s' : cstate D) : Prop :=
    ∀ k, is_Some (c_entries s' !! k) → is_Some (c_entries s !! k).

Lemma keys_within_refl s : keys_within s s.
  Proof. by intros k. Qed.

Lemma unsubscribe_keys k s : keys_within s (unsubscribe k s).
  Proof.
    intros k'. simpl. rewrite lookup_alter.
    case_decide; [subst; by intros [? [? [-> _]]%fmap_Some]|done].
  Qed.

Lemma expire_keys k s : keys_within s (expire k s).
  Proof.
    intros k'. unfold expire. destruct (c_entries s !! k) eqn:Ek; [|done].
    case_decide; [|done]. simpl. rewrite lookup_delete. by case_decide.
  Qed.

Lemma settle_keys id r s : keys_within s (settle id r s).
  Proof.
    intros k'. unfold settle. destruct (List.find _ _) as [[? k]|]; [|done]. simpl.
    destruct (c_entries s !! k) eqn:Ek; [|done]. case_decide; [|done].
    rewrite lookup_insert. case_decide; [subst; by rewrite Ek|done].
  Qed.

Lemma invalidate_one_keys k s : keys_within s (invalidate_one k s).
  Proof.
    intros k'. unfold invalidate_one. destruct (c_entries s !! k) eqn:Ek; [|done].
    case_decide; [simpl; rewrite lookup_delete; by case_decide|].
    case_decide; [done|]. simpl. rewrite lookup_insert.
    case_decide; [subst; by rewrite Ek|done].
  Qed.

Lemma mutation_settled_keys m o s : keys_within s (mutation_settled m o s).
  Proof.
    unfold mutation_settled, invalidate. destruct o; [..|apply keys_within_refl];
      (apply (foldl_invariant (keys_within s)); [|apply keys_within_refl]);
      intros s' k _ Hs' k' Hk'; by apply Hs', (invalidate_one_keys k).
  Qed.

Lemma reset_keys s : keys_within s (resetApiState s).
  Proof. intros k'. simpl. by rewrite lookup_empty. Qed.

Lemma subscribe_keys k s k' :
    is_Some (c_entries (subscribe k s) !! k') → k' = k ∨ is_Some (c_entries s !! k').
  Proof.
    unfold subscribe. destruct (c_entries s !! k) eqn:Ek; [destruct (e_status e), (e_data e)|];
      simpl; rewrite lookup_insert; case_decide; auto.
  Qed.
End keys.

#[export] Hint Resolve unsubscribe_keys expire_keys settle_keys mutation_settled_keys
  reset_keys : dash.
