(* ===== verification/App.v ===== *)
(** * App: the endpoints, the transport and the cache composed

    A component calls a generated hook: [useXxxQuery(arg)] subscribes the
    query key [(endpointName, serializeQueryArgs(arg))], and a request
    issued for it is built by the endpoint's [query(arg)] and by
    [fetchBaseQuery] (the [Authorization] header read from the cookie jar
    at that moment); [const [fn] = useXxxMutation(); await fn(arg)] sends
    the mutation's request and, when the response is observed, settles it
    and invalidates, on success and on an HTTP error alike ([sent_outcome]:
    fetchBaseQuery returns the error as a value, and RTK invalidates on
    [rejectedWithValue]); a [query] that throws sends nothing and
    invalidates nothing.  [app] holds the cache, the cookie jar, the argument
    each key was subscribed with, and the log of HTTP requests sent. *)

From stdpp Require Import base list decidable strings gmap fin_maps options.
From S2P Require Import Prelude Js Transport Endpoints Cache.

Local Open Scope dash_scope.



Record app := App {
  a_cache : cstate jsval;
  a_jar : gmap string string;
  a_args : gmap qkey jsval;
  a_log : list request
}.

Definition app_init (jar : gmap string string) : app := App cache_init jar ∅ [].

Definition query_key (ep : endpoint_def) (arg : jsval) : qkey :=
  (ep_name ep, serializeQueryArgs arg).

(** The request a query key is fetched with: [None] when its [query]
    function throws (RTK rejects the query without a request). *)
Definition request_of (jar : gmap string string) (args : gmap qkey jsval) (k : qkey)
    : option request :=
  ep ← find_endpoint k.1; arg ← args !! k;
  match ep_query ep arg with
  | inr fa => Some (fetchBaseQuery jar fa)
  | inl _ => None
  end.

(** The requests for the keys a cache operation has just issued. *)
Definition issued (before after : cstate jsval) : list qkey :=
  drop (length (c_sent before)) (c_sent after).

Definition log_issued (jar : gmap string string) (args : gmap qkey jsval)
    (before after : cstate jsval) : list request :=
  omap (request_of jar args) (issued before after).

(** Run a cache operation and send the requests it issues. *)
Definition with_cache (f : cstate jsval → cstate jsval) (st : app) : app :=
  let c' := f (a_cache st) in
  App c' (a_jar st) (a_args st) (a_log st ++ log_issued (a_jar st) (a_args st) (a_cache st) c').

Definition app_respond (id : nat) (r : option jsval) (st : app) : app :=
  with_cache (settle id r) st.

(** [useXxxQuery(arg)] mounts.  When its [query] function throws, the
    request id just issued is rejected at once and nothing is sent. *)
Definition app_mount (ep : endpoint_def) (arg : jsval) (st : app) : app :=
  let k := query_key ep arg in
  let st1 := with_cache (subscribe k)
               (App (a_cache st) (a_jar st) (<[k := arg]> (a_args st)) (a_log st)) in
  match ep_query ep arg with
  | inl _ => app_respond (c_next (a_cache st)) None st1
  | inr _ => st1
  end.

Definition app_unmount (ep : endpoint_def) (arg : jsval) (st : app) : app :=
  with_cache (unsubscribe (query_key ep arg)) st.

(** How a mutation whose request was sent settles: fulfilled when the
    server answered with success ([ok]), rejected with the error value
    [fetchBaseQuery] returns otherwise. *)
Definition sent_outcome (ok : bool) : msettle := if ok then MFulfilled else MRejectedWithValue.

(** [await fn(arg)] for a mutation endpoint: its request is sent and the
    server's answer [ok] settles it; when its [query] throws, no request
    is made and the thunk is rejected without a value. *)
Definition app_mutate (ep : endpoint_def) (arg : jsval) (ok : bool) (st : app) : app :=
  match ep_query ep arg with
  | inr fa =>
      let st1 := App (a_cache st) (a_jar st) (a_args st)
                     (a_log st ++ [fetchBaseQuery (a_jar st) fa]) in
      with_cache (mutation_settled (ep_name ep) (sent_outcome ok)) st1
  | inl _ => with_cache (mutation_settled (ep_name ep) MRejectedThrown) st
  end.

Definition app_set_cookie (name v : string) (st : app) : app :=
  App (a_cache st) (<[name := v]> (a_jar st)) (a_args st) (a_log st).

(** [Cookies.remove(name)]. *)
Definition app_remove_cookie (name : string) (st : app) : app :=
  App (a_cache st) (delete name (a_jar st)) (a_args st) (a_log st).

Definition app_reset (st : app) : app := with_cache resetApiState st.

(** ** The endpoint table, decided *)

Lemma invalidates_of_in ep : ep ∈ api_endpoints → invalidates_of (ep_name ep) = ep_invalidates ep.
Proof. intros H. simpl. by rewrite find_endpoint_in. Qed.

Lemma provides_of_in ep : ep ∈ api_endpoints → provides_of (ep_name ep) = ep_provides ep.
Proof. intros H. simpl. by rewrite find_endpoint_in. Qed.

(** ** Lemmas on the composition *)

Lemma issued_app (c c' : cstate jsval) new :
  c_sent c' = c_sent c ++ new → issued c c' = new.
Proof. intros Heq. unfold issued. by rewrite Heq, drop_app_length. Qed.

Lemma with_cache_log f st new :
  c_sent (f (a_cache st)) = c_sent (a_cache st) ++ new →
  a_log (with_cache f st) = a_log st ++ omap (request_of (a_jar st) (a_args st)) new.
Proof. intros Heq. simpl. unfold log_issued. by rewrite (issued_app _ _ new Heq). Qed.

Lemma with_cache_noop f st : f (a_cache st) = a_cache st → with_cache f st = st.
Proof.
  intros Hf. destruct st as [c jar args log]. unfold with_cache, log_issued, issued. simpl in *.
  by rewrite Hf, drop_all, app_nil_r.
Qed.

(** ** Mutations of the application *)

(** The cache after a mutation whose [query] builds, and the requests
    sent: the mutation's own, then the refetches the cache issues. *)
Lemma app_mutate_built ep arg ok st fa :
  ep_query ep arg = inr fa →
  a_cache (app_mutate ep arg ok st) = mutation_settled (ep_name ep) (sent_outcome ok) (a_cache st) ∧
  ∀ new, c_sent (mutation_settled (ep_name ep) (sent_outcome ok) (a_cache st)) = c_sent (a_cache st) ++ new →
    a_log (app_mutate ep arg ok st) =
      a_log st ++ fetchBaseQuery (a_jar st) fa :: omap (request_of (a_jar st) (a_args st)) new.
Proof.
  intros Hq. unfold app_mutate. rewrite Hq. split; [done|].
  intros new Hsent. erewrite with_cache_log; [|exact Hsent]. simpl. by rewrite <- app_assoc.
Qed.

(** A mutation whose [query] throws sends nothing and changes nothing. *)
Lemma app_mutate_thrown ep arg ok st e :
  ep_query ep arg = inl e → app_mutate ep arg ok st = st.
Proof. intros Hq. unfold app_mutate. rewrite Hq. apply with_cache_noop. done. Qed.

(** C1. A mutation endpoint of the application, called with an argument its
    [query] accepts: one request for the mutation is sent, then one request
    per query key the settlement makes the cache refetch (exactly one for
    each subscribed, non-pending key whose endpoint provides a tag the
    mutation invalidates, none for any other key), each built from the
    argument the key was subscribed with; an invalidated key with no
    subscriber is dropped and a subscribed one becomes pending with its
    data kept; a key whose tags do not meet the mutation's is untouched.
    All of this holds whether the server answers with success or with an
    error: RTK invalidates on a rejection carrying [fetchBaseQuery]'s error
    value as on a fulfilment, so the cache after a failed mutation is the
    cache after a successful one. *)
Theorem app_mutate_spec ep arg ok st fa k :
  ep ∈ api_endpoints → ep_kind ep = Mutation → ep_query ep arg = inr fa →
  let st' := app_mutate ep arg ok st in
  a_cache (app_mutate ep arg false st) = a_cache (app_mutate ep arg true st) ∧
  (∃ new, a_log st' = a_log st ++ fetchBaseQuery (a_jar st) fa ::
                        omap (request_of (a_jar st) (a_args st)) new ∧
     occurrences k new =
       if affected (ep_invalidates ep) k && needs_refetch (c_entries (a_cache st) !! k)
       then 1 else 0) ∧
  (affected (ep_invalidates ep) k = true →
     view (c_entries (a_cache st') !! k) = invalidated_view (c_entries (a_cache st) !! k)) ∧
  (affected (ep_invalidates ep) k = false →
     c_entries (a_cache st') !! k = c_entries (a_cache st) !! k).
Proof.
  intros Hin _ Hq st'. destruct (app_mutate_built ep arg ok st fa Hq) as [Hc Hlog].
  subst st'. rewrite Hc, <- (invalidates_of_in ep Hin).
  destruct (mutation_settled_spec (ep_name ep) (sent_outcome ok) (a_cache st) k)
    as ([new [Hsent Hocc]] & Hview & Hkeep & _).
  assert (invalidates_on (sent_outcome ok) = true) as Hon by (by destruct ok).
  split_and!.
  - by rewrite (proj1 (app_mutate_built ep arg false st fa Hq)),
               (proj1 (app_mutate_built ep arg true st fa Hq)).
  - exists new. split; [by apply Hlog|]. by rewrite Hocc, Hon.
  - by apply Hview.
  - done.
Qed.

(** A session: the cookie ["accessToken"] holds ["tok"]. *)
Definition demo_jar : gmap string string := {[ "accessToken"%string := "tok"%string ]}.

(** The product list is mounted and its response has arrived. *)
Definition demo_products : app :=
  app_respond 0 (Some (JArr [])) (app_mount ProductApi.allProducts (JObj []) (app_init demo_jar)).

Definition demo_product_form : jsval := JFormData [("bodyData"%string, FVJson (JObj []))].

Lemma app_mutate_spec_witness :
  let st' := app_mutate ProductApi.addProduct demo_product_form false demo_products in
  a_cache (app_mutate ProductApi.addProduct demo_product_form false demo_products) =
    a_cache (app_mutate ProductApi.addProduct demo_product_form true demo_products) ∧
  (∃ new, a_log st' = a_log demo_products ++
            fetchBaseQuery (a_jar demo_products) (FetchArgs "/products" POST demo_product_form) ::
            omap (request_of (a_jar demo_products) (a_args demo_products)) new ∧
     occurrences (query_key ProductApi.allProducts (JObj [])) new =
       if affected (ep_invalidates ProductApi.addProduct) (query_key ProductApi.allProducts (JObj []))
          && needs_refetch (c_entries (a_cache demo_products) !! query_key ProductApi.allProducts (JObj []))
       then 1 else 0) ∧
  (affected (ep_invalidates ProductApi.addProduct) (query_key ProductApi.allProducts (JObj [])) = true →
     view (c_entries (a_cache st') !! query_key ProductApi.allProducts (JObj [])) =
     invalidated_view (c_entries (a_cache demo_products) !! query_key ProductApi.allProducts (JObj []))) ∧
  (affected (ep_invalidates ProductApi.addProduct) (query_key ProductApi.allProducts (JObj [])) = false →
     c_entries (a_cache st') !! query_key ProductApi.allProducts (JObj []) =
     c_entries (a_cache demo_products) !! query_key ProductApi.allProducts (JObj [])).
Proof. apply app_mutate_spec; [in_api|reflexivity|reflexivity]. Defined.

(** ** Subscriptions of the application *)

Lemma request_of_key jar args ep arg fa :
  ep ∈ api_endpoints → ep_query ep arg = inr fa →
  request_of jar (<[query_key ep arg := arg]> args) (query_key ep arg) = Some (fetchBaseQuery jar fa).
Proof.
  intros Hin Hq. unfold request_of. simpl. rewrite find_endpoint_in by done. simpl.
  rewrite lookup_insert_eq. simpl. by rewrite Hq.
Qed.

Lemma app_mount_ok ep arg st fa :
  ep_query ep arg = inr fa →
  app_mount ep arg st =
  with_cache (subscribe (query_key ep arg))
    (App (a_cache st) (a_jar st) (<[query_key ep arg := arg]> (a_args st)) (a_log st)).
Proof. intros Hq. unfold app_mount. by rewrite Hq. Qed.

Lemma app_mount_iter ep arg st fa n :
  ep ∈ api_endpoints → ep_query ep arg = inr fa →
  c_entries (a_cache st) !! query_key ep arg = None →
  let st' := Nat.iter (S n) (app_mount ep arg) st in
  a_cache st' = Nat.iter (S n) (subscribe (query_key ep arg)) (a_cache st) ∧
  a_jar st' = a_jar st ∧ a_args st' = <[query_key ep arg := arg]> (a_args st) ∧
  a_log st' = a_log st ++ [fetchBaseQuery (a_jar st) fa].
Proof.
  intros Hin Hq Hk. induction n as [|n (Hc & Hj & Ha & Hl)].
  - simpl. rewrite (app_mount_ok _ _ _ fa) by done. split_and!; [done..|].
    erewrite with_cache_log; [|simpl; unfold subscribe; rewrite Hk; done].
    simpl. by rewrite (request_of_key _ _ ep arg fa).
  - rewrite Nat.iter_succ. set (s1 := Nat.iter (S n) (app_mount ep arg) st) in *.
    rewrite (app_mount_ok _ _ s1 fa) by done.
    destruct (subscribe_iter (query_key ep arg) (a_cache st) n Hk) as [_ (e & He & Hst & _)].
    set (c1 := Nat.iter (S n) (subscribe (query_key ep arg)) (a_cache st)) in *.
    destruct (subscribe_reuse (query_key ep arg) c1 e) as [Hs _]; [done|by rewrite Hst|].
    split_and!; [simpl; by rewrite Hc|done|simpl; rewrite Ha; by rewrite insert_insert_eq|].
    erewrite with_cache_log; [|simpl; rewrite Hc, Hs; symmetry; apply app_nil_r].
    by rewrite Hl, app_nil_r.
Qed.

(** Mounting a query whose key is not cached issues its request. *)
Lemma app_mount_fresh ep arg st fa :
  ep ∈ api_endpoints → ep_query ep arg = inr fa →
  c_entries (a_cache st) !! query_key ep arg = None →
  a_cache (app_mount ep arg st) = start_fetch (query_key ep arg) (Entry Pending None None 1) (a_cache st) ∧
  a_jar (app_mount ep arg st) = a_jar st ∧
  a_log (app_mount ep arg st) = a_log st ++ [fetchBaseQuery (a_jar st) fa].
Proof.
  intros Hin Hq Hk. destruct (app_mount_iter ep arg st fa 0 Hin Hq Hk) as (Hc & Hj & _ & Hl).
  split_and!; [|done|done]. simpl in Hc. rewrite Hc. unfold subscribe. by rewrite Hk.
Qed.

(** C3. Any number of views mounting the same query endpoint with the
    same argument before its response arrives send one HTTP request,
    built from that argument and the session cookie, and share one
    pending cache entry with one subscriber per view. *)
Theorem app_mount_dedup ep arg st fa n :
  ep ∈ api_endpoints → ep_query ep arg = inr fa →
  c_entries (a_cache st) !! query_key ep arg = None →
  let st' := Nat.iter (S n) (app_mount ep arg) st in
  a_log st' = a_log st ++ [fetchBaseQuery (a_jar st) fa] ∧
  view (c_entries (a_cache st') !! query_key ep arg) = Some (Pending, None, S n).
Proof.
  intros Hin Hq Hk. destruct (app_mount_iter ep arg st fa n Hin Hq Hk) as (Hc & _ & _ & Hl).
  split; [done|]. rewrite Hc. by apply subscribe_dedup.
Qed.

Lemma app_mount_dedup_witness :
  let st' := Nat.iter 2 (app_mount ProductApi.allProducts (JObj [])) (app_init demo_jar) in
  a_log st' = a_log (app_init demo_jar) ++
              [fetchBaseQuery (a_jar (app_init demo_jar)) (FetchArgs "/products" GET JUndefined)] ∧
  view (c_entries (a_cache st') !! query_key ProductApi.allProducts (JObj [])) = Some (Pending, None, 2).
Proof. apply (app_mount_dedup _ _ _ _ 1); [in_api|reflexivity|reflexivity]. Defined.

(** Two argument objects listing the same keys in another order have one
    cache key. *)
Lemma query_key_perm ep fs gs :
  NoDup fs.*1 → fs ≡ₚ gs → query_key ep (JObj gs) = query_key ep (JObj fs).
Proof. intros Hnd Hp. unfold query_key, serializeQueryArgs. by rewrite (json_stringify_perm fs gs). Qed.

(** C19. Identical queries are deduplicated even when their argument
    objects list the same parameters in different orders (the cache key
    serialises an object with its keys sorted): a view mounting [ep] with
    [{page, limit}] and another with [{limit, page}] before the response
    share one pending entry and one HTTP request. *)
Theorem reordered_args_share_request ep fs gs st fa ga :
  ep ∈ api_endpoints → NoDup fs.*1 → fs ≡ₚ gs →
  ep_query ep (JObj fs) = inr fa → ep_query ep (JObj gs) = inr ga →
  c_entries (a_cache st) !! query_key ep (JObj fs) = None →
  let st' := app_mount ep (JObj gs) (app_mount ep (JObj fs) st) in
  a_log st' = a_log st ++ [fetchBaseQuery (a_jar st) fa] ∧
  view (c_entries (a_cache st') !! query_key ep (JObj gs)) = Some (Pending, None, 2).
Proof.
  intros Hin Hnd Hp Hf Hg Hk st'. subst st'.
  rewrite (query_key_perm ep fs gs Hnd Hp).
  destruct (app_mount_fresh ep (JObj fs) st fa Hin Hf Hk) as (Hc & Hj & Hl).
  set (st1 := app_mount ep (JObj fs) st) in *.
  assert (c_entries (a_cache st1) !! query_key ep (JObj fs) = Some (Entry Pending None (Some (c_next (a_cache st))) 1))
    as He1 by (rewrite Hc; simpl; by rewrite lookup_insert_eq).
  destruct (subscribe_reuse (query_key ep (JObj fs)) (a_cache st1) _ He1) as [Hs Hv]; [done|].
  rewrite (app_mount_ok _ _ _ ga Hg), (query_key_perm ep fs gs Hnd Hp).
  split.
  - erewrite with_cache_log; [|simpl; rewrite Hs; symmetry; apply app_nil_r].
    by rewrite app_nil_r, Hl, Hj.
  - simpl. by rewrite Hv.
Qed.

Definition page_args : list (string * jsval) :=
  [("page", JNum (QArith_base.inject_Z 1)); ("limit", JNum (QArith_base.inject_Z 10))].

Lemma reordered_args_share_request_witness :
  UserApi.allUsers ∈ api_endpoints ∧ NoDup page_args.*1 ∧ page_args ≡ₚ reverse page_args ∧
  ep_query UserApi.allUsers (JObj page_args) =
    inr (FetchArgs "/users?page=1&limit=10&email=undefined" GET JUndefined) ∧
  ep_query UserApi.allUsers (JObj (reverse page_args)) =
    inr (FetchArgs "/users?page=1&limit=10&email=undefined" GET JUndefined) ∧
  c_entries (a_cache (app_init demo_jar)) !! query_key UserApi.allUsers (JObj page_args) = None ∧
  let st' := app_mount UserApi.allUsers (JObj (reverse page_args))
               (app_mount UserApi.allUsers (JObj page_args) (app_init demo_jar)) in
  a_log st' = a_log (app_init demo_jar) ++
              [fetchBaseQuery (a_jar (app_init demo_jar))
                 (FetchArgs "/users?page=1&limit=10&email=undefined" GET JUndefined)] ∧
  view (c_entries (a_cache st') !! query_key UserApi.allUsers (JObj (reverse page_args))) =
    Some (Pending, None, 2).
Proof.
  assert (UserApi.allUsers ∈ api_endpoints) as Hin by in_api.
  assert (NoDup page_args.*1) as Hnd by (apply (bool_decide_unpack _); vm_compute; reflexivity).
  assert (page_args ≡ₚ reverse page_args) as Hp by (symmetry; apply reverse_Permutation).
  assert (ep_query UserApi.allUsers (JObj page_args) =
            inr (FetchArgs "/users?page=1&limit=10&email=undefined" GET JUndefined)) as Hf
    by reflexivity.
  assert (ep_query UserApi.allUsers (JObj (reverse page_args)) =
            inr (FetchArgs "/users?page=1&limit=10&email=undefined" GET JUndefined)) as Hg
    by reflexivity.
  assert (c_entries (a_cache (app_init demo_jar)) !! query_key UserApi.allUsers (JObj page_args) = None)
    as Hk by apply lookup_empty.
  split_and!; [exact Hin|exact Hnd|exact Hp|exact Hf|exact Hg|exact Hk|].
  exact (reordered_args_share_request _ _ _ _ _ _ Hin Hnd Hp Hf Hg Hk).
Defined.

(** ** The application as a state machine *)

Reserved Notation "st ⟶ st'" (at level 70).

(** The events of a session: a view mounts or unmounts a query, an unused
    entry expires, a response arrives for a request in flight, a mutation
    is called and its response observed, a cookie is set or removed, the
    API state is reset. *)
Inductive app_step : app → app → Prop :=
  | as_mount ep arg st :
      ep ∈ api_endpoints → ep_kind ep = Query → st ⟶ app_mount ep arg st
  | as_unmount ep arg st : st ⟶ app_unmount ep arg st
  | as_expire k st : st ⟶ with_cache (expire k) st
  | as_respond id k r st : (id, k) ∈ c_inflight (a_cache st) → st ⟶ app_respond id r st
  | as_mutate ep arg ok st :
      ep ∈ api_endpoints → ep_kind ep = Mutation → st ⟶ app_mutate ep arg ok st
  | as_set_cookie n v st : st ⟶ app_set_cookie n v st
  | as_remove_cookie n st : st ⟶ app_remove_cookie n st
  | as_reset st : st ⟶ app_reset st
where "st ⟶ st'" := (app_step st st') : dash_scope.

Inductive app_reachable (jar : gmap string string) : app → Prop :=
  | ar_init : app_reachable jar (app_init jar)
  | ar_step st st' : app_reachable jar st → st ⟶ st' → app_reachable jar st'.

(** Every cached key is a query endpoint of the API, subscribed with a
    recorded argument. *)
Definition keys_ok (st : app) : Prop :=
  ∀ k, is_Some (c_entries (a_cache st) !! k) →
    is_Some (a_args st !! k) ∧
    ∃ ep, find_endpoint k.1 = Some ep ∧ ep_kind ep = Query.

Definition app_wf (st : app) : Prop := cache_wf (a_cache st) ∧ keys_ok st.

Lemma with_cache_wf f st :
  (∀ c, cache_wf c → cache_wf (f c)) → (∀ c, keys_within c (f c)) →
  app_wf st → app_wf (with_cache f st).
Proof.
  intros Hf Hk [Hwf Hkeys]. split; [by apply Hf|].
  intros k Hin. apply Hkeys, (Hk (a_cache st) k), Hin.
Qed.

Lemma app_mount_wf ep arg st :
  ep ∈ api_endpoints → ep_kind ep = Query → app_wf st → app_wf (app_mount ep arg st).
Proof.
  intros Hin Hkind [Hwf Hkeys].
  assert (app_wf (with_cache (subscribe (query_key ep arg))
            (App (a_cache st) (a_jar st) (<[query_key ep arg := arg]> (a_args st)) (a_log st))))
    as Hst1.
  { split; [by apply subscribe_wf|]. intros k Hk. simpl in Hk.
    apply subscribe_keys in Hk as [->|Hk]; simpl.
    - rewrite lookup_insert_eq. split; [eauto|]. exists ep. by rewrite find_endpoint_in.
    - destruct (Hkeys k Hk) as [Ha Hep]. split; [|done].
      rewrite lookup_insert. case_decide; eauto. }
  unfold app_mount. destruct (ep_query ep arg); [|done].
  apply with_cache_wf; [apply settle_wf|apply settle_keys|done].
Qed.

Lemma app_init_wf jar : app_wf (app_init jar).
Proof.
  split; [apply cache_init_wf|]. intros k. simpl. rewrite lookup_empty. by intros [].
Qed.

#[export] Hint Resolve with_cache_wf app_mount_wf app_init_wf : dash.

(** C4. In every state a session can reach, the cache is well formed (each
    pending entry waits for one in-flight request of its own key, request
    ids in flight are distinct) and holds entries only for query endpoints
    of the API, each with the argument it was subscribed with. *)
Theorem app_reachable_wf jar st : app_reachable jar st → app_wf st.
Proof.
  induction 1 as [|st st' _ IH Hstep].
  - apply app_init_wf.
  - destruct Hstep; unfold app_mutate in *; repeat case_match; eauto with dash.
Qed.

Lemma app_reachable_wf_witness :
  app_reachable demo_jar (app_mount ProductApi.allProducts (JObj []) (app_init demo_jar)) ∧
  app_wf (app_mount ProductApi.allProducts (JObj []) (app_init demo_jar)).
Proof.
  assert (app_reachable demo_jar (app_mount ProductApi.allProducts (JObj []) (app_init demo_jar)))
    as Hr by (eapply ar_step; [apply ar_init|apply as_mount; [in_api|reflexivity]]).
  split; [exact Hr|]. apply (app_reachable_wf demo_jar). exact Hr.
Defined.

(** ** The token on every request *)

(** Sessions from a start with the cookie jar [jar] in which no step
    changes the cookies. *)
Inductive steady (jar : gmap string string) : app → Prop :=
  | steady_init : steady jar (app_init jar)
  | steady_step st st' : steady jar st → st ⟶ st' → a_jar st' = jar → steady jar st'.

Lemma request_of_auth jar args k r :
  request_of jar args k = Some r → headers_get "Authorization" (rq_headers r) = auth_of_cookie jar.
Proof.
  unfold request_of. destruct (find_endpoint k.1), (args !! k); simpl; try done.
  destruct (ep_query _ _); [done|]. intros [= <-]. apply fetchBaseQuery_auth.
Qed.

Lemma with_cache_auth jar f st :
  a_jar st = jar →
  (∀ r, r ∈ a_log st → headers_get "Authorization" (rq_headers r) = auth_of_cookie jar) →
  ∀ r, r ∈ a_log (with_cache f st) →
       headers_get "Authorization" (rq_headers r) = auth_of_cookie jar.
Proof.
  intros <- Hlog r. simpl. rewrite elem_of_app. intros [Hr|Hr]; [by apply Hlog|].
  unfold log_issued in Hr. apply list_elem_of_omap in Hr as (k & _ & Hk).
  by apply (request_of_auth _ (a_args st) k).
Qed.

Lemma steady_jar jar st : steady jar st → a_jar st = jar.
Proof. by destruct 1. Qed.

(** The requests a step sends carry the token of the cookies before it. *)
Lemma step_auth st st' :
  st ⟶ st' →
  (∀ r, r ∈ a_log st → headers_get "Authorization" (rq_headers r) = auth_of_cookie (a_jar st)) →
  ∀ r, r ∈ a_log st' → headers_get "Authorization" (rq_headers r) = auth_of_cookie (a_jar st).
Proof.
  intros Hstep Hlog. destruct Hstep.
  - unfold app_mount, app_respond. destruct (ep_query ep arg); repeat (apply with_cache_auth; [reflexivity|]); exact Hlog.
  - apply with_cache_auth; [reflexivity|exact Hlog].
  - apply with_cache_auth; [reflexivity|exact Hlog].
  - apply with_cache_auth; [reflexivity|exact Hlog].
  - unfold app_mutate. destruct (ep_query ep arg) as [|fa]; apply with_cache_auth; [reflexivity|exact Hlog|reflexivity|].
    intros r. simpl. rewrite elem_of_app, list_elem_of_singleton.
    intros [Hr| ->]; [by apply Hlog|apply fetchBaseQuery_auth].
  - exact Hlog.
  - exact Hlog.
  - apply with_cache_auth; [reflexivity|exact Hlog].
Qed.

(** C9. The session token is attached to every request, verbatim: in a
    session whose cookies do not change, every HTTP request sent
    (queries, the refetches invalidation issues, and mutations) carries
    the ["accessToken"] cookie's value as its [Authorization] header, and
    none when the cookie is absent or empty. *)
Theorem every_request_carries_token jar st :
  steady jar st →
  ∀ r, r ∈ a_log st → headers_get "Authorization" (rq_headers r) = auth_of_cookie jar.
Proof.
  induction 1 as [|st st' Hst IH Hstep Hjar]; [set_solver|].
  pose proof (steady_jar _ _ Hst) as Hj. rewrite <- Hj in IH |- *.
  by apply (step_auth st st').
Qed.

Lemma every_request_carries_token_witness :
  steady demo_jar (app_mount ProductApi.allProducts (JObj []) (app_init demo_jar)) ∧
  ∀ r, r ∈ a_log (app_mount ProductApi.allProducts (JObj []) (app_init demo_jar)) →
       headers_get "Authorization" (rq_headers r) = auth_of_cookie demo_jar.
Proof.
  assert (steady demo_jar (app_mount ProductApi.allProducts (JObj []) (app_init demo_jar))) as Hs.
  { eapply steady_step; [apply steady_init|apply as_mount; [in_api|reflexivity]|reflexivity]. }
  split; [exact Hs|]. exact (every_request_carries_token demo_jar _ Hs).
Defined.

Lemma app_respond_cache id r st : a_cache (app_respond id r st) = settle id r (a_cache st).
Proof. done. Qed.

(** C5. Every query a view waits on resolves: in a well-formed state a
    pending entry waits for a request in flight for its own key; the
    response to it is an event of the session, and whatever the response
    is, the entry leaves the pending state, with the response's data, or
    on an error with the data it had. *)
Theorem pending_query_resolves st k e :
  app_wf st → c_entries (a_cache st) !! k = Some e → e_status e = Pending →
  ∃ id, (id, k) ∈ c_inflight (a_cache st) ∧
    ∀ r, st ⟶ app_respond id r st ∧
         view (c_entries (a_cache (app_respond id r st)) !! k) =
           Some (match r with
                 | Some d => (Fulfilled, Some d, e_subs e)
                 | None => (Rejected, e_data e, e_subs e)
                 end).
Proof.
  intros [Hwf _] Hk Hp. pose proof Hwf as (_ & _ & Hm).
  destruct (Hm k e Hk) as [Hpend Hin]. destruct (proj1 Hpend Hp) as [id Hid].
  exists id. split; [by apply Hin|]. intros r. split; [eapply as_respond; by apply Hin|].
  rewrite app_respond_cache, (settle_waiting _ k e id r) by done. by destruct r.
Qed.

Lemma pending_query_resolves_witness :
  let st := app_mount ProductApi.allProducts (JObj []) (app_init demo_jar) in
  let e := Entry Pending None (Some 0) 1 in
  app_wf st ∧ c_entries (a_cache st) !! query_key ProductApi.allProducts (JObj []) = Some e ∧
  e_status e = Pending ∧
  ∃ id, (id, query_key ProductApi.allProducts (JObj [])) ∈ c_inflight (a_cache st) ∧
    ∀ r, st ⟶ app_respond id r st ∧
         view (c_entries (a_cache (app_respond id r st)) !! query_key ProductApi.allProducts (JObj [])) =
           Some (match r with
                 | Some d => (Fulfilled, Some d, e_subs e)
                 | None => (Rejected, e_data e, e_subs e)
                 end).
Proof.
  intros st e.
  assert (app_wf st) as Hwf.
  { apply app_mount_wf; [in_api|reflexivity|].
    apply app_init_wf. }
  assert (c_entries (a_cache st) !! query_key ProductApi.allProducts (JObj []) = Some e) as Hk
    by (vm_compute; reflexivity).
  split_and!; [exact Hwf|exact Hk|reflexivity|].
  exact (pending_query_resolves st _ e Hwf Hk eq_refl).
Defined.
