(* ===== verification/Responses.v ===== *)
(** * Responses: the answers to the requests in flight

    Responses arrive in any order ([respond_list] applies a list of them,
    in the order given); each settles the entry that waits for it and
    leaves every other entry alone, so the state of a view depends on
    which responses arrived, not on their order.  When no view mounts or
    unmounts and no mutation is triggered, the only events left in a
    session are the responses to the requests in flight ([as_respond] of
    [App.app_step]).  A query response only settles its
    entry: RTK Query does not refetch on a response, so no request is sent
    while the responses arrive.  This file shows that this remaining
    traffic terminates, with the number of requests in flight as the
    measure, and that it ends in a state where no view is loading. *)

From stdpp Require Import base list decidable sets strings gmap fin_maps options relations.
From S2P Require Import Prelude Js Transport Endpoints Cache App.

Local Open Scope dash_scope.

(** A response to a request in flight: [as_respond] alone. *)
Inductive respond_step : app → app → Prop :=
  | rs_respond id k r st :
      (id, k) ∈ c_inflight (a_cache st) → respond_step st (app_respond id r st).

(** Responses [(id, r)] arriving one after the other, in the list's order. *)
Definition respond_list (rs : list (nat * option jsval)) (st : app) : app :=
  foldl (λ st p, app_respond p.1 p.2 st) st rs.

(** What the responses [rs] make of one entry: each settles it when it
    waits for that response's id. *)
Definition entry_after (rs : list (nat * option jsval)) (e : entry jsval) : entry jsval :=
  foldl (λ e p, if decide (e_req e = Some p.1) then settle_entry p.2 e else e) e rs.

(** A state where no view waits: nothing is in flight and no entry is
    pending. *)
Definition quiet (st : app) : Prop :=
  c_inflight (a_cache st) = [] ∧
  ∀ k e, c_entries (a_cache st) !! k = Some e → e_status e ≠ Pending.

Section settle_inflight.
  Context `{TagTable} {D : Type}.
  Implicit Types (s : cstate D).

  (** The response to a request in flight removes its id from the
      requests in flight and issues nothing. *)
Lemma settle_inflight s id k r :
    (id, k) ∈ c_inflight s →
    c_inflight (settle id r s) = filter (λ p, p.1 ≠ id) (c_inflight s) ∧
    c_sent (settle id r s) = c_sent s.
  Proof.
    intros Hin. unfold settle. destruct (List.find _ _) as [[??]|] eqn:Hf; [done|].
    eapply find_none in Hf; [|by apply list_elem_of_In].
    by rewrite bool_decide_true in Hf.
  Qed.

Lemma settle_inflight_length s id k r :
    (id, k) ∈ c_inflight s → length (c_inflight (settle id r s)) < length (c_inflight s).
  Proof.
    intros Hin. rewrite (proj1 (settle_inflight s id k r Hin)).
    apply (length_filter_lt _ _ (id, k)); naive_solver.
  Qed.

  (** With nothing in flight, a well-formed cache has no pending entry. *)
Lemma wf_no_inflight_quiet s :
    cache_wf s → c_inflight s = [] →
    ∀ k e, c_entries s !! k = Some e → e_status e ≠ Pending.
  Proof.
    intros (_ & _ & Hm) Hnil k e Hk Hp. destruct (Hm k e Hk) as [[Hreq _] Hin].
    destruct (Hreq Hp) as [id Hid]. specialize (Hin id Hid). rewrite Hnil in Hin. set_solver.
  Qed.

End settle_inflight.

Lemma app_respond_log id k r st :
  (id, k) ∈ c_inflight (a_cache st) → a_log (app_respond id r st) = a_log st.
Proof.
  intros Hin. unfold app_respond, with_cache, log_issued, issued. simpl.
  rewrite (proj2 (settle_inflight _ id k r Hin)), drop_all. simpl. apply app_nil_r.
Qed.

Lemma respond_step_wf st st' : respond_step st st' → app_wf st → app_wf st'.
Proof. destruct 1. eauto using settle_keys with dash. Qed.

Lemma respond_step_measure st st' :
  respond_step st st' → length (c_inflight (a_cache st')) < length (c_inflight (a_cache st)).
Proof. destruct 1 as [id k r st Hin]. rewrite app_respond_cache. by eapply settle_inflight_length. Qed.

Lemma respond_step_log st st' : respond_step st st' → a_log st' = a_log st.
Proof. destruct 1 as [id k r st Hin]. by eapply app_respond_log. Qed.

Lemma respond_nf st : nf respond_step st ↔ c_inflight (a_cache st) = [].
Proof.
  split.
  - intros Hnf. destruct (c_inflight (a_cache st)) as [|[id k] l] eqn:E; [done|].
    destruct Hnf. exists (app_respond id None st). apply (rs_respond id k). rewrite E. set_solver.
  - intros Hnil [st' Hs]. destruct Hs as [id k r st Hin]. rewrite Hnil in Hin. set_solver.
Qed.

Lemma respond_sn st : sn respond_step st.
Proof.
  remember (length (c_inflight (a_cache st))) as n eqn:Hn.
  induction (lt_wf n) as [n _ IH] in st, Hn |- *. subst n.
  constructor. intros st' Hs. exact (IH _ (respond_step_measure _ _ Hs) st' eq_refl).
Qed.

Lemma respond_nsteps n st st' :
  nsteps respond_step n st st' →
  n + length (c_inflight (a_cache st')) ≤ length (c_inflight (a_cache st)) ∧ a_log st' = a_log st.
Proof.
  induction 1 as [|n st1 st2 st3 Hs _ [IHl IHlog]]; [done|].
  pose proof (respond_step_measure _ _ Hs). rewrite IHlog, (respond_step_log _ _ Hs). split; [lia|done].
Qed.

(** Answering the requests in flight, oldest first, reaches a quiet state. *)
Lemma respond_drain st : app_wf st → ∃ st', rtc respond_step st st' ∧ quiet st'.
Proof.
  remember (length (c_inflight (a_cache st))) as n eqn:Hn.
  induction (lt_wf n) as [n _ IH] in st, Hn |- *. subst n. intros Hwf.
  destruct (c_inflight (a_cache st)) as [|[id k] l] eqn:E.
  - exists st. split; [done|]. split; [done|]. apply wf_no_inflight_quiet; [apply Hwf|done].
  - assert (respond_step st (app_respond id None st)) as Hs by (apply (rs_respond id k); rewrite E; set_solver).
    pose proof (respond_step_measure _ _ Hs) as Hlt. rewrite E in Hlt.
    destruct (IH _ Hlt _ eq_refl (respond_step_wf _ _ Hs Hwf))
      as (st' & Hrtc & Hq).
    exists st'. split; [by eapply rtc_l|done].
Qed.

(** C6. The traffic of a session ends once the user stops acting: in
    every state a session reaches, the responses to the requests in flight
    cannot go on forever (the relation of responses is strongly
    normalising); a run of [n] responses has [n] at most the number of
    requests in flight and sends no request; and answering them in order
    reaches a state where nothing is in flight and no view is loading. *)
Theorem responses_quiesce jar st :
  app_reachable jar st →
  sn respond_step st ∧
  (∀ n st', nsteps respond_step n st st' →
     n ≤ length (c_inflight (a_cache st)) ∧ a_log st' = a_log st) ∧
  ∃ st', rtc respond_step st st' ∧ quiet st'.
Proof.
  intros Hr. split_and!; [apply respond_sn| |apply respond_drain, (app_reachable_wf jar st Hr)].
  intros n st' Hn. destruct (respond_nsteps _ _ _ Hn). split; [lia|done].
Qed.

Lemma responses_quiesce_witness :
  let st := app_mount ProductApi.allProducts (JObj []) (app_init demo_jar) in
  app_reachable demo_jar st ∧
  sn respond_step st ∧
  (∀ n st', nsteps respond_step n st st' →
     n ≤ length (c_inflight (a_cache st)) ∧ a_log st' = a_log st) ∧
  ∃ st', rtc respond_step st st' ∧ quiet st'.
Proof.
  intros st.
  assert (app_reachable demo_jar st) as Hr.
  { eapply ar_step; [apply ar_init|apply as_mount; [in_api|reflexivity]]. }
  split; [exact Hr|exact (responses_quiesce demo_jar st Hr)].
Defined.

(** ** Responses in any order *)

Lemma app_respond_lookup st id r k e :
  cache_wf (a_cache st) → c_entries (a_cache st) !! k = Some e →
  c_entries (a_cache (app_respond id r st)) !! k =
    Some (if decide (e_req e = Some id) then settle_entry r e else e).
Proof.
  intros Hwf Hk. rewrite app_respond_cache. case_decide as Hreq.
  - by apply settle_waiting.
  - by apply settle_lookup_other.
Qed.

Lemma respond_list_lookup rs st k e :
  cache_wf (a_cache st) → c_entries (a_cache st) !! k = Some e →
  cache_wf (a_cache (respond_list rs st)) ∧
  c_entries (a_cache (respond_list rs st)) !! k = Some (entry_after rs e).
Proof.
  induction rs as [|[id r] rs IH] in st, e |- *; intros Hwf Hk; [done|].
  apply (IH (app_respond id r st)); [by apply settle_wf|by apply app_respond_lookup].
Qed.

Lemma entry_after_settled rs e : e_req e = None → entry_after rs e = e.
Proof.
  induction rs as [|[id r] rs IH]; intros Hn; [done|]. simpl. rewrite Hn. by apply IH.
Qed.

(** An entry waiting for [id] ends settled by the one response to [id],
    wherever it stands among the others. *)
Lemma entry_after_unique rs e id r :
  e_req e = Some id → NoDup rs.*1 → (id, r) ∈ rs → entry_after rs e = settle_entry r e.
Proof.
  induction rs as [|[id' r'] rs IH]; intros Hreq Hnd Hin; [set_solver|].
  apply NoDup_cons in Hnd as [Hid' Hnd]. simpl. rewrite Hreq.
  apply elem_of_cons in Hin as [Heq|Hin].
  - simplify_eq. rewrite decide_True by done. apply entry_after_settled, settle_entry_settled.
  - rewrite decide_False; [by apply IH|]. intros [= ->]. apply Hid'.
    apply list_elem_of_fmap. by exists (id', r).
Qed.
