(* ===== verification/ProductForm.v ===== *)
(** * ProductForm: the add/edit product form of
      [src/src/components/Add product/AddProduct.tsx]

    - [schema] is the zod object of lines 13-26, read field by field as zod
      reads it: a missing value is "Required", a value of the wrong type
      (NaN included) gives the field's [invalid_type_error], and the checks
      ([min(1)], [positive], [nonnegative]) all run and report in order;
      react-hook-form's resolver shows the first issue of each field;
    - [prefill] is the [useEffect] of lines 68-81 that resets the form from
      the product being edited, with JavaScript's [||];
    - [onSubmit] is lines 83-129: it appends to the [FormData] the render
      created ([fromData], line 43), calls [updateProduct] or [addProduct],
      and on the outcome shows a toast and (when adding) resets the form.
    - [onInput] is what the registered controls of lines 170-243 store:
      the text of an input, the option of the category select, or the
      [valueAsNumber] of a number input.
    The component's state is [pstate]: the form values, the image preview,
    the selected file, the render's [FormData] parts and the toasts. *)

From stdpp Require Import base list decidable sets strings options.
From Stdlib Require Import Ascii QArith.
From S2P Require Import Prelude Js Transport Endpoints.

Local Open Scope string_scope.

Module AddProduct.

(** ** Form values and the schema *)

Inductive field := FName | FCategory | FColor | FSize | FPrice | FInStock | FDescription.

#[export] Instance field_eq_dec : EqDecision field.
Proof. solve_decision. Defined.

(** The values react-hook-form holds: strings from the text inputs, and
    [valueAsNumber] numbers ([NaN] for an empty input) or [undefined]. *)
Record pform := PForm {
  f_name : jsval; f_category : jsval; f_color : jsval; f_size : jsval;
  f_price : jsval; f_inStock : jsval; f_description : jsval
}.

Definition defaultValues : pform :=
  PForm (JStr "") (JStr "") (JStr "") (JStr "") JUndefined JUndefined (JStr "").

(** [z.string().min(1, msg)]. *)
Definition zod_string_min1 (msg : string) (v : jsval) : list string :=
  match v with
  | JUndefined => ["Required"]
  | JStr s => if bool_decide (String.length s < 1)%nat then [msg] else []
  | _ => ["Expected string"]
  end.

(** [z.number({ invalid_type_error })] followed by its checks, each a test
    and the message it reports when the test fails. *)
Definition zod_number (invalid : string) (checks : list ((Q → bool) * string)) (v : jsval)
    : list string :=
  match v with
  | JUndefined => ["Required"]
  | JNum q => omap (λ c : (Q → bool) * string, if c.1 q then None else Some c.2) checks
  | _ => [invalid]
  end.

Definition price_schema : jsval → list string :=
  zod_number "Price must be a number"
    [((λ q, negb (Qle_bool q 0)), "Price must be greater than zero");
     ((λ q, Qle_bool 0 q), "Price must be a positive number")].

Definition inStock_schema : jsval → list string :=
  zod_number "In Stock must be a number"
    [((λ q, Qle_bool 0 q), "In Stock must be a non-negative number")].

(** The issues of [schema.safeParse(values)], by field, in the schema's order. *)
Definition schema (f : pform) : list (field * string) :=
  (map (λ m, (FName, m)) (zod_string_min1 "Product Name is required" (f_name f))) ++
  (map (λ m, (FCategory, m)) (zod_string_min1 "Category is required" (f_category f))) ++
  (map (λ m, (FColor, m)) (zod_string_min1 "Color is required" (f_color f))) ++
  (map (λ m, (FSize, m)) (zod_string_min1 "Size is required" (f_size f))) ++
  (map (λ m, (FPrice, m)) (price_schema (f_price f))) ++
  (map (λ m, (FInStock, m)) (inStock_schema (f_inStock f))) ++
  (map (λ m, (FDescription, m)) (zod_string_min1 "Description is required" (f_description f))).

(** [errors.<field>.message]: the first issue of the field. *)
Definition error_of (f : pform) (x : field) : option string :=
  snd <$> List.find (λ fm, bool_decide (fm.1 = x)) (schema f).

(** The object zod returns on success: the schema's keys, in its order. *)
Definition parsed (f : pform) : jsval :=
  JObj [("name", f_name f); ("category", f_category f); ("color", f_color f);
        ("size", f_size f); ("price", f_price f); ("inStock", f_inStock f);
        ("description", f_description f)].

(** ** The component's state and handlers *)

Inductive toast := ToastSuccess (msg : string) | ToastError (msg : string).

Record pstate := PState {
  ps_values : pform;                      (** react-hook-form's values *)
  ps_image : jsval;                       (** [image]: the preview, [null] at first *)
  ps_productImage : jsval;                (** [productImage]: a File, or [undefined] *)
  ps_fromData : list (string * formval);  (** the render's [FormData] *)
  ps_toasts : list toast
}.

Definition pstate_init : pstate := PState defaultValues JNull JUndefined [] [].

Definition set_values (f : pform) (st : pstate) : pstate :=
  PState f (ps_image st) (ps_productImage st) (ps_fromData st) (ps_toasts st).

Definition add_toast (t : toast) (st : pstate) : pstate :=
  PState (ps_values st) (ps_image st) (ps_productImage st) (ps_fromData st) (ps_toasts st ++ [t])%list.

(** A render runs [const fromData = new FormData()] again. *)
Definition render (st : pstate) : pstate :=
  PState (ps_values st) (ps_image st) (ps_productImage st) [] (ps_toasts st).

(** The preview a [FileReader] produces for a file (its content is not
    modelled). *)
Definition data_url (name : string) : string := "data:" +:+ name.

(** [handleImageUpload]: [setProductImage(file)], and the preview once
    the reader has loaded it. *)
Definition handleImageUpload (file : option string) (st : pstate) : pstate :=
  match file with
  | Some f => PState (ps_values st) (JStr (data_url f)) (JFile f) (ps_fromData st) (ps_toasts st)
  | None => PState (ps_values st) (ps_image st) JUndefined (ps_fromData st) (ps_toasts st)
  end.

(** [removeImage = () => setImage(null)]. *)
Definition removeImage (st : pstate) : pstate :=
  PState (ps_values st) JNull (ps_productImage st) (ps_fromData st) (ps_toasts st).

(** The image area of lines 147-166: [{image ? (the preview and its
    delete button) : (the file picker)}]. *)
Inductive image_area := ImgPreview (src : jsval) | ImgPicker.

Definition image_view (st : pstate) : image_area :=
  if truthy (ps_image st) then ImgPreview (ps_image st) else ImgPicker.

(** [result.size.join(",")]: a [TypeError] when [size] is not an array. *)
Definition join_sizes (v : jsval) : js_result string :=
  match v with
  | JArr _ => tmpl v
  | _ => inl TypeError
  end.

(** The [useEffect] that resets the form from the product being edited. *)
Definition prefill (result : jsval) (st : pstate) : js_result pstate :=
  if truthy result then
    name ← js_get result "name"; category ← js_get result "category";
    color ← js_get result "color"; size ← js_get result "size";
    sz ← join_sizes size; price ← js_get result "price";
    inStock ← js_get result "inStock"; description ← js_get result "description";
    img ← js_get result "productImage";
    let f := PForm (js_or name (JStr "")) (js_or category (JStr "")) (js_or color (JStr ""))
                   (js_or (JStr sz) (JStr "")) (js_or price JUndefined)
                   (js_or inStock JUndefined) (js_or description (JStr "")) in
    mret (PState f img (ps_productImage st) (ps_fromData st) (ps_toasts st))
  else mret st.

(** [size.split(",")] as an array of strings. *)
Definition size_array (v : jsval) : js_result jsval :=
  match v with
  | JStr s => inr (JArr (map JStr (js_split ","%char s)))
  | _ => inl TypeError
  end.

(** The first half of [onSubmit], up to [await]: the parts appended to
    the render's [FormData] and the mutation called. *)
Definition onSubmit_send (result : jsval) (f : pform) (st : pstate) : js_result (pstate * mcall) :=
  sz ← size_array (f_size f);
  let fd1 := (ps_fromData st ++ [("bodyData", FVJson (js_spread_set (parsed f) "size" sz))])%list in
  if truthy result then
    let fd2 := if truthy (ps_productImage st)
               then (fd1 ++ [("productImage", fd_value (ps_productImage st))])%list else fd1 in
    id ← js_get result "id";
    mret (PState (ps_values st) (ps_image st) (ps_productImage st) fd2 (ps_toasts st),
          MCall ProductApi.updateProduct (JObj [("id", id); ("data", JFormData fd2)]))
  else
    let fd2 := (fd1 ++ [("productImage", fd_value (ps_productImage st))])%list in
    mret (PState (ps_values st) (ps_image st) (ps_productImage st) fd2 (ps_toasts st),
          MCall ProductApi.addProduct (JFormData fd2)).

(** The second half of [onSubmit]: the outcome handled. *)
Definition onSubmit_settle (result : jsval) (out : mresult) (st : pstate) : pstate :=
  if truthy result then
    match out with
    | MError _ => add_toast (ToastError "Failed to update product") st
    | MData res => if truthy res then add_toast (ToastSuccess "Product update successfully") st else st
    end
  else
    match out with
    | MError _ => add_toast (ToastError "Failed to add product") st
    | MData res =>
        if truthy res then add_toast (ToastSuccess "Product added successfully") (set_values defaultValues st)
        else st
    end.

(** [handleSubmit(onSubmit)]: [onSubmit] runs only on values the schema
    accepts; otherwise the errors are shown and nothing is sent. *)
Definition handleSubmit (result : jsval) (st : pstate) : js_result (pstate * option mcall) :=
  match schema (ps_values st) with
  | [] => '(st', c) ← onSubmit_send result (ps_values st) st; mret (st', Some c)
  | _ :: _ => mret (st, None)
  end.

(** ** The form's controls *)

(** What the user does in the controls registered with react-hook-form
    (lines 170-243): type in a text input or the textarea, pick an option
    of the category select, type in one of the two number inputs. *)
Inductive pinput :=
  | InName (s : string) | InCategory (opt : string) | InColor (s : string) | InSize (s : string)
  | InPrice (text : string) | InInStock (text : string) | InDescription (s : string).

(** The options of the category select (lines 184-186). *)
Definition category_options : list string := [""; "Clothes"; "Weed"].

(** [register(name)] stores the control's value; [register(name,
    { valueAsNumber: true })] stores [input.valueAsNumber]. *)
Definition onInput (i : pinput) (st : pstate) : pstate :=
  let f := ps_values st in
  let f' := match i with
    | InName s => PForm (JStr s) (f_category f) (f_color f) (f_size f) (f_price f) (f_inStock f) (f_description f)
    | InCategory s => PForm (f_name f) (JStr s) (f_color f) (f_size f) (f_price f) (f_inStock f) (f_description f)
    | InColor s => PForm (f_name f) (f_category f) (JStr s) (f_size f) (f_price f) (f_inStock f) (f_description f)
    | InSize s => PForm (f_name f) (f_category f) (f_color f) (JStr s) (f_price f) (f_inStock f) (f_description f)
    | InPrice t => PForm (f_name f) (f_category f) (f_color f) (f_size f) (valueAsNumber t) (f_inStock f) (f_description f)
    | InInStock t => PForm (f_name f) (f_category f) (f_color f) (f_size f) (f_price f) (valueAsNumber t) (f_description f)
    | InDescription s => PForm (f_name f) (f_category f) (f_color f) (f_size f) (f_price f) (f_inStock f) (JStr s)
    end in
  set_values f' st.

(** Filling in every control, in the order of the page. *)
Definition fill_form (name cat color size price stock desc : string) (st : pstate) : pstate :=
  foldl (λ st i, onInput i st) st
    [InName name; InCategory cat; InColor color; InSize size; InPrice price; InInStock stock;
     InDescription desc].

End AddProduct.

(** ** The validation gate *)

Module AddProductProofs.
Import AddProduct.

(** A text input holding a non-empty string. *)
Definition nonempty_text (v : jsval) : Prop := ∃ s, v = JStr s ∧ s ≠ "".

(** The constraints of spec §4.2 / §8 on the form's values. *)
Definition product_form_ok (f : pform) : Prop :=
  nonempty_text (f_name f) ∧ nonempty_text (f_category f) ∧ nonempty_text (f_color f) ∧
  nonempty_text (f_size f) ∧ (∃ q, f_price f = JNum q ∧ (0 < q)%Q) ∧
  (∃ q, f_inStock f = JNum q ∧ (0 <= q)%Q) ∧ nonempty_text (f_description f).

Lemma zod_string_min1_nil msg v : zod_string_min1 msg v = [] ↔ nonempty_text v.
Proof.
  unfold nonempty_text. destruct v; simpl; try (split; [done|naive_solver]).
  case_bool_decide as Hl; split; try done.
  - intros [s' [[= <-] Hne]]. destruct s; [done|simpl in Hl; lia].
  - intros _. eexists; split; [done|]. intros ->. simpl in Hl. lia.
Qed.

Lemma Qle_bool_false x y : Qle_bool x y = false → (y < x)%Q.
Proof.
  intros H. apply Qnot_le_lt. intros Hle. apply Qle_bool_iff in Hle. congruence.
Qed.

Lemma price_schema_nil v : price_schema v = [] ↔ ∃ q, v = JNum q ∧ (0 < q)%Q.
Proof.
  destruct v; simpl; try (split; [done|naive_solver]).
  destruct (Qle_bool q 0) eqn:H1; [|destruct (Qle_bool 0 q) eqn:H2]; simpl; split; try done.
  - apply Qle_bool_iff in H1. intros [q' [[= <-] Hq]]. by apply Qle_not_lt in H1.
  - intros _. exists q. split; [done|]. by apply Qle_bool_false.
  - apply Qle_bool_false in H1, H2. intros [q' [[= <-] Hq]].
    exfalso. apply (Qlt_irrefl q), (Qlt_trans _ 0); done.
Qed.

Lemma inStock_schema_nil v : inStock_schema v = [] ↔ ∃ q, v = JNum q ∧ (0 <= q)%Q.
Proof.
  destruct v; simpl; try (split; [done|naive_solver]).
  destruct (Qle_bool 0 q) eqn:H2; simpl; split; try done.
  - intros _. exists q. split; [done|]. by apply Qle_bool_iff.
  - apply Qle_bool_false in H2. intros [q' [[= <-] Hq]]. by apply Qle_not_lt in Hq.
Qed.

Lemma schema_nil f : schema f = [] ↔ product_form_ok f.
Proof.
  unfold schema, product_form_ok. split.
  - intros H. repeat match goal with
      | H : (_ ++ _)%list = [] |- _ => apply app_eq_nil in H as [? ?]
      | H : map _ _ = [] |- _ => apply map_eq_nil in H
      end.
    split_and!; first [eapply (proj1 (zod_string_min1_nil _ _)); eassumption
                      | by apply price_schema_nil | by apply inStock_schema_nil].
  - intros (H1 & H2 & H3 & H4 & H5 & H6 & H7).
    erewrite (proj2 (zod_string_min1_nil _ (f_name f)) H1),
      (proj2 (zod_string_min1_nil _ (f_category f)) H2),
      (proj2 (zod_string_min1_nil _ (f_color f)) H3),
      (proj2 (zod_string_min1_nil _ (f_size f)) H4),
      (proj2 (price_schema_nil _) H5), (proj2 (inStock_schema_nil _) H6),
      (proj2 (zod_string_min1_nil _ (f_description f)) H7).
    done.
Qed.

Lemma onSubmit_send_ok result f st :
  product_form_ok f → ∃ st' c, onSubmit_send result f st = inr (st', c).
Proof.
  intros (_ & _ & _ & [s [Hs _]] & _). unfold onSubmit_send. rewrite Hs. simpl.
  destruct (truthy result) eqn:Ht; simpl; [|eauto].
  destruct (js_get_truthy result "id" Ht) as [x ->]. simpl. eauto.
Qed.

Lemma handleSubmit_blocked result st :
  ¬ product_form_ok (ps_values st) → handleSubmit result st = inr (st, None).
Proof.
  intros Hko. unfold handleSubmit. destruct (schema (ps_values st)) eqn:Hs; [|done].
  by apply schema_nil in Hs.
Qed.

Lemma handleSubmit_calls result st :
  (∃ st' c, handleSubmit result st = inr (st', Some c)) ↔ product_form_ok (ps_values st).
Proof.
  unfold handleSubmit. split.
  - intros (st' & c & Hs). apply schema_nil.
    destruct (schema (ps_values st)); [done|discriminate].
  - intros Hok. pose proof Hok as Hnil%schema_nil. rewrite Hnil.
    destruct (onSubmit_send_ok result (ps_values st) st Hok) as (st' & c & ->). eauto.
Qed.

(** C7. The submission gate of the product form: [handleSubmit(onSubmit)]
    calls a product mutation exactly when every text field is a non-empty
    string, the price is a number greater than zero and the stock a number
    at least zero; otherwise it leaves the state as it is and calls
    nothing. *)
Theorem handleSubmit_gate result st :
  ((∃ st' c, handleSubmit result st = inr (st', Some c)) ↔ product_form_ok (ps_values st)) ∧
  (¬ product_form_ok (ps_values st) → handleSubmit result st = inr (st, None)).
Proof. split; [apply handleSubmit_calls|apply handleSubmit_blocked]. Qed.

(** ** Errors shown per field *)

Lemma find_tagged {B} (x y : field) (ms : list B) :
  List.find (λ fm : field * B, bool_decide (fm.1 = x)) (map (λ m, (y, m)) ms) =
  if bool_decide (y = x) then (λ m, (y, m)) <$> head ms else None.
Proof.
  induction ms as [|m ms IH]; simpl; [by destruct (bool_decide _)|].
  destruct (bool_decide _) eqn:E; [done|]. rewrite IH. by destruct (bool_decide _).
Qed.

Lemma error_of_inStock f : error_of f FInStock = head (inStock_schema (f_inStock f)).
Proof.
  unfold error_of, schema. rewrite !find_app, !find_tagged. simpl.
  by destruct (head (inStock_schema (f_inStock f))).
Qed.

(** ** Editing a product *)

Lemma js_or_str_empty s : js_or (JStr s) (JStr "") = JStr s.
Proof. unfold js_or. simpl. case_bool_decide; by subst. Qed.

(** The form values [prefill] writes for a product object. *)
Lemma prefill_obj fs st :
  prefill (JObj fs) st =
  sz ← join_sizes (js_get_field fs "size");
  mret (PState (PForm (js_or (js_get_field fs "name") (JStr "")) (js_or (js_get_field fs "category") (JStr ""))
                      (js_or (js_get_field fs "color") (JStr "")) (js_or (JStr sz) (JStr ""))
                      (js_or (js_get_field fs "price") JUndefined) (js_or (js_get_field fs "inStock") JUndefined)
                      (js_or (js_get_field fs "description") (JStr "")))
               (js_get_field fs "productImage") (ps_productImage st) (ps_fromData st) (ps_toasts st)).
Proof. reflexivity. Qed.

(** C18. Editing a product and saving it sends its sizes back unchanged:
    [prefill] writes [result.size.join(",")] into the size field and
    [onSubmit] splits that field on [","], which gives the product's size
    array back when the array is non-empty and no size contains a comma. *)
Theorem prefill_size_roundtrip fs l st :
  js_get_field fs "size" = JArr (map JStr l) → l ≠ [] →
  Forall (λ x, no_char ","%char x = true) l →
  ∃ st', prefill (JObj fs) st = inr st' ∧
         size_array (f_size (ps_values st')) = inr (JArr (map JStr l)).
Proof.
  intros Hs Hne Hall. rewrite prefill_obj, Hs. unfold join_sizes, tmpl.
  rewrite js_template_strs. simpl. eexists; split; [done|]. simpl.
  rewrite js_or_str_empty. simpl. by rewrite js_split_join.
Qed.

Definition demo_sizes_product : list (string * jsval) :=
  [("id", JStr "p1"); ("name", JStr "Shirt"); ("size", JArr [JStr "S"; JStr "M"]);
   ("price", JNum 10); ("inStock", JNum 0)].

Lemma prefill_size_roundtrip_witness :
  js_get_field demo_sizes_product "size" = JArr (map JStr ["S"; "M"]) ∧
  ∃ st', prefill (JObj demo_sizes_product) pstate_init = inr st' ∧
         size_array (f_size (ps_values st')) = inr (JArr (map JStr ["S"; "M"])).
Proof.
  split; [reflexivity|].
  apply prefill_size_roundtrip; [reflexivity|done|].
  repeat constructor.
Defined.

Lemma js_or_zero (d : jsval) : js_or (JNum 0) d = d.
Proof. done. Qed.

(** C13. Editing a product whose stock is 0 cannot be saved as it is: the
    [useEffect] writes [result.inStock || undefined], so the stock field
    becomes [undefined], the form shows "Required" under it, and
    [handleSubmit] calls no mutation until the stock is typed again,
    although 0 is a valid stock. *)
Theorem prefill_zero_stock fs st st' :
  js_get_field fs "inStock" = JNum 0 → prefill (JObj fs) st = inr st' →
  f_inStock (ps_values st') = JUndefined ∧
  error_of (ps_values st') FInStock = Some "Required" ∧
  ∀ result, handleSubmit result st' = inr (st', None).
Proof.
  intros Hz Hp. rewrite prefill_obj, Hz in Hp.
  destruct (join_sizes _); simpl in Hp; [done|]. injection Hp as <-. simpl.
  split_and!; [done|by rewrite error_of_inStock|].
  intros result. apply handleSubmit_blocked. simpl.
  intros (_ & _ & _ & _ & _ & [q [Hq _]] & _). done.
Qed.

Definition demo_zero_stock_state : pstate :=
  match prefill (JObj demo_sizes_product) pstate_init with inr st => st | inl _ => pstate_init end.

Lemma prefill_zero_stock_witness :
  js_get_field demo_sizes_product "inStock" = JNum 0 ∧
  prefill (JObj demo_sizes_product) pstate_init = inr demo_zero_stock_state ∧
  f_inStock (ps_values demo_zero_stock_state) = JUndefined ∧
  error_of (ps_values demo_zero_stock_state) FInStock = Some "Required" ∧
  ∀ result, handleSubmit result demo_zero_stock_state = inr (demo_zero_stock_state, None).
Proof.
  assert (prefill (JObj demo_sizes_product) pstate_init = inr demo_zero_stock_state) as Hp
    by reflexivity.
  split; [reflexivity|]. split; [exact Hp|].
  exact (prefill_zero_stock demo_sizes_product pstate_init demo_zero_stock_state eq_refl Hp).
Defined.

(** ** Adding a product *)

(** The [bodyData] part [onSubmit] appends for values [f] whose size
    field is [s]. *)
Definition body_part (f : pform) (s : string) : string * formval :=
  ("bodyData", FVJson (js_spread_set (parsed f) "size" (JArr (map JStr (js_split ","%char s))))).

Lemma onSubmit_send_add f st s :
  f_size f = JStr s →
  onSubmit_send JUndefined f st =
  inr (PState (ps_values st) (ps_image st) (ps_productImage st)
         (ps_fromData st ++ [body_part f s; ("productImage", fd_value (ps_productImage st))])%list
         (ps_toasts st),
       MCall ProductApi.addProduct
         (JFormData (ps_fromData st ++ [body_part f s; ("productImage", fd_value (ps_productImage st))])%list)).
Proof. intros Hs. unfold onSubmit_send. rewrite Hs. simpl. by rewrite <- app_assoc. Qed.

(** C15. Adding a product with no image selected still sends a
    [productImage] part: [fromData.append("productImage", productImage as
    File)] runs unconditionally and [FormData] turns [undefined] into the
    string ["undefined"]. *)
Theorem add_without_image f st :
  product_form_ok f → ps_productImage st = JUndefined →
  ∃ st' parts, onSubmit_send JUndefined f st = inr (st', MCall ProductApi.addProduct (JFormData parts)) ∧
               last parts = Some ("productImage", FVText "undefined").
Proof.
  intros (_ & _ & _ & [s [Hs _]] & _) Himg. rewrite (onSubmit_send_add _ _ s Hs), Himg.
  do 2 eexists. split; [done|]. by rewrite last_app.
Qed.

Definition shirt : pform :=
  PForm (JStr "Shirt") (JStr "Clothes") (JStr "Red") (JStr "S,M") (JNum 10) (JNum 5) (JStr "desc").

Lemma shirt_ok : product_form_ok shirt.
Proof. apply schema_nil. reflexivity. Qed.

Lemma add_without_image_witness :
  product_form_ok shirt ∧ ps_productImage pstate_init = JUndefined ∧
  ∃ st' parts, onSubmit_send JUndefined shirt pstate_init =
                 inr (st', MCall ProductApi.addProduct (JFormData parts)) ∧
               last parts = Some ("productImage", FVText "undefined").
Proof.
  split; [exact shirt_ok|]. split; [reflexivity|].
  apply add_without_image; [exact shirt_ok|reflexivity].
Defined.

(** C16. Removing the previewed image does not unselect the file: after
    a file is picked the page shows its preview; [removeImage] only runs
    [setImage(null)], so the page shows the file picker again, as if no
    file were chosen, and yet the next submission of the add form still
    uploads the removed file. *)
Theorem removeImage_keeps_file f name st :
  product_form_ok f →
  let st1 := set_values f (removeImage (handleImageUpload (Some name) st)) in
  image_view (handleImageUpload (Some name) st) = ImgPreview (JStr (data_url name)) ∧
  image_view st1 = ImgPicker ∧
  ∃ st' parts, onSubmit_send JUndefined f st1 = inr (st', MCall ProductApi.addProduct (JFormData parts)) ∧
               ("productImage", FVFile name) ∈ parts.
Proof.
  intros (_ & _ & _ & [s [Hs _]] & _). split_and!; [done|done|].
  rewrite (onSubmit_send_add _ _ s Hs). do 2 eexists. split; [done|]. simpl. set_solver.
Qed.

Lemma removeImage_keeps_file_witness :
  product_form_ok shirt ∧
  image_view (handleImageUpload (Some "shirt.png") pstate_init) = ImgPreview (JStr (data_url "shirt.png")) ∧
  image_view (set_values shirt (removeImage (handleImageUpload (Some "shirt.png") pstate_init))) = ImgPicker ∧
  ∃ st' parts,
    onSubmit_send JUndefined shirt
      (set_values shirt (removeImage (handleImageUpload (Some "shirt.png") pstate_init))) =
      inr (st', MCall ProductApi.addProduct (JFormData parts)) ∧
    ("productImage", FVFile "shirt.png") ∈ parts.
Proof. split; [exact shirt_ok|]. exact (removeImage_keeps_file shirt "shirt.png" pstate_init shirt_ok). Defined.

(** ** The render's [FormData] is shared by the submissions of that render *)

(** The [FormData] parts a mutation call carries. *)
Definition call_parts (c : mcall) : list (string * formval) :=
  match mc_arg c with
  | JFormData p => p
  | JObj fs => match js_get_field fs "data" with JFormData p => p | _ => [] end
  | _ => []
  end.

Lemma onSubmit_send_parts result f st st' c :
  onSubmit_send result f st = inr (st', c) →
  ps_values st' = ps_values st ∧ ps_fromData st' = call_parts c ∧
  ∃ b extra, ps_fromData st' = (ps_fromData st ++ ("bodyData", b) :: extra)%list ∧
             "bodyData" ∉ extra.*1.
Proof.
  unfold onSubmit_send. destruct (size_array (f_size f)) as [|sz]; simpl; [done|].
  destruct (truthy result) eqn:Hr.
  - destruct (js_get_truthy result "id" Hr) as [id ->]. simpl. intros [= <- <-].
    split_and!; [done|done|]. rewrite <- app_assoc.
    destruct (truthy (ps_productImage st)); simpl; do 2 eexists; (split; [done|set_solver]).
  - intros [= <- <-]. split_and!; [done|done|]. rewrite <- app_assoc.
    do 2 eexists. split; [done|]. set_solver.
Qed.

Lemma handleSubmit_parts result st st' c :
  handleSubmit result st = inr (st', Some c) →
  ps_values st' = ps_values st ∧ ps_fromData st' = call_parts c ∧
  occurrences "bodyData" (ps_fromData st').*1 = S (occurrences "bodyData" (ps_fromData st).*1).
Proof.
  unfold handleSubmit. destruct (schema (ps_values st)); [|done].
  destruct (onSubmit_send result (ps_values st) st) as [|[st1 c1]] eqn:Hs; simpl; [done|].
  intros [= <- <-]. apply onSubmit_send_parts in Hs as (Hv & Hp & b & extra & Hf & Hx).
  split_and!; [done|done|].
  rewrite Hf, fmap_app, occurrences_app, fmap_cons, occurrences_cons,
    (occurrences_not_in _ extra.*1 Hx).
  rewrite decide_True by done. lia.
Qed.

(** C17. [fromData] is created once per render and every submission of
    that render appends to it: two submissions handled by the same
    render, before the component renders again (the mutation trigger
    itself causes a render, so only submissions that both reach
    [onSubmit] before it do this), send a [FormData] whose second copy
    holds two [bodyData] parts, while a submission after a render sends
    one. *)
Theorem submit_twice_same_render result st st1 c1 st2 c2 :
  ps_fromData st = [] →
  handleSubmit result st = inr (st1, Some c1) → handleSubmit result st1 = inr (st2, Some c2) →
  occurrences "bodyData" (call_parts c1).*1 = 1%nat ∧
  occurrences "bodyData" (call_parts c2).*1 = 2%nat ∧
  ∀ st3 c3, handleSubmit result (render st1) = inr (st3, Some c3) →
            occurrences "bodyData" (call_parts c3).*1 = 1%nat.
Proof.
  intros H0 H1 H2.
  destruct (handleSubmit_parts _ _ _ _ H1) as (_ & Hp1 & Ho1).
  destruct (handleSubmit_parts _ _ _ _ H2) as (_ & Hp2 & Ho2).
  rewrite <- Hp1, <- Hp2, Ho2, Ho1, H0. split_and!; [done|done|].
  intros st3 c3 H3. destruct (handleSubmit_parts _ _ _ _ H3) as (_ & Hp3 & Ho3).
  by rewrite <- Hp3, Ho3.
Qed.

Definition demo_form : pstate := set_values shirt pstate_init.

Definition demo_after (st : pstate) : pstate * mcall :=
  match handleSubmit JUndefined st with
  | inr (st', Some c) => (st', c)
  | _ => (st, MCall ProductApi.addProduct JUndefined)
  end.

Lemma submit_twice_same_render_witness :
  ps_fromData demo_form = [] ∧
  handleSubmit JUndefined demo_form = inr ((demo_after demo_form).1, Some (demo_after demo_form).2) ∧
  handleSubmit JUndefined (demo_after demo_form).1 =
    inr ((demo_after (demo_after demo_form).1).1, Some (demo_after (demo_after demo_form).1).2) ∧
  occurrences "bodyData" (call_parts (demo_after demo_form).2).*1 = 1%nat ∧
  occurrences "bodyData" (call_parts (demo_after (demo_after demo_form).1).2).*1 = 2%nat ∧
  ∀ st3 c3, handleSubmit JUndefined (render (demo_after demo_form).1) = inr (st3, Some c3) →
            occurrences "bodyData" (call_parts c3).*1 = 1%nat.
Proof.
  assert (handleSubmit JUndefined demo_form =
          inr ((demo_after demo_form).1, Some (demo_after demo_form).2)) as H1 by reflexivity.
  assert (handleSubmit JUndefined (demo_after demo_form).1 =
          inr ((demo_after (demo_after demo_form).1).1, Some (demo_after (demo_after demo_form).1).2))
    as H2 by reflexivity.
  split_and!; [reflexivity|exact H1|exact H2|..];
    apply (submit_twice_same_render JUndefined demo_form _ _ _ _ eq_refl H1 H2).
Defined.

(** ** From the typed texts to the gate *)

Lemma fill_form_values name cat color size price stock desc st :
  ps_values (fill_form name cat color size price stock desc st) =
  PForm (JStr name) (JStr cat) (JStr color) (JStr size) (valueAsNumber price) (valueAsNumber stock)
        (JStr desc).
Proof. reflexivity. Qed.

Lemma nonempty_text_str s : nonempty_text (JStr s) ↔ s ≠ "".
Proof. unfold nonempty_text. naive_solver. Qed.

(** C10. The gate on what the user types: with every control filled in,
    the form calls a product mutation exactly when the name, color, size
    and description are non-empty, a category other than the placeholder
    is picked, the price text is a number that stays positive as a double
    (above [2^-1075], below the overflow bound) and the stock text a
    number that is at least 0 as a double (at least [-2^-1075], since a
    smaller negative magnitude reads as 0, and below the overflow bound),
    as HTML parses a number input: an empty or malformed text, or one
    out of the range of doubles, is [NaN] and blocks the submission. *)
Theorem typed_submit_gate result name cat color size price stock desc st :
  cat ∈ category_options →
  (∃ st' c, handleSubmit result (fill_form name cat color size price stock desc st) = inr (st', Some c)) ↔
  name ≠ "" ∧ cat ∈ ["Clothes"; "Weed"] ∧ color ≠ "" ∧ size ≠ "" ∧ desc ≠ "" ∧
  (∃ q, parse_float price = Some q ∧ (double_underflow < q)%Q ∧ (q < double_overflow)%Q) ∧
  (∃ q, parse_float stock = Some q ∧ (- double_underflow <= q)%Q ∧ (q < double_overflow)%Q).
Proof.
  intros Hcat. rewrite handleSubmit_calls, fill_form_values. unfold product_form_ok. simpl.
  rewrite !nonempty_text_str, valueAsNumber_pos, valueAsNumber_nonneg.
  assert (cat ≠ "" ↔ cat ∈ ["Clothes"; "Weed"]) as ->.
  { unfold category_options in Hcat. split; [|set_solver].
    intros Hne. elem_of_cases Hcat; set_solver. }
  naive_solver.
Qed.

Lemma typed_submit_gate_witness :
  "Clothes" ∈ category_options ∧
  ((∃ st' c, handleSubmit JUndefined
               (fill_form "Shirt" "Clothes" "Red" "S,M" "1e-400" "-1e-400" "desc" pstate_init)
               = inr (st', Some c)) ↔
   "Shirt" ≠ "" ∧ "Clothes" ∈ ["Clothes"; "Weed"] ∧ "Red" ≠ "" ∧ "S,M" ≠ "" ∧ "desc" ≠ "" ∧
   (∃ q, parse_float "1e-400" = Some q ∧ (double_underflow < q)%Q ∧ (q < double_overflow)%Q) ∧
   (∃ q, parse_float "-1e-400" = Some q ∧ (- double_underflow <= q)%Q ∧ (q < double_overflow)%Q)).
Proof.
  assert ("Clothes" ∈ category_options) as Hc by (unfold category_options; elem_of_search).
  split; [exact Hc|]. exact (typed_submit_gate JUndefined "Shirt" "Clothes" "Red" "S,M" "1e-400" "-1e-400"
                                "desc" pstate_init Hc).
Defined.

End AddProductProofs.
