(* ===== verification/Navbar.v ===== *)
(** * Navbar: the sidebar of [src/src/components/Navbar/NavbarSlider.tsx]

    - [navigation] is the menu of lines 36-49 (icons are not modelled);
    - [toggleDropdown] is lines 58-64 on the list [openDropdowns];
      [dropdowns_reach] is the values that list takes from
      [useState([])] (line 54) through clicks on the buttons drawn;
    - [renderNavItem] is lines 66-128, reduced to what it decides: the
      label, the link target ([item.route || '#']), whether the item is
      highlighted as active, whether a dropdown is open and which of its
      sub-links are shown and active;
    - [sidebar_view] is the JSX of lines 139-188: toggle icon, width,
      logo, the items, the greeting [Hello, {name}] and the logout label;
    - [handleLogOut] is lines 132-137: it dispatches the auth slice's
      [logOut()] (the slice is not in the repository snapshot; it clears
      the signed-in user's name), removes the ["accessToken"] cookie and
      navigates to ["/login"].  It is composed with [App] to show what a
      logout leaves in the query cache. *)

From stdpp Require Import base list decidable sets strings gmap fin_maps options.
From S2P Require Import Prelude Js Transport Endpoints Routes Cache App.

Local Open Scope string_scope.

Module NavbarSlider.

Inductive nav_item := NavItem {
  ni_label : string;
  ni_route : option string;
  ni_subItems : option (list nav_item)
}.

Definition navigation : list nav_item := [
  NavItem "Dashboard" (Some "/") None;
  NavItem "E-commerce" None (Some [
    NavItem "Products" (Some "/all-products") None;
    NavItem "Add Product" (Some "/add-product") None;
    NavItem "Order History" (Some "/order-history") None]);
  NavItem "Users" (Some "/users") None;
  NavItem "Blog" (Some "/add-blog") None
].

(** [prev.includes(label) ? prev.filter(item => item !== label)
                            : [...prev, label]]. *)
Definition toggleDropdown (label : string) (prev : list string) : list string :=
  if bool_decide (label ∈ prev) then filter (λ item, item ≠ label) prev
  else (prev ++ [label])%list.

(** What [renderNavItem] draws for an item. *)
Inductive nav_view :=
  | VDropdown (label : string) (open : bool) (shown : list (string * string * bool))
  | VLink (label : string) (href : string) (active : bool) (show_label : bool).

Definition href_of (r : option string) : string := default "#" r.

(** [path === item.route] ([undefined] never equals a path). *)
Definition is_route (path : string) (r : option string) : bool :=
  match r with Some x => bool_decide (x = path) | None => false end.

Definition renderNavItem (path : string) (openDropdowns : list string) (isOpen : bool)
    (item : nav_item) : nav_view :=
  let isDropdownOpen := bool_decide (ni_label item ∈ openDropdowns) in
  match ni_subItems item with
  | Some subs =>
      VDropdown (ni_label item) isDropdownOpen
        (if isDropdownOpen && isOpen
         then map (λ s, (ni_label s, href_of (ni_route s), is_route path (ni_route s))) subs
         else [])
  | None => VLink (ni_label item) (href_of (ni_route item)) (is_route path (ni_route item)) isOpen
  end.

(** ** The session around the sidebar *)

(** The state [handleLogOut] touches: the application (cache, cookies,
    requests), the signed-in user's name of the auth slice, and the path. *)
Record session := Session { ss_app : app; ss_name : string; ss_path : string }.

(** [dispatch(logOut()); Cookies.remove("accessToken"); route.push("/login")];
    the auth slice's [logOut] reducer clears the name. *)
Definition handleLogOut (s : session) : session :=
  Session (app_remove_cookie "accessToken" (ss_app s)) "" "/login".

(** The login page is not in the repository: a login is modelled as the
    [loginUser] mutation succeeding, after which the token is stored. *)
Definition login_flow (tok : string) (creds : jsval) (st : app) : app :=
  app_set_cookie "accessToken" tok (app_mutate UserApi.loginUser creds true st).

(** The dropdown buttons the sidebar draws: one per item with
    sub-items, whose [onClick] is [toggleDropdown(item.label)]. *)
Definition dropdown_buttons (path : string) (openDropdowns : list string) (isOpen : bool)
    : list string :=
  omap (λ v, match v with VDropdown l _ _ => Some l | VLink _ _ _ _ => None end)
       (renderNavItem path openDropdowns isOpen <$> navigation).

(** The values [openDropdowns] takes: [useState<string[]>([])], then a
    click on a dropdown button drawn in the current state. *)
Inductive dropdowns_reach : list string → Prop :=
  | dr_init : dropdowns_reach []
  | dr_click path isOpen od l :
      dropdowns_reach od → l ∈ dropdown_buttons path od isOpen →
      dropdowns_reach (toggleDropdown l od).

(** What the sidebar draws (lines 139-188): the toggle button's icon
    ([IoClose] when open, [FiMenu] when closed), the width class, the
    logo, the items, the greeting [Hello, {name}] when [name] is truthy
    (hidden when the sidebar is closed), and the logout button's label. *)
Record sidebar := Sidebar {
  sb_close_icon : bool;
  sb_width : string;
  sb_logo : bool;
  sb_items : list nav_view;
  sb_greeting : option (string * bool);
  sb_logout_label : bool
}.

Definition sidebar_view (isOpen : bool) (name path : string) (openDropdowns : list string)
    : sidebar :=
  Sidebar isOpen (if isOpen then "w-[250px]" else "w-[80px]") isOpen
    (renderNavItem path openDropdowns isOpen <$> navigation)
    (if bool_decide (name = "") then None else Some ("Hello, " +:+ name, isOpen))
    isOpen.

End NavbarSlider.

Module NavbarProofs.
Import NavbarSlider.

(** ** Dropdowns *)

#[export] Instance toggleDropdown_proper :
  Proper (eq ==> Permutation ==> Permutation) toggleDropdown.
Proof.
  intros l ? <- xs ys Hxy. unfold toggleDropdown.
  assert (bool_decide (l ∈ xs) = bool_decide (l ∈ ys)) as ->.
  { apply bool_decide_ext. by rewrite Hxy. }
  case_bool_decide; [by rewrite Hxy|by rewrite Hxy].
Qed.

Lemma elem_of_toggleDropdown l xs x :
  x ∈ toggleDropdown l xs ↔ (x ∈ xs ∧ x ≠ l) ∨ (x = l ∧ l ∉ xs).
Proof.
  unfold toggleDropdown. case_bool_decide.
  - rewrite list_elem_of_filter. naive_solver.
  - rewrite elem_of_app, list_elem_of_singleton. naive_solver.
Qed.

Lemma toggleDropdown_NoDup l xs : NoDup xs → NoDup (toggleDropdown l xs).
Proof.
  intros Hnd. unfold toggleDropdown. case_bool_decide.
  - by apply NoDup_filter.
  - apply NoDup_app. split_and!; [done| |apply NoDup_singleton]. set_solver.
Qed.

Lemma filter_ne_in_perm (l : string) (xs : list string) :
  NoDup xs → l ∈ xs → (filter (λ item, item ≠ l) xs ++ [l])%list ≡ₚ xs.
Proof.
  induction xs as [|x xs IH]; intros Hnd Hin; [set_solver|].
  apply NoDup_cons in Hnd as [Hx Hnd]. rewrite list.filter_cons.
  case_decide as Hxl.
  - simpl. constructor. apply IH; [done|set_solver].
  - assert (x = l) as -> by (destruct (decide (x = l)); naive_solver).
    rewrite filter_all_true; [by rewrite Permutation_app_comm|].
    intros y Hy ->. done.
Qed.
Lemma toggleDropdown_twice (l : string) (xs : list string) :
  NoDup xs → toggleDropdown l (toggleDropdown l xs) ≡ₚ xs.
Proof.
  intros Hnd. unfold toggleDropdown at 2. case_bool_decide as Hl.
  - unfold toggleDropdown. rewrite bool_decide_false.
    + by apply filter_ne_in_perm.
    + rewrite list_elem_of_filter. naive_solver.
  - unfold toggleDropdown. rewrite bool_decide_true by set_solver.
    rewrite list.filter_app, filter_all_true by (intros y Hy ->; done).
    rewrite list.filter_cons, decide_False; [by rewrite app_nil_r|naive_solver].
Qed.

(** The view of an item depends on the open dropdowns as a set. *)
#[export] Instance renderNavItem_proper path :
  Proper (Permutation ==> eq ==> eq ==> eq) (renderNavItem path).
Proof.
  intros xs ys Hxy isOpen ? <- item ? <-. unfold renderNavItem.
  assert (bool_decide (ni_label item ∈ xs) = bool_decide (ni_label item ∈ ys)) as ->.
  { apply bool_decide_ext. by rewrite Hxy. }
  done.
Qed.

(** C27. [toggleDropdown] flips the clicked dropdown and no other, keeps
    the list of open dropdowns free of duplicates, and clicking the same
    dropdown twice draws every sidebar item exactly as before (the list
    may come back in another order, which the view does not see). *)
Theorem toggleDropdown_spec l xs :
  NoDup xs →
  NoDup (toggleDropdown l xs) ∧
  (∀ x, x ∈ toggleDropdown l xs ↔ (x ∈ xs ∧ x ≠ l) ∨ (x = l ∧ l ∉ xs)) ∧
  (∀ path isOpen item,
     renderNavItem path (toggleDropdown l (toggleDropdown l xs)) isOpen item =
     renderNavItem path xs isOpen item).
Proof.
  intros Hnd. split_and!.
  - by apply toggleDropdown_NoDup.
  - intros x. apply elem_of_toggleDropdown.
  - intros path isOpen item. by rewrite toggleDropdown_twice.
Qed.

Lemma toggleDropdown_spec_witness :
  NoDup ["Users"] ∧
  NoDup (toggleDropdown "E-commerce" ["Users"]) ∧
  (∀ x, x ∈ toggleDropdown "E-commerce" ["Users"] ↔
        (x ∈ ["Users"] ∧ x ≠ "E-commerce") ∨ (x = "E-commerce" ∧ "E-commerce" ∉ ["Users"])) ∧
  (∀ path isOpen item,
     renderNavItem path (toggleDropdown "E-commerce" (toggleDropdown "E-commerce" ["Users"])) isOpen item =
     renderNavItem path ["Users"] isOpen item).
Proof.
  assert (NoDup ["Users"]) as Hnd by (apply NoDup_singleton).
  split; [exact Hnd|]. exact (toggleDropdown_spec "E-commerce" ["Users"] Hnd).
Defined.

(** Whatever the path, the open dropdowns and [isOpen], the only
    dropdown button drawn is the one of ["E-commerce"]. *)
Lemma dropdown_buttons_eq path od isOpen : dropdown_buttons path od isOpen = ["E-commerce"].
Proof. reflexivity. Qed.

Lemma dropdowns_reach_sub od : dropdowns_reach od → NoDup od ∧ od ⊆ ["E-commerce"].
Proof.
  induction 1 as [|path isOpen od l _ [Hnd Hsub] Hl]; [split; [constructor|set_solver]|].
  rewrite dropdown_buttons_eq in Hl. split; [by apply toggleDropdown_NoDup|].
  intros x Hx%elem_of_toggleDropdown. set_solver.
Qed.

(** C26. The sidebar's [openDropdowns] stays bounded: whatever the
    clicks on the buttons it draws, the list has no duplicates, holds
    only ["E-commerce"], the one item with sub-items, and so has at most
    one element; [toggleDropdown]'s append never grows it further. *)
Theorem open_dropdowns_bounded od :
  dropdowns_reach od → NoDup od ∧ od ⊆ ["E-commerce"] ∧ (length od ≤ 1)%nat.
Proof.
  intros Hr. destruct (dropdowns_reach_sub od Hr) as [Hnd Hsub]. split_and!; [done|done|].
  change 1%nat with (length ["E-commerce"]). apply submseteq_length, NoDup_submseteq; done.
Qed.

Lemma open_dropdowns_bounded_witness :
  dropdowns_reach ["E-commerce"] ∧
  NoDup ["E-commerce"] ∧ ["E-commerce"] ⊆ ["E-commerce"] ∧ (length ["E-commerce"] ≤ 1)%nat.
Proof.
  assert (dropdowns_reach ["E-commerce"]) as Hr.
  { apply (dr_click "/" true [] "E-commerce" dr_init). rewrite dropdown_buttons_eq. set_solver. }
  split; [exact Hr|exact (open_dropdowns_bounded _ Hr)].
Defined.

(** ** Logging out and in again *)

(** No endpoint provides the tag ["logIn"] that [loginUser] invalidates. *)
Lemma logIn_unprovided n t : t ∈ invalidates_of "loginUser" → t ∉ provides_of n.
Proof.
  change (invalidates_of "loginUser") with ["logIn"].
  intros ->%list_elem_of_singleton. simpl.
  destruct (find_endpoint n) as [ep|] eqn:Hf; simpl; [|set_solver].
  apply find_endpoint_elem in Hf. endpoint_cases Hf; vm_compute; set_solver.
Qed.

(** The login mutation sends its request with the cookies of the moment
    and, whether it succeeds or fails, leaves the cache as it was. *)
Lemma app_mutate_login creds ok st :
  app_mutate UserApi.loginUser creds ok st =
  App (a_cache st) (a_jar st) (a_args st)
      (a_log st ++ [fetchBaseQuery (a_jar st) (FetchArgs "/auth/login" POST creds)])%list.
Proof.
  unfold app_mutate. cbn [UserApi.loginUser ep_query ep_name mret js_result_ret].
  rewrite with_cache_noop; [done|]. apply mutation_settled_unprovided, logIn_unprovided.
Qed.

Lemma login_flow_eq tok creds st :
  login_flow tok creds st =
  App (a_cache st) (<["accessToken" := tok]> (a_jar st)) (a_args st)
      (a_log st ++ [fetchBaseQuery (a_jar st) (FetchArgs "/auth/login" POST creds)])%list.
Proof. unfold login_flow. by rewrite app_mutate_login. Qed.

(** C8. [handleLogOut] removes the token but leaves the query cache: when
    the next user logs in, the only request sent is the login request
    (which carries no [Authorization] header), and a view that mounts a
    query whose entry the previous session fetched is served the previous
    session's data, with no request sent for it. *)
Theorem relogin_serves_stale_cache s tok creds ep arg fa e :
  ep ∈ api_endpoints → ep_query ep arg = inr fa →
  c_entries (a_cache (ss_app s)) !! query_key ep arg = Some e → e_status e = Fulfilled →
  let jar' := delete "accessToken" (a_jar (ss_app s)) in
  let st' := app_mount ep arg (login_flow tok creds (ss_app (handleLogOut s))) in
  a_log st' = (a_log (ss_app s) ++ [fetchBaseQuery jar' (FetchArgs "/auth/login" POST creds)])%list ∧
  headers_get "Authorization" (rq_headers (fetchBaseQuery jar' (FetchArgs "/auth/login" POST creds))) = None ∧
  view (c_entries (a_cache st') !! query_key ep arg) = Some (Fulfilled, e_data e, S (e_subs e)).
Proof.
  intros Hin Hq He Hst jar' st'. subst st'.
  unfold handleLogOut. rewrite login_flow_eq, (app_mount_ok _ _ _ fa) by done.
  destruct (subscribe_reuse (query_key ep arg) (a_cache (ss_app s)) e) as [Hs Hv];
    [done|by rewrite Hst|].
  split_and!.
  - erewrite with_cache_log; [|simpl; rewrite Hs; symmetry; apply app_nil_r].
    simpl. by rewrite app_nil_r.
  - rewrite fetchBaseQuery_auth. unfold auth_of_cookie, jar'. by rewrite lookup_delete_eq.
  - simpl. by rewrite Hv, Hst.
Qed.

Lemma relogin_serves_stale_cache_witness :
  let e := Entry Fulfilled (Some (JArr [])) None 0 in
  let s1 := Session (App (CState {[query_key ProductApi.allProducts JUndefined := e]} [] 1
                            [query_key ProductApi.allProducts JUndefined])
                         demo_jar {[query_key ProductApi.allProducts JUndefined := JUndefined]} [])
                    "admin" "/" in
  let jar' := delete "accessToken" (a_jar (ss_app s1)) in
  let st' := app_mount ProductApi.allProducts JUndefined
               (login_flow "tok2" (JObj []) (ss_app (handleLogOut s1))) in
  a_log st' = (a_log (ss_app s1) ++ [fetchBaseQuery jar' (FetchArgs "/auth/login" POST (JObj []))])%list ∧
  headers_get "Authorization" (rq_headers (fetchBaseQuery jar' (FetchArgs "/auth/login" POST (JObj [])))) = None ∧
  view (c_entries (a_cache st') !! query_key ProductApi.allProducts JUndefined) =
    Some (Fulfilled, e_data e, S (e_subs e)).
Proof.
  intros e s1 jar' st'.
  apply (relogin_serves_stale_cache s1 "tok2" (JObj []) ProductApi.allProducts JUndefined
           (FetchArgs "/products" GET JUndefined) e); [in_api|reflexivity| |reflexivity].
  reflexivity.
Defined.

End NavbarProofs.
