(* ===== verification/Blog.v ===== *)
(** * Blog: the create/edit blog form of [src/src/components/blogs/AddBlog.tsx]

    - [params] are the URL search parameters the page reads (lines 17-19):
      [id], [title] and [image], each [null] when absent;
    - [bstate] is the component's state (lines 26-34): the image preview,
      the uploaded image's URL, the [formData] object
      [{title, image, description}], the toasts shown and the routes
      pushed;
    - [populate] is the [useEffect] of lines 37-41; [handleImageUpload]
      (lines 43-68) is split at its [await] into [upload_send] and
      [upload_settle]; [handleCancelImage], [handleChange] and
      [handleEditorChange] are lines 70-82; [handleSubmit] (lines 84-101)
      is split into [submit_send] and [submit_settle];
    - [bevent] lists what happens on the page (the user's actions and the
      responses to the requests they started), and [run] replays a
      sequence of events;
    - [blog_view] is what the page draws (lines 103-200): the heading,
      the image area, the title input's value and the submit label.
    The proofs replay sessions with two generic lemmas: [run_from_inv]
    for a property of the state, [run_from_calls] for one of the calls
    made, and [run_from_track] against a reference fold.
    The text input named ["title"] is the only element bound to
    [handleChange] (line 156), so [EvTitle] is its only change event.
    [fileInputRef] is not modelled: the file input is rendered only while
    no preview is shown (lines 114-146), so [handleCancelImage] never finds
    it mounted, and a submission only clears it. *)

From stdpp Require Import base list decidable sets strings options.
From Stdlib Require Import Ascii QArith.
From S2P Require Import Prelude Js Transport Endpoints.

Local Open Scope string_scope.

Module AddBlog.

(** [searchParams.get(k)]: a string, or [null]. *)
Record params := Params { p_id : option string; p_title : option string; p_image : option string }.

Definition sp_get (o : option string) : jsval :=
  match o with Some s => JStr s | None => JNull end.

Definition blogId (ps : params) : jsval := sp_get (p_id ps).
Definition blogTitle (ps : params) : jsval := js_or (sp_get (p_title ps)) (JStr "").
Definition blogImage (ps : params) : jsval := js_or (sp_get (p_image ps)) (JStr "").

(** [toast.success(m)] and [toast.error(m)] of react-toastify. *)
Inductive btoast := BSuccess (m : jsval) | BError (m : jsval).

Record bstate := BState {
  bs_imagePreview : jsval;   (** [string | null] *)
  bs_imageName : jsval;
  bs_formData : jsval;       (** the object [{title, image, description}] *)
  bs_toasts : list btoast;
  bs_pushed : list string    (** [router.push] targets *)
}.

Definition empty_form : jsval :=
  JObj [("title", JStr ""); ("image", JStr ""); ("description", JStr "")].

Definition bstate_init (ps : params) : bstate :=
  BState (js_or (blogImage ps) JNull) (JStr "") empty_form [] [].

Definition set_form (f : jsval) (st : bstate) : bstate :=
  BState (bs_imagePreview st) (bs_imageName st) f (bs_toasts st) (bs_pushed st).

Definition toast (t : btoast) (st : bstate) : bstate :=
  BState (bs_imagePreview st) (bs_imageName st) (bs_formData st) (bs_toasts st ++ [t])%list
         (bs_pushed st).

Definition set_preview (p : jsval) (st : bstate) : bstate :=
  BState p (bs_imageName st) (bs_formData st) (bs_toasts st) (bs_pushed st).

Definition push (r : string) (st : bstate) : bstate :=
  BState (bs_imagePreview st) (bs_imageName st) (bs_formData st) (bs_toasts st)
         (bs_pushed st ++ [r])%list.

(** [if (blogId) setFormData({ title: blogTitle, image: blogImage, description: "" })]. *)
Definition populate (ps : params) (st : bstate) : bstate :=
  if truthy (blogId ps)
  then set_form (JObj [("title", blogTitle ps); ("image", blogImage ps); ("description", JStr "")]) st
  else st.

(** [URL.createObjectURL(file)] (the URL's text is not modelled). *)
Definition object_url (name : string) : string := "blob:" +:+ name.

(** [handleImageUpload] up to [await]: no file gives an error toast;
    a file is previewed at once and sent to [upload] in a [FormData]. *)
Definition upload_send (file : option string) (st : bstate) : bstate * option mcall :=
  match file with
  | None => (toast (BError (JStr "No file selected!")) st, None)
  | Some f =>
      (set_preview (JStr (object_url f)) st,
       Some (MCall UploadApi.upload (JFormData [("file", FVFile f)])))
  end.

(** [handleImageUpload] after [await upload(...).unwrap()]. *)
Definition upload_settle (out : mresult) (st : bstate) : bstate :=
  match out with
  | MData response =>
      let imageUrl := js_opt_get (js_opt_get response "data") "url" in
      if truthy imageUrl then
        toast (BSuccess (JStr "Image uploaded successfully!"))
          (BState (bs_imagePreview st) imageUrl (js_spread_set (bs_formData st) "image" imageUrl)
                  (bs_toasts st) (bs_pushed st))
      else toast (BError (JStr "No image URL provided in the response.")) st
  | MError error =>
      toast (BError (js_or (js_opt_get (js_opt_get error "data") "message")
                           (JStr "Failed to upload image"))) st
  end.

Definition handleCancelImage (st : bstate) : bstate :=
  set_form (js_spread_set (bs_formData st) "image" (JStr "")) (set_preview JNull st).

(** [setFormData(prev => ({ ...prev, [e.target.name]: e.target.value }))]. *)
Definition handleChange (name value : string) (st : bstate) : bstate :=
  set_form (js_spread_set (bs_formData st) name (JStr value)) st.

Definition handleEditorChange (content : string) (st : bstate) : bstate :=
  set_form (js_spread_set (bs_formData st) "description" (JStr content)) st.

(** [handleSubmit] up to [await]: no check of the form is made. *)
Definition submit_send (ps : params) (st : bstate) : mcall :=
  if truthy (blogId ps)
  then MCall BlogApi.updateBlog (JObj [("id", blogId ps); ("data", bs_formData st)])
  else MCall BlogApi.addblog (bs_formData st).

(** [handleSubmit] after [await ... .unwrap()]. *)
Definition submit_settle (ps : params) (out : mresult) (st : bstate) : bstate :=
  match out with
  | MError _ => toast (BError (JStr "Failed to add blog")) st
  | MData _ =>
      if truthy (blogId ps)
      then push "/blog" (toast (BSuccess (JStr "Blog updated successfully!")) st)
      else push "/blog"
             (set_preview JNull (set_form empty_form
                (toast (BSuccess (JStr "Blog added successfully!")) st)))
  end.

(** ** Sessions on the page *)

(** What happens on the page: the user's actions, and the responses to
    the requests they started.  A response is its own event, so user
    actions can come between a request and its response. *)
Inductive bevent :=
  | EvTitle (value : string)
  | EvEditor (content : string)
  | EvCancelImage
  | EvUploadPick (file : option string)
  | EvUploadDone (out : mresult)
  | EvSubmit
  | EvSubmitDone (out : mresult).

(** One event: its state change and the mutation it calls, if any. *)
Definition step (ps : params) (ev : bevent) (st : bstate) : bstate * option mcall :=
  match ev with
  | EvTitle v => (handleChange "title" v st, None)
  | EvEditor c => (handleEditorChange c st, None)
  | EvCancelImage => (handleCancelImage st, None)
  | EvUploadPick file => upload_send file st
  | EvUploadDone out => (upload_settle out st, None)
  | EvSubmit => (st, Some (submit_send ps st))
  | EvSubmitDone out => (submit_settle ps out st, None)
  end.

(** The page opened with [ps], then the events [evs]: the final state and
    the mutations called, in order. *)
Fixpoint run_from (ps : params) (evs : list bevent) (st : bstate) : bstate * list mcall :=
  match evs with
  | [] => (st, [])
  | ev :: evs' =>
      let '(st1, c) := step ps ev st in
      let '(st2, cs) := run_from ps evs' st1 in
      (st2, (option_list c ++ cs)%list)
  end.

Definition run (ps : params) (evs : list bevent) : bstate * list mcall :=
  run_from ps evs (populate ps (bstate_init ps)).

(** ** What the page draws (lines 103-200) *)

(** The image area: [{imagePreview ? (the preview and its cancel button)
    : (the file picker)}]. *)
Inductive bimage_area := BPreview (src : jsval) | BPicker.

Definition image_area_of (preview : jsval) : bimage_area :=
  if truthy preview then BPreview preview else BPicker.

(** The heading, the image area, the value of the title input and the
    label of the submit button. *)
Record bview := BView {
  bv_heading : string;
  bv_image : bimage_area;
  bv_title : jsval;
  bv_button : string
}.

Definition blog_view (ps : params) (st : bstate) : bview :=
  BView (if truthy (blogId ps) then "Edit Blog" else "Create Blog")
        (image_area_of (bs_imagePreview st))
        (js_opt_get (bs_formData st) "title")
        (if truthy (blogId ps) then "Update Blog" else "Add Blog").

End AddBlog.

Module AddBlogProofs.
Import AddBlog.

(** ** Replaying events *)

Lemma run_from_app ps evs1 evs2 st :
  run_from ps (evs1 ++ evs2) st =
  let '(st1, cs1) := run_from ps evs1 st in
  let '(st2, cs2) := run_from ps evs2 st1 in (st2, (cs1 ++ cs2)%list).
Proof.
  revert st. induction evs1 as [|ev evs1 IH]; intros st; simpl.
  - by destruct (run_from ps evs2 st).
  - destruct (step ps ev st) as [st1 c]. rewrite IH.
    destruct (run_from ps evs1 st1) as [st2 cs1], (run_from ps evs2 st2) as [st3 cs2].
    by rewrite app_assoc.
Qed.

(** A property of the state that every event of [evs] preserves holds
    after them. *)
Lemma run_from_inv (P : bstate → Prop) ps evs st :
  (∀ ev st, ev ∈ evs → P st → P (step ps ev st).1) → P st → P (run_from ps evs st).1.
Proof.
  revert st. induction evs as [|ev evs IH]; intros st Hstep Hst; simpl; [done|].
  destruct (step ps ev st) as [st1 c] eqn:Hs.
  specialize (IH st1). destruct (run_from ps evs st1) as [st2 cs]. simpl in *.
  apply IH; [intros ev' st' Hev; apply Hstep; set_solver|].
  replace st1 with (step ps ev st).1 by by rewrite Hs. apply Hstep; [set_solver|done].
Qed.

(** ** The form object *)

(** The form is an object with distinct keys whose field [k] is [v]. *)
Definition form_has (k : string) (v : jsval) (f : jsval) : Prop :=
  ∃ fs, f = JObj fs ∧ NoDup fs.*1 ∧ js_get_field fs k = v.

Lemma form_has_spread k v k' v' f :
  k' ≠ k → form_has k v f → form_has k v (js_spread_set f k' v').
Proof.
  intros Hne (fs & -> & Hnd & Hk). exists (set_field k' v' fs). split_and!; [done| |].
  - by apply set_field_NoDup.
  - rewrite js_get_field_set_field by done. by rewrite bool_decide_false.
Qed.

Lemma form_has_spread_eq k v f fs :
  f = JObj fs → NoDup fs.*1 → form_has k v (js_spread_set f k v).
Proof.
  intros -> Hnd. exists (set_field k v fs). split_and!; [done|by apply set_field_NoDup|].
  rewrite js_get_field_set_field by done. by rewrite bool_decide_true.
Qed.

(** The three keys of the blog form are distinct. *)
Lemma blog_form_NoDup (t i d : jsval) :
  NoDup ([("title", t); ("image", i); ("description", d)] : list (string * jsval)).*1.
Proof. repeat constructor; set_solver. Qed.

Lemma form_has_lit k v t i d :
  js_get_field [("title", t); ("image", i); ("description", d)] k = v →
  form_has k v (JObj [("title", t); ("image", i); ("description", d)]).
Proof. intros Hk. eexists. split_and!; [done|apply blog_form_NoDup|done]. Qed.

Lemma form_has_empty_description : form_has "description" (JStr "") empty_form.
Proof. by apply form_has_lit. Qed.

(** Every event but an editor change keeps a blank description. *)
Lemma step_description_blank ps ev st :
  (∀ c, ev ≠ EvEditor c) →
  form_has "description" (JStr "") (bs_formData st) →
  form_has "description" (JStr "") (bs_formData (step ps ev st).1).
Proof.
  intros Hev Hf. destruct ev as [v|c| |[f|]|[res|err]| |[res|err]]; simpl.
  - by apply form_has_spread.
  - by destruct (Hev c).
  - by apply form_has_spread.
  - done.
  - done.
  - by case_match; [apply form_has_spread|].
  - done.
  - done.
  - by case_match; [|apply form_has_empty_description].
  - done.
Qed.

Lemma populate_description_blank ps :
  form_has "description" (JStr "") (bs_formData (populate ps (bstate_init ps))).
Proof.
  unfold populate. case_match; [|apply form_has_empty_description].
  by apply form_has_lit.
Qed.

(** C12. Editing a blog wipes its description: the page opened with a
    blog's [id] starts from an empty description (the editor shows its
    placeholder, not the blog's text), so unless the user types in the
    editor, whatever else they do, submitting sends
    [PATCH /blogs/<id>] with the description [""]. *)
Theorem edit_submits_blank_description ps id evs :
  p_id ps = Some id → id ≠ "" → Forall (λ ev, ∀ c, ev ≠ EvEditor c) evs →
  let st := (run ps evs).1 in
  mc_ep (submit_send ps st) = BlogApi.updateBlog ∧
  ∃ fa, ep_query BlogApi.updateBlog (mc_arg (submit_send ps st)) = inr fa ∧
        fa_method fa = PATCH ∧ fa_url fa = "/blogs/" +:+ id ∧
        js_get (fa_body fa) "description" = inr (JStr "").
Proof.
  intros Hid Hne Hevs st.
  assert (form_has "description" (JStr "") (bs_formData st)) as (fs & Hfs & _ & Hd).
  { subst st. unfold run. apply run_from_inv; [|apply populate_description_blank].
    intros ev st' Hev. apply step_description_blank. by eapply Forall_forall in Hevs. }
  unfold submit_send, blogId, sp_get. rewrite Hid.
  assert (truthy (JStr id) = true) as -> by (simpl; by rewrite bool_decide_false).
  split; [done|]. rewrite Hfs. eexists. split; [reflexivity|]. simpl. by rewrite Hd.
Qed.

Definition demo_edit : params := Params (Some "b1") (Some "Spring sale") None.

Lemma edit_submits_blank_description_witness :
  p_id demo_edit = Some "b1" ∧ "b1" ≠ "" ∧
  Forall (λ ev, ∀ c, ev ≠ EvEditor c) [EvTitle "Summer sale"; EvCancelImage] ∧
  let st := (run demo_edit [EvTitle "Summer sale"; EvCancelImage]).1 in
  mc_ep (submit_send demo_edit st) = BlogApi.updateBlog ∧
  ∃ fa, ep_query BlogApi.updateBlog (mc_arg (submit_send demo_edit st)) = inr fa ∧
        fa_method fa = PATCH ∧ fa_url fa = "/blogs/" +:+ "b1" ∧
        js_get (fa_body fa) "description" = inr (JStr "").
Proof.
  assert (Forall (λ ev, ∀ c, ev ≠ EvEditor c) [EvTitle "Summer sale"; EvCancelImage]) as Hevs
    by (repeat constructor; discriminate).
  split_and!; [reflexivity|discriminate|exact Hevs|].
  exact (edit_submits_blank_description demo_edit "b1" _ eq_refl ltac:(discriminate) Hevs).
Defined.

Lemma run_snoc ps evs ev :
  run ps (evs ++ [ev]) =
  let '(st1, c) := step ps ev (run ps evs).1 in (st1, ((run ps evs).2 ++ option_list c)%list).
Proof.
  unfold run. rewrite run_from_app. destruct (run_from ps evs _) as [st cs]. simpl.
  destruct (step ps ev st) as [st1 c]. by rewrite app_nil_r.
Qed.

(** ** The image the form holds *)

(** The image a reader of the code expects the form to hold after a
    sequence of events: the blog's image when editing, [""] when adding;
    then the URL of the last successful upload, [""] after a cancel, and
    [""] again after a blog is added. *)
Definition image_after (ps : params) (ev : bevent) (img : jsval) : jsval :=
  match ev with
  | EvCancelImage => JStr ""
  | EvUploadDone (MData resp) =>
      let u := js_opt_get (js_opt_get resp "data") "url" in if truthy u then u else img
  | EvSubmitDone (MData _) => if truthy (blogId ps) then img else JStr ""
  | _ => img
  end.

Definition image_spec (ps : params) (evs : list bevent) : jsval :=
  foldl (λ img ev, image_after ps ev img)
        (if truthy (blogId ps) then blogImage ps else JStr "") evs.

(** A relation between a value tracked along the events and the state
    holds after them when every event preserves it. *)
Lemma run_from_track {A} (R : A → bstate → Prop) (upd : bevent → A → A) ps evs a st :
  (∀ ev a st, R a st → R (upd ev a) (step ps ev st).1) →
  R a st → R (foldl (λ a ev, upd ev a) a evs) (run_from ps evs st).1.
Proof.
  revert a st. induction evs as [|ev evs IH]; intros a st Hstep Hst; simpl; [done|].
  destruct (step ps ev st) as [st1 c] eqn:Hs.
  specialize (IH (upd ev a) st1 Hstep). destruct (run_from ps evs st1) as [st2 cs].
  apply IH. replace st1 with (step ps ev st).1 by by rewrite Hs. by apply Hstep.
Qed.

Lemma step_image ps ev img st :
  form_has "image" img (bs_formData st) →
  form_has "image" (image_after ps ev img) (bs_formData (step ps ev st).1).
Proof.
  intros Hf. pose proof Hf as (fs & Hfs & Hnd & _).
  destruct ev as [v|c| |[f|]|[res|err]| |[res|err]]; simpl.
  - by apply form_has_spread.
  - by apply form_has_spread.
  - by apply (form_has_spread_eq _ _ _ fs).
  - done.
  - done.
  - case_match; [by apply (form_has_spread_eq _ _ _ fs)|done].
  - done.
  - done.
  - case_match; [done|]. by apply form_has_lit.
  - done.
Qed.

(** C20. The image a blog is saved with follows the events: whatever
    the user does, the form the submission sends holds as its image the
    value [image_spec] computes, the URL of the last successful upload
    unless a cancel or an addition came after it, and the blog's own
    image when editing before any of these. *)
Theorem blog_image_follows_events ps evs :
  form_has "image" (image_spec ps evs) (bs_formData (run ps evs).1).
Proof.
  unfold run, image_spec. apply (run_from_track (λ img st, form_has "image" img (bs_formData st))).
  - intros ev a st. apply step_image.
  - unfold populate. case_match.
    + by apply form_has_lit.
    + by apply form_has_lit.
Qed.

(** C25. A failed image upload leaves a stale preview: the page shows the
    new file while the form keeps its previous image, which is what a
    later submission sends; the upload request itself was sent. *)
Theorem failed_upload_stale_preview ps evs f err :
  let '(st, cs) := run ps (evs ++ [EvUploadPick (Some f); EvUploadDone (MError err)]) in
  bs_imagePreview st = JStr (object_url f) ∧
  bs_formData st = bs_formData (run ps evs).1 ∧
  submit_send ps st = submit_send ps (run ps evs).1 ∧
  cs = ((run ps evs).2 ++ [MCall UploadApi.upload (JFormData [("file", FVFile f)])])%list.
Proof.
  replace (evs ++ [EvUploadPick (Some f); EvUploadDone (MError err)])%list
    with ((evs ++ [EvUploadPick (Some f)]) ++ [EvUploadDone (MError err)])%list
    by (by rewrite <- app_assoc).
  rewrite !run_snoc. simpl. by rewrite app_nil_r.
Qed.

(** ** The shape of the form and of the requests *)

(** A property of the state that every event preserves, and one of the
    calls that every event makes from a state that has it, hold of a
    whole session. *)
Lemma run_from_calls (P : bstate → Prop) (Q : mcall → Prop) ps evs st :
  (∀ ev st, P st → P (step ps ev st).1) →
  (∀ ev st c, P st → (step ps ev st).2 = Some c → Q c) →
  P st → P (run_from ps evs st).1 ∧ Forall Q (run_from ps evs st).2.
Proof.
  intros Hstep Hcall. revert st. induction evs as [|ev evs IH]; intros st Hst; simpl; [done|].
  destruct (step ps ev st) as [st1 c] eqn:Hs.
  pose proof (Hstep ev st Hst) as Hst1. rewrite Hs in Hst1. simpl in Hst1.
  destruct (IH st1 Hst1) as [IH1 IH2]. destruct (run_from ps evs st1) as [st2 cs]. simpl in *.
  split; [done|]. apply Forall_app. split; [|done].
  destruct c as [c|]; simpl; [|done]. apply Forall_singleton. apply (Hcall ev st c Hst). by rewrite Hs.
Qed.

(** The form object has exactly the keys [title], [image] and
    [description], in that order. *)
Definition blog_form_shape (f : jsval) : Prop :=
  ∃ t i d, f = JObj [("title", t); ("image", i); ("description", d)].

(** A call the page makes: an upload of one file, or the blog mutation
    with a form of that shape. *)
Definition blog_call_ok (c : mcall) : Prop :=
  (∃ file, c = MCall UploadApi.upload (JFormData [("file", FVFile file)])) ∨
  (mc_ep c = BlogApi.addblog ∧ blog_form_shape (mc_arg c)) ∨
  (mc_ep c = BlogApi.updateBlog ∧ ∃ id f, mc_arg c = JObj [("id", id); ("data", f)] ∧ blog_form_shape f).

Lemma blog_form_shape_spread k v f :
  k ∈ ["title"; "image"; "description"] → blog_form_shape f → blog_form_shape (js_spread_set f k v).
Proof.
  intros Hk (t & i & d & ->). unfold blog_form_shape.
  elem_of_cases Hk; cbn [js_spread_set set_field];
    repeat (rewrite decide_True by done || rewrite decide_False by done); eauto.
Qed.

Lemma blog_form_shape_empty : blog_form_shape empty_form.
Proof. unfold blog_form_shape, empty_form. eauto. Qed.

Lemma step_form_shape ps ev st :
  blog_form_shape (bs_formData st) → blog_form_shape (bs_formData (step ps ev st).1).
Proof.
  intros Hf. destruct ev as [v|c| |[f|]|[res|err]| |[res|err]]; simpl;
    repeat case_match; simpl; auto using blog_form_shape_empty;
    apply blog_form_shape_spread; auto; elem_of_search.
Qed.

Lemma step_call_ok ps ev st c :
  blog_form_shape (bs_formData st) → (step ps ev st).2 = Some c → blog_call_ok c.
Proof.
  intros Hf Hc. destruct ev as [v|c'| |[f|]|[res|err]| |[res|err]]; simpl in Hc; simplify_eq.
  - left. eauto.
  - unfold submit_send, blog_call_ok. case_match; simpl; eauto 10.
Qed.

(** C33. Whatever the user does on the page and in whatever order the
    responses arrive, the form object keeps exactly the keys [title],
    [image] and [description], and every request the page makes is an
    upload of one file or the blog mutation carrying a form of that
    shape ([addblog] with it, [updateBlog] with [{id, data}]). *)
Theorem blog_requests_shape ps evs :
  blog_form_shape (bs_formData (run ps evs).1) ∧ Forall blog_call_ok (run ps evs).2.
Proof.
  unfold run. apply (run_from_calls (λ st, blog_form_shape (bs_formData st)));
    [apply step_form_shape|apply step_call_ok|].
  unfold populate, bstate_init. case_match; simpl; [unfold blog_form_shape; eauto|apply blog_form_shape_empty].
Qed.

(** C31. What the page shows when it opens.  On the edit page (an [id]
    parameter) it reads "Edit Blog" and "Update Blog", the title input
    holds the [title] parameter and the image area previews the [image]
    parameter, or offers the file picker when there is none.  On the
    create page opened with an [image] parameter, the image is previewed
    but the form's [image] stays empty: submitting creates the blog with
    no image, the one shown notwithstanding. *)
Theorem blog_page_view ps :
  (truthy (blogId ps) = true →
     blog_view ps (run ps []).1 =
       BView "Edit Blog" (image_area_of (blogImage ps)) (blogTitle ps) "Update Blog") ∧
  (p_id ps = None → ∀ x, p_image ps = Some x → x ≠ "" →
     blog_view ps (run ps []).1 = BView "Create Blog" (BPreview (JStr x)) (JStr "") "Add Blog" ∧
     submit_send ps (run ps []).1 = MCall BlogApi.addblog empty_form).
Proof.
  split.
  - intros Hid. unfold run, blog_view, populate. simpl. rewrite Hid. simpl. f_equal.
    unfold image_area_of, js_or. destruct (truthy (blogImage ps)) eqn:E; simpl; by rewrite ?E.
  - intros Hnone x Hx Hne. unfold run, blog_view, submit_send, populate, bstate_init, blogId, blogImage.
    rewrite Hnone, Hx. destruct x as [|c x]; [done|]. split; reflexivity.
Qed.

Definition demo_create_with_image : params := Params None None (Some "cover.png").

Lemma blog_page_view_witness :
  truthy (blogId demo_edit) = true ∧
  blog_view demo_edit (run demo_edit []).1 =
    BView "Edit Blog" (image_area_of (blogImage demo_edit)) (blogTitle demo_edit) "Update Blog" ∧
  p_id demo_create_with_image = None ∧ p_image demo_create_with_image = Some "cover.png" ∧
  "cover.png" ≠ "" ∧
  blog_view demo_create_with_image (run demo_create_with_image []).1 =
    BView "Create Blog" (BPreview (JStr "cover.png")) (JStr "") "Add Blog" ∧
  submit_send demo_create_with_image (run demo_create_with_image []).1 = MCall BlogApi.addblog empty_form.
Proof.
  destruct (blog_page_view demo_edit) as [H1 _].
  destruct (blog_page_view demo_create_with_image) as [_ H2].
  assert ("cover.png" ≠ "") as Hne by discriminate.
  split_and!; [reflexivity|apply H1; reflexivity|reflexivity|reflexivity|exact Hne|..];
    apply (H2 eq_refl "cover.png" eq_refl Hne).
Defined.

End AddBlogProofs.
