(* ===== verification/Views.v ===== *)
(** * Views: the order counters and the product list

    - [DashboardOverview] models
      [src/src/components/Dashboard/DashboardOverview.tsx]: the page
      subscribes to [orderHistory] four times (lines 19-42), with the
      statuses [""], ["DELIVERED"], ["SHIPPED"] and ["PENDING"], and each
      [selectFromResult] reads [data?.data?.length]; [cards] are the four
      cards of lines 58-110, drawn in another order than the hooks are
      called, and [completedChart_props] the props of line 116;
    - [AllProducts] models [src/src/components/All Products/AllProducts.tsx]:
      [useAllProductsQuery({})] with [selectFromResult] reading
      [data?.data] and [isLoading] (lines 10-17), and the three branches
      of lines 25-39 (a loader, the cards, or "No Product Found");
    - [ModalData] models [src/src/components/ModalData/ModalData.tsx]: the
      six lines it renders, each the text React shows for an optional
      property (an object there makes rendering throw).
    The first two are composed with [App], so the theorems speak of the
    requests a mount sends and of what the page shows after the
    responses, in any order ([Responses.respond_list]). *)

From stdpp Require Import base list decidable sets strings gmap fin_maps options.
From Stdlib Require Import QArith.
From S2P Require Import Prelude Js Transport Endpoints Cache App Responses.

Local Open Scope string_scope.

(** What a hook's [data] is: the cached data of the key, [undefined]
    when there is none. *)
Definition hook_data (o : option (entry jsval)) : jsval := default JUndefined (o ≫= e_data).

(** RTK Query's [isLoading]: the query is fetching and has no data yet
    (a subscribed key not yet in the cache is reported as loading).  RTK
    also counts the data of the hook's previous argument; each hook of
    these views keeps one argument, so that case does not arise. *)
Definition hook_isLoading (o : option (entry jsval)) : bool :=
  match o with
  | Some e => bool_decide (e_status e = Pending) && bool_decide (e_data e = None)
  | None => true
  end.

Module DashboardOverview.

(** The statuses of the four [useOrderHistoryQuery] calls, in order. *)
Definition statuses : list string := [""; "DELIVERED"; "SHIPPED"; "PENDING"].

Definition dashboard_args : list jsval := JStr <$> statuses.

(** Mounting the page mounts the four subscriptions, in order. *)
Definition dashboard_mount (st : app) : app :=
  foldl (λ st a, app_mount ProductApi.orderHistory a st) st dashboard_args.

(** [selectFromResult: ({ data }) => ({ count: data?.data?.length })]. *)
Definition order_count (o : option (entry jsval)) : jsval :=
  js_opt_get (js_opt_get (hook_data o) "data") "length".

(** The four counters: [allOrder], [completedOrder], [shippedOrder] and
    [pendingOrder]. *)
Definition counters (st : app) : list jsval :=
  (λ a, order_count (c_entries (a_cache st) !! query_key ProductApi.orderHistory a))
    <$> dashboard_args.

(** The counter of one [useOrderHistoryQuery(status)]: its
    [selectFromResult] on the cache entry of the status. *)
Definition status_count (s : string) (st : app) : jsval :=
  order_count (c_entries (a_cache st) !! query_key ProductApi.orderHistory (JStr s)).

(** The four cards of lines 58-110, title and [CountUp end], in the order
    drawn: the destructured [allOrder], [completedOrder], [pendingOrder],
    [shippedOrder]. *)
Definition cards (st : app) : list (string * jsval) :=
  let allOrder := status_count "" st in
  let completedOrder := status_count "DELIVERED" st in
  let shippedOrder := status_count "SHIPPED" st in
  let pendingOrder := status_count "PENDING" st in
  [("Total Order Created", allOrder); ("Total Completed Order", completedOrder);
   ("Total Pending Order", pendingOrder); ("Total Shipped Order", shippedOrder)].

(** [<CompletedChart totalEvent={allOrder} completedEvent={completedOrder} />]. *)
Definition completedChart_props (st : app) : jsval * jsval :=
  (status_count "" st, status_count "DELIVERED" st).

End DashboardOverview.

Module AllProducts.

Inductive pview := PLoader | PCards (items : list jsval) | PNoProducts.

(** [isLoading ? <Loader/> : result?.length > 0 ? result.map(...) : "No
    Product Found"], where [result = data?.data]; [result.map] throws when
    [result] has a length but is not an array. *)
Definition products_view_of (o : option (entry jsval)) : js_result pview :=
  if hook_isLoading o then inr PLoader
  else
    let result := js_opt_get (hook_data o) "data" in
    match js_opt_get result "length" with
    | JNum q =>
        if Qle_bool q 0 then inr PNoProducts
        else match result with JArr xs => inr (PCards xs) | _ => inl TypeError end
    | _ => inr PNoProducts
    end.

Definition products_key : qkey := query_key ProductApi.allProducts (JObj []).

Definition products_view (st : app) : js_result pview :=
  products_view_of (c_entries (a_cache st) !! products_key).

End AllProducts.

Module ModalData.

(** The six lines of [ModalData]: a label and the text of
    [userInfo?.name], [userInfo?.email], [address?.address],
    [address?.city], [address?.country] and [address?.phone]. *)
Definition modal_rows (address userInfo : jsval) : js_result (list (string * string)) :=
  name ← react_text (js_opt_get userInfo "name");
  email ← react_text (js_opt_get userInfo "email");
  addr ← react_text (js_opt_get address "address");
  city ← react_text (js_opt_get address "city");
  country ← react_text (js_opt_get address "country");
  phone ← react_text (js_opt_get address "phone");
  mret [("Name: ", name); ("Email: ", email); ("Address: ", addr); ("City: ", city);
        ("Country: ", country); ("Phone: ", phone)].

End ModalData.

Module ViewsProofs.
Import DashboardOverview AllProducts ModalData.

(** ** Mounting several subscriptions of one endpoint *)

Lemma mount_all ep args (q : jsval → fetch_args) st :
  ep ∈ api_endpoints → NoDup (query_key ep <$> args) →
  (∀ a, a ∈ args → ep_query ep a = inr (q a)) →
  (∀ a, a ∈ args → c_entries (a_cache st) !! query_key ep a = None) →
  a_jar (foldl (λ st a, app_mount ep a st) st args) = a_jar st ∧
  a_log (foldl (λ st a, app_mount ep a st) st args) =
    (a_log st ++ ((λ a, fetchBaseQuery (a_jar st) (q a)) <$> args))%list.
Proof.
  revert st. induction args as [|a args IH]; intros st Hin Hnd Hq Hfresh; simpl.
  - by rewrite app_nil_r.
  - apply NoDup_cons in Hnd as [Ha Hnd].
    destruct (app_mount_fresh ep a st (q a)) as (Hc & Hj & Hl);
      [done|apply Hq; set_solver|apply Hfresh; set_solver|].
    destruct (IH (app_mount ep a st)) as [Hj' Hl']; [done|done|intros; apply Hq; set_solver| |].
    + intros a' Ha'. rewrite Hc, start_fetch_lookup_ne.
      * apply Hfresh. set_solver.
      * intros Heq. apply Ha. rewrite Heq. by apply list_elem_of_fmap_2.
    + rewrite Hj', Hj, Hl', Hl, Hj. split; [done|]. by rewrite <- app_assoc.
Qed.

Lemma Qle_bool_length_false (n : nat) : n ≠ 0%nat → Qle_bool (inject_Z (Z.of_nat n)) 0 = false.
Proof.
  intros Hn. destruct (Qle_bool _ _) eqn:E; [|done].
  apply Qle_bool_iff in E. change 0%Q with (inject_Z 0) in E. rewrite <- Zle_Qle in E. lia.
Qed.

(** A key mounted on a cache that does not hold it: pending with no data
    before its response, the settled entry after it. *)
Lemma first_response_entry ep a fa st r :
  ep ∈ api_endpoints → ep_query ep a = inr fa →
  cache_wf (a_cache st) → c_entries (a_cache st) !! query_key ep a = None →
  c_entries (a_cache (app_mount ep a st)) !! query_key ep a =
    Some (Entry Pending None (Some (c_next (a_cache st))) 1) ∧
  c_entries (a_cache (app_respond (c_next (a_cache st)) r (app_mount ep a st))) !! query_key ep a =
    Some (settle_entry r (Entry Pending None (Some (c_next (a_cache st))) 1)).
Proof.
  intros Hin Hq Hwf Hk. rewrite app_respond_cache.
  destruct (app_mount_fresh ep a st fa) as (-> & _ & _); [done|done|done|].
  split; [simpl; by rewrite lookup_insert_eq|by rewrite settle_start_fetch].
Qed.

(** ** The order counters *)

(** The request [orderHistory] builds for a status. *)
Definition status_request (a : jsval) : fetch_args :=
  FetchArgs ("/orders/all?status=" +:+ default "" (js_template a)) GET JUndefined.

Lemma dashboard_query a :
  a ∈ dashboard_args → ep_query ProductApi.orderHistory a = inr (status_request a).
Proof. intros Ha. unfold dashboard_args, statuses in Ha. simpl in Ha. elem_of_cases Ha; reflexivity. Qed.

Lemma dashboard_keys_NoDup : NoDup (query_key ProductApi.orderHistory <$> dashboard_args).
Proof. apply (bool_decide_unpack _). vm_compute. reflexivity. Qed.

(** C23. Opening the dashboard on a cache that holds none of its counters
    sends four requests, one per counter and in the order of the code:
    [GET /orders/all?status=] (the total), then [DELIVERED], [SHIPPED] and
    [PENDING], each with the session's cookie; the four subscriptions
    have distinct cache keys, so none is shared. *)
Theorem dashboard_requests st :
  (∀ a, a ∈ dashboard_args → c_entries (a_cache st) !! query_key ProductApi.orderHistory a = None) →
  a_log (dashboard_mount st) =
    (a_log st ++ ((λ s, fetchBaseQuery (a_jar st)
                          (FetchArgs ("/orders/all?status=" +:+ s) GET JUndefined)) <$> statuses))%list.
Proof.
  intros Hfresh. unfold dashboard_mount.
  destruct (mount_all ProductApi.orderHistory dashboard_args status_request st ltac:(in_api)
             dashboard_keys_NoDup dashboard_query Hfresh)
    as [_ ->].
  reflexivity.
Qed.

Lemma dashboard_requests_witness :
  (∀ a, a ∈ dashboard_args →
        c_entries (a_cache (app_init demo_jar)) !! query_key ProductApi.orderHistory a = None) ∧
  a_log (dashboard_mount (app_init demo_jar)) =
    (a_log (app_init demo_jar) ++
       ((λ s, fetchBaseQuery (a_jar (app_init demo_jar))
                (FetchArgs ("/orders/all?status=" +:+ s) GET JUndefined)) <$> statuses))%list.
Proof.
  assert (∀ a, a ∈ dashboard_args →
          c_entries (a_cache (app_init demo_jar)) !! query_key ProductApi.orderHistory a = None)
    as Hfresh by (intros a _; apply lookup_empty).
  split; [exact Hfresh|exact (dashboard_requests (app_init demo_jar) Hfresh)].
Defined.

(** C29. A counter of the dashboard cannot tell an error from loading:
    while its request is in flight and after the request fails,
    [data?.data?.length] is [undefined], which [CountUp] receives as its
    [end]; after a response [{data: xs}] it is the length of [xs]. *)
Theorem order_counter_error_as_loading st s :
  cache_wf (a_cache st) → c_entries (a_cache st) !! query_key ProductApi.orderHistory (JStr s) = None →
  let st1 := app_mount ProductApi.orderHistory (JStr s) st in
  let id := c_next (a_cache st) in
  status_count s st1 = JUndefined ∧
  status_count s (app_respond id None st1) = JUndefined ∧
  ∀ xs, status_count s (app_respond id (Some (JObj [("data", JArr xs)])) st1) =
          JNum (inject_Z (Z.of_nat (length xs))).
Proof.
  intros Hwf Hk st1 id. subst st1 id. unfold status_count.
  destruct (first_response_entry ProductApi.orderHistory (JStr s) (status_request (JStr s)) st None)
    as [-> ->]; [in_api|reflexivity|done|done|].
  split_and!; [done|done|]. intros xs.
  destruct (first_response_entry ProductApi.orderHistory (JStr s) (status_request (JStr s)) st
              (Some (JObj [("data", JArr xs)]))) as [_ ->]; [in_api|reflexivity|done|done|].
  done.
Qed.

Lemma order_counter_error_as_loading_witness :
  cache_wf (a_cache (app_init demo_jar)) ∧
  c_entries (a_cache (app_init demo_jar)) !! query_key ProductApi.orderHistory (JStr "DELIVERED") = None ∧
  let st1 := app_mount ProductApi.orderHistory (JStr "DELIVERED") (app_init demo_jar) in
  let id := c_next (a_cache (app_init demo_jar)) in
  status_count "DELIVERED" st1 = JUndefined ∧
  status_count "DELIVERED" (app_respond id None st1) = JUndefined ∧
  ∀ xs, status_count "DELIVERED" (app_respond id (Some (JObj [("data", JArr xs)])) st1) =
          JNum (inject_Z (Z.of_nat (length xs))).
Proof.
  assert (cache_wf (a_cache (app_init demo_jar))) as Hwf by apply cache_init_wf.
  assert (c_entries (a_cache (app_init demo_jar)) !! query_key ProductApi.orderHistory (JStr "DELIVERED") = None)
    as Hk by apply lookup_empty.
  split_and!; [exact Hwf|exact Hk|].
  exact (order_counter_error_as_loading (app_init demo_jar) "DELIVERED" Hwf Hk).
Defined.

(** Mounting several fresh keys of one endpoint: each waits for the
    request issued for it, numbered in mount order; other keys are left
    alone. *)
Lemma mount_all_entries ep args (q : jsval → fetch_args) st :
  ep ∈ api_endpoints → NoDup (query_key ep <$> args) →
  (∀ a, a ∈ args → ep_query ep a = inr (q a)) →
  (∀ a, a ∈ args → c_entries (a_cache st) !! query_key ep a = None) →
  cache_wf (a_cache st) →
  let st' := foldl (λ st a, app_mount ep a st) st args in
  cache_wf (a_cache st') ∧
  (∀ k, k ∉ query_key ep <$> args → c_entries (a_cache st') !! k = c_entries (a_cache st) !! k) ∧
  ∀ i a, args !! i = Some a →
    c_entries (a_cache st') !! query_key ep a = Some (Entry Pending None (Some (c_next (a_cache st) + i)%nat) 1%nat).
Proof.
  induction args as [|a args IH] in st |- *; intros Hin Hnd Hq Hfresh Hwf; simpl.
  { split_and!; [done|done|]. intros i a Ha. by rewrite lookup_nil in Ha. }
  apply NoDup_cons in Hnd as [Ha Hnd].
  destruct (app_mount_fresh ep a st (q a)) as (Hc & _ & _);
    [done|apply Hq; set_solver|apply Hfresh; set_solver|].
  destruct (IH (app_mount ep a st)) as (Hwf' & Hother & Hent);
    [done|done|intros; apply Hq; set_solver| |rewrite Hc; by apply start_fetch_wf|].
  { intros a' Ha'. rewrite Hc, start_fetch_lookup_ne; [apply Hfresh; set_solver|].
    intros Heq. apply Ha. rewrite Heq. by apply list_elem_of_fmap_2. }
  split_and!; [done| |].
  - intros k Hk. rewrite Hother by set_solver. rewrite Hc, start_fetch_lookup_ne; [done|set_solver].
  - intros [|i] a' Ha'; simpl in Ha'.
    + simplify_eq. rewrite Hother by done. rewrite Hc. simpl. rewrite lookup_insert_eq. by rewrite Nat.add_0_r.
    + rewrite (Hent i a' Ha'), Hc. simpl. repeat f_equal. lia.
Qed.

(** The body of a successful [orderHistory] response. *)
Definition orders (xs : list jsval) : jsval := JObj [("data", JArr xs)].

Definition count_of (xs : list jsval) : jsval := JNum (inject_Z (Z.of_nat (length xs))).

(** C24. The dashboard's cards show the count of their own status,
    whatever order the four responses arrive in: after the page mounts on
    a cache holding none of its keys and the responses [{data: xs}] to its
    four requests arrive, in any order, "Total Order Created" shows the
    length of the list for [""], "Total Completed Order" the one for
    [DELIVERED], "Total Pending Order" the one for [PENDING] and "Total
    Shipped Order" the one for [SHIPPED] (the cards are drawn in another
    order than the hooks are called); [CompletedChart] receives the total
    and the completed counts. *)
Theorem dashboard_cards_any_order st a d sh p rs :
  cache_wf (a_cache st) →
  (∀ x, x ∈ dashboard_args → c_entries (a_cache st) !! query_key ProductApi.orderHistory x = None) →
  rs ≡ₚ [(c_next (a_cache st), Some (orders a)); (S (c_next (a_cache st)), Some (orders d));
         (S (S (c_next (a_cache st))), Some (orders sh)); (S (S (S (c_next (a_cache st)))), Some (orders p))] →
  cards (respond_list rs (dashboard_mount st)) =
    [("Total Order Created", count_of a); ("Total Completed Order", count_of d);
     ("Total Pending Order", count_of p); ("Total Shipped Order", count_of sh)] ∧
  completedChart_props (respond_list rs (dashboard_mount st)) = (count_of a, count_of d).
Proof.
  intros Hwf Hfresh Hperm.
  destruct (mount_all_entries ProductApi.orderHistory dashboard_args status_request st)
    as (Hwf1 & _ & Hent); [in_api|apply dashboard_keys_NoDup|apply dashboard_query|done|done|].
  assert (NoDup rs.*1) as Hnd.
  { rewrite Hperm. simpl. repeat constructor; rewrite ?elem_of_cons, ?elem_of_nil; lia. }
  assert (∀ i s xs id, statuses !! i = Some s → id = (c_next (a_cache st) + i)%nat →
            (id, Some (orders xs)) ∈ rs →
            status_count s (respond_list rs (dashboard_mount st)) = count_of xs) as Hcount.
  { intros i s xs id Hs -> Hin. unfold status_count, dashboard_mount.
    assert (dashboard_args !! i = Some (JStr s)) as Ha
      by (unfold dashboard_args; by rewrite list_lookup_fmap, Hs).
    destruct (respond_list_lookup rs _ _ _ Hwf1 (Hent i _ Ha)) as [_ ->].
    by rewrite (entry_after_unique rs (Entry Pending None (Some (c_next (a_cache st) + i)%nat) 1%nat)
                  _ (Some (orders xs)) eq_refl Hnd Hin). }
  unfold cards, completedChart_props.
  set (n := c_next (a_cache st)) in *.
  rewrite (Hcount 0%nat "" a n), (Hcount 1%nat "DELIVERED" d (S n)), (Hcount 2%nat "SHIPPED" sh (S (S n))),
    (Hcount 3%nat "PENDING" p (S (S (S n)))); try done; try lia; rewrite Hperm; elem_of_search.
Qed.

Lemma dashboard_cards_any_order_witness :
  let st := app_init demo_jar in
  let rs := [(3%nat, Some (orders [])); (1%nat, Some (orders [])); (0%nat, Some (orders [JNull]));
             (2%nat, Some (orders [JNull; JNull]))] in
  cache_wf (a_cache st) ∧
  (∀ x, x ∈ dashboard_args → c_entries (a_cache st) !! query_key ProductApi.orderHistory x = None) ∧
  rs ≡ₚ [(c_next (a_cache st), Some (orders [JNull])); (S (c_next (a_cache st)), Some (orders []));
         (S (S (c_next (a_cache st))), Some (orders [JNull; JNull]));
         (S (S (S (c_next (a_cache st)))), Some (orders []))] ∧
  cards (respond_list rs (dashboard_mount st)) =
    [("Total Order Created", count_of [JNull]); ("Total Completed Order", count_of []);
     ("Total Pending Order", count_of []); ("Total Shipped Order", count_of [JNull; JNull])] ∧
  completedChart_props (respond_list rs (dashboard_mount st)) = (count_of [JNull], count_of []).
Proof.
  intros st rs.
  assert (cache_wf (a_cache st)) as Hwf by apply cache_init_wf.
  assert (∀ x, x ∈ dashboard_args → c_entries (a_cache st) !! query_key ProductApi.orderHistory x = None)
    as Hfresh by (intros x _; apply lookup_empty).
  assert (rs ≡ₚ [(c_next (a_cache st), Some (orders [JNull])); (S (c_next (a_cache st)), Some (orders []));
                 (S (S (c_next (a_cache st))), Some (orders [JNull; JNull]));
                 (S (S (S (c_next (a_cache st)))), Some (orders []))]) as Hperm
    by (simpl; solve_Permutation).
  split_and!; [exact Hwf|exact Hfresh|exact Hperm|..];
    apply (dashboard_cards_any_order st [JNull] [] [JNull; JNull] [] rs Hwf Hfresh Hperm).
Defined.

(** ** The product list *)

(** The product list after the first response to its request. *)
Lemma products_view_settled st r :
  cache_wf (a_cache st) → c_entries (a_cache st) !! products_key = None →
  products_view (app_respond (c_next (a_cache st)) r (app_mount ProductApi.allProducts (JObj []) st)) =
    products_view_of (Some (settle_entry r (Entry Pending None (Some (c_next (a_cache st))) 1))).
Proof.
  intros Hwf Hk. unfold products_view, products_key in *.
  by rewrite (proj2 (first_response_entry ProductApi.allProducts (JObj []) (FetchArgs "/products" GET JUndefined) st r
                       ltac:(in_api) eq_refl Hwf Hk)).
Qed.

(** C22. The product list has no error state: while its first request is
    in flight it shows the loader; when the response is an error it shows
    "No Product Found", exactly what an empty product list shows; a
    non-empty list of products is shown as cards. *)
Theorem products_error_shown_as_empty st :
  cache_wf (a_cache st) → c_entries (a_cache st) !! products_key = None →
  let st1 := app_mount ProductApi.allProducts (JObj []) st in
  let id := c_next (a_cache st) in
  products_view st1 = inr PLoader ∧
  products_view (app_respond id None st1) = inr PNoProducts ∧
  products_view (app_respond id (Some (JObj [("data", JArr [])])) st1) = inr PNoProducts ∧
  (∀ xs, xs ≠ [] →
     products_view (app_respond id (Some (JObj [("data", JArr xs)])) st1) = inr (PCards xs)).
Proof.
  intros Hwf Hk st1 id. subst st1 id. split_and!.
  - unfold products_view, products_key in *.
    by rewrite (proj1 (first_response_entry ProductApi.allProducts (JObj [])
                         (FetchArgs "/products" GET JUndefined) st None
                         ltac:(in_api) eq_refl Hwf Hk)).
  - by rewrite products_view_settled.
  - by rewrite products_view_settled.
  - intros xs Hxs. rewrite products_view_settled by done.
    unfold products_view_of. simpl. rewrite Qle_bool_length_false; [done|].
    by destruct xs.
Qed.

Lemma products_error_shown_as_empty_witness :
  cache_wf (a_cache (app_init demo_jar)) ∧
  c_entries (a_cache (app_init demo_jar)) !! products_key = None ∧
  let st1 := app_mount ProductApi.allProducts (JObj []) (app_init demo_jar) in
  let id := c_next (a_cache (app_init demo_jar)) in
  products_view st1 = inr PLoader ∧
  products_view (app_respond id None st1) = inr PNoProducts ∧
  products_view (app_respond id (Some (JObj [("data", JArr [])])) st1) = inr PNoProducts ∧
  (∀ xs, xs ≠ [] →
     products_view (app_respond id (Some (JObj [("data", JArr xs)])) st1) = inr (PCards xs)).
Proof.
  assert (cache_wf (a_cache (app_init demo_jar))) as Hwf
    by apply cache_init_wf.
  assert (c_entries (a_cache (app_init demo_jar)) !! products_key = None) as Hk
    by apply lookup_empty.
  split_and!; [exact Hwf|exact Hk|].
  exact (products_error_shown_as_empty (app_init demo_jar) Hwf Hk).
Defined.

(** ** The address modal *)

Definition modal_fields (address userInfo : jsval) : list jsval :=
  [js_opt_get userInfo "name"; js_opt_get userInfo "email"; js_opt_get address "address";
   js_opt_get address "city"; js_opt_get address "country"; js_opt_get address "phone"].

(** C30. The modal shows six labelled lines: with no user or no address
    ([undefined] or [null]) the optional chaining gives empty lines
    instead of a crash; text fields are shown as they are; a field that
    holds an object makes rendering throw. *)
Theorem modal_rows_spec :
  (∀ a u, (a = JUndefined ∨ a = JNull) → (u = JUndefined ∨ u = JNull) →
     modal_rows a u = inr [("Name: ", ""); ("Email: ", ""); ("Address: ", ""); ("City: ", "");
                           ("Country: ", ""); ("Phone: ", "")]) ∧
  (∀ a u name email addr city country phone,
     modal_fields a u = [JStr name; JStr email; JStr addr; JStr city; JStr country; JStr phone] →
     modal_rows a u = inr [("Name: ", name); ("Email: ", email); ("Address: ", addr); ("City: ", city);
                           ("Country: ", country); ("Phone: ", phone)]) ∧
  (∀ a u fs, JObj fs ∈ modal_fields a u → ∃ e, modal_rows a u = inl e).
Proof.
  split_and!.
  - by intros a u [-> | ->] [-> | ->].
  - intros a u ?????? Hf. injection Hf as H1 H2 H3 H4 H5 H6. unfold modal_rows.
    by rewrite H1, H2, H3, H4, H5, H6.
  - intros a u fs Hin. unfold modal_fields in Hin. unfold modal_rows.
    repeat (apply elem_of_cons in Hin as [Hin|Hin]; [rewrite <- Hin; simpl; unfold mbind, js_result_bind; repeat case_match; by eauto|]).
    by apply elem_of_nil in Hin.
Qed.

Definition demo_user : jsval := JObj [("name", JStr "Ann"); ("email", JStr "ann@x.io")].

Definition demo_address : jsval :=
  JObj [("address", JStr "1 Main St"); ("city", JStr "Dhaka"); ("country", JStr "BD"); ("phone", JStr "017")].

Lemma modal_rows_spec_witness :
  modal_rows JNull JUndefined = inr [("Name: ", ""); ("Email: ", ""); ("Address: ", ""); ("City: ", "");
                                     ("Country: ", ""); ("Phone: ", "")] ∧
  modal_rows demo_address demo_user =
    inr [("Name: ", "Ann"); ("Email: ", "ann@x.io"); ("Address: ", "1 Main St"); ("City: ", "Dhaka");
         ("Country: ", "BD"); ("Phone: ", "017")] ∧
  ∃ e, modal_rows demo_address (JObj [("name", JStr "Ann"); ("email", JObj [])]) = inl e.
Proof.
  destruct modal_rows_spec as (H1 & H2 & H3). split_and!.
  - apply H1; [right|left]; reflexivity.
  - apply H2. reflexivity.
  - apply (H3 _ _ []). unfold modal_fields. simpl. set_solver.
Defined.

End ViewsProofs.
