(* ===== verification/Scenario.v ===== *)
(** * Scenario: the product form, the API and the cache together

    The example of spec §8: submitting the product form of
    [AddProduct.tsx] with valid values and an image sends one multipart
    [POST /products] ([handleSubmit], [addProductFn], [fetchBaseQuery]),
    and its settlement refetches the active [allProducts] listing of
    [AllProducts.tsx] once, on success and on an HTTP error alike; a
    failure leaves the form's values as they were.  The add page also subscribes to
    [singleProduct(id)] with the route's [id] (lines 32-37), which is
    [undefined] on the add route.  On the edit route, a product prefilled
    into the form and saved unchanged goes back to the server as it came,
    with [PATCH /products/{id}] ([prefill], [handleSubmit],
    [updateProductFn]). *)

From stdpp Require Import base list decidable sets strings gmap fin_maps options.
From Stdlib Require Import Ascii QArith.
From S2P Require Import Prelude Js Transport Endpoints Cache App ProductForm Views.

Local Open Scope string_scope.

Module AddProductScenario.
Import AddProduct AddProductProofs AllProducts.

(** The request the [allProducts] listing is fetched with. *)
Lemma request_of_products jar args :
  is_Some (args !! products_key) →
  request_of jar args products_key =
    Some (Request (baseUrl +:+ "/products") GET (prepareHeaders jar []) JUndefined).
Proof. intros [a Ha]. unfold request_of. simpl. by rewrite Ha. Qed.

(** The multipart request of [addProduct]. *)
Lemma fetchBaseQuery_addProduct jar parts :
  fetchBaseQuery jar (FetchArgs "/products" POST (JFormData parts)) =
    Request (baseUrl +:+ "/products") POST (prepareHeaders jar []) (JFormData parts).
Proof. reflexivity. Qed.

(** A valid form submitted on the add page, with a file selected. *)
Lemma handleSubmit_add pst img :
  product_form_ok (ps_values pst) → ps_productImage pst = JFile img → ps_fromData pst = [] →
  ∃ pst1 s,
    handleSubmit JUndefined pst =
      inr (pst1, Some (MCall ProductApi.addProduct
                         (JFormData [body_part (ps_values pst) s; ("productImage", FVFile img)]))) ∧
    ps_values pst1 = ps_values pst.
Proof.
  intros Hok Himg Hfd. pose proof Hok as (_ & _ & _ & [s [Hs _]] & _).
  unfold handleSubmit. rewrite (proj2 (schema_nil _) Hok), (onSubmit_send_add _ _ s Hs).
  rewrite Himg, Hfd. by do 2 eexists.
Qed.

(** C2. The example of spec §8, for every valid form: with a file
    selected, submitting the add form calls [addProduct] with a
    [FormData] of the JSON [bodyData] and the file; the application sends
    one multipart [POST /products] (no JSON content type) with the
    session's token, and the cache then refetches an active [allProducts]
    listing exactly once, with [GET /products].  The refetch happens
    whether the server answers with success or with an error, since RTK
    invalidates the fixed tag list on a rejection with a value too; when
    it fails, the form keeps its values. *)
Theorem submit_product_refetches_listing pst img st e :
  product_form_ok (ps_values pst) → ps_productImage pst = JFile img → ps_fromData pst = [] →
  c_entries (a_cache st) !! products_key = Some e → e_subs e ≠ 0%nat → e_status e ≠ Pending →
  is_Some (a_args st !! products_key) →
  ∃ pst1 parts,
    handleSubmit JUndefined pst = inr (pst1, Some (MCall ProductApi.addProduct (JFormData parts))) ∧
    last parts = Some ("productImage", FVFile img) ∧
    (∀ ok, ∃ new,
       a_log (app_mutate ProductApi.addProduct (JFormData parts) ok st) =
         (a_log st ++ Request (baseUrl +:+ "/products") POST (prepareHeaders (a_jar st) []) (JFormData parts)
                     :: omap (request_of (a_jar st) (a_args st)) new)%list ∧
       occurrences products_key new = 1%nat ∧
       request_of (a_jar st) (a_args st) products_key =
         Some (Request (baseUrl +:+ "/products") GET (prepareHeaders (a_jar st) []) JUndefined)) ∧
    (∀ err, ps_values (onSubmit_settle JUndefined (MError err) pst1) = ps_values pst).
Proof.
  intros Hok Himg Hfd He Hsubs Hst Hargs.
  destruct (handleSubmit_add pst img Hok Himg Hfd) as (pst1 & s & Hsub & Hv).
  set (parts := [body_part (ps_values pst) s; ("productImage", FVFile img)]) in *.
  exists pst1, parts. split_and!; [done|done| |done].
  intros ok.
  destruct (app_mutate_built ProductApi.addProduct (JFormData parts) ok st
              (FetchArgs "/products" POST (JFormData parts)) eq_refl) as [_ Hlog].
  destruct (mutation_settled_spec "addProduct" (sent_outcome ok) (a_cache st) products_key)
    as ([new [Hsent Hocc]] & _).
  exists new. split_and!.
  - rewrite (Hlog new Hsent). by rewrite fetchBaseQuery_addProduct.
  - rewrite Hocc, He. destruct ok; simpl; by rewrite bool_decide_true.
  - by apply request_of_products.
Qed.

(** The values of spec §8, with the image ["shirt.png"] selected. *)
Definition spec_form : pstate := set_values shirt (handleImageUpload (Some "shirt.png") pstate_init).

(** A session whose product listing is mounted and has loaded. *)
Definition listing_session : app :=
  app_respond 0 (Some (JObj [("data", JArr [])]))
    (app_mount ProductApi.allProducts (JObj []) (app_init demo_jar)).

Definition listing_entry : entry jsval := Entry Fulfilled (Some (JObj [("data", JArr [])])) None 1.

Lemma submit_product_refetches_listing_witness :
  product_form_ok (ps_values spec_form) ∧ ps_productImage spec_form = JFile "shirt.png" ∧
  ps_fromData spec_form = [] ∧
  c_entries (a_cache listing_session) !! products_key = Some listing_entry ∧
  e_subs listing_entry ≠ 0%nat ∧ e_status listing_entry ≠ Pending ∧
  is_Some (a_args listing_session !! products_key) ∧
  ∃ pst1 parts,
    handleSubmit JUndefined spec_form = inr (pst1, Some (MCall ProductApi.addProduct (JFormData parts))) ∧
    last parts = Some ("productImage", FVFile "shirt.png") ∧
    (∀ ok, ∃ new,
       a_log (app_mutate ProductApi.addProduct (JFormData parts) ok listing_session) =
         (a_log listing_session ++
            Request (baseUrl +:+ "/products") POST (prepareHeaders (a_jar listing_session) []) (JFormData parts)
              :: omap (request_of (a_jar listing_session) (a_args listing_session)) new)%list ∧
       occurrences products_key new = 1%nat ∧
       request_of (a_jar listing_session) (a_args listing_session) products_key =
         Some (Request (baseUrl +:+ "/products") GET (prepareHeaders (a_jar listing_session) []) JUndefined)) ∧
    (∀ err, ps_values (onSubmit_settle JUndefined (MError err) pst1) = ps_values spec_form).
Proof.
  assert (product_form_ok (ps_values spec_form)) as Hok by exact shirt_ok.
  assert (c_entries (a_cache listing_session) !! products_key = Some listing_entry) as He
    by (vm_compute; reflexivity).
  assert (is_Some (a_args listing_session !! products_key)) as Ha
    by (eexists; vm_compute; reflexivity).
  split_and!; [exact Hok|reflexivity|reflexivity|exact He|discriminate|discriminate|exact Ha|].
  exact (submit_product_refetches_listing spec_form "shirt.png" listing_session listing_entry
           Hok eq_refl eq_refl He ltac:(discriminate) ltac:(discriminate) Ha).
Defined.

(** ** The product the add/edit page subscribes to *)

(** [const { id } = useParams(); useSingleProductQuery(id, ...)]: the page
    subscribes to the product of its route's [id]. *)
Definition product_page_mount (id : jsval) (st : app) : app :=
  app_mount ProductApi.singleProduct id st.

Definition undefined_product_key : qkey := query_key ProductApi.singleProduct JUndefined.

Definition undefined_product_request (jar : gmap string string) : request :=
  Request (baseUrl +:+ "/products/undefined") GET (prepareHeaders jar []) JUndefined.

(** C14. The add page asks the server for the product ["undefined"]: on
    the add route [id] is [undefined], so mounting the page sends
    [GET /products/undefined]; since [singleProduct] provides the tag
    [addProduct] invalidates, every successful add sends that request
    again, once, while the page is open. *)
Theorem add_page_fetches_undefined st r arg :
  cache_wf (a_cache st) → c_entries (a_cache st) !! undefined_product_key = None →
  let st1 := product_page_mount JUndefined st in
  let st2 := app_respond (c_next (a_cache st)) r st1 in
  a_log st1 = (a_log st ++ [undefined_product_request (a_jar st)])%list ∧
  ∃ new,
    a_log (app_mutate ProductApi.addProduct arg true st2) =
      (a_log st2 ++ fetchBaseQuery (a_jar st) (FetchArgs "/products" POST arg)
                  :: omap (request_of (a_jar st) (a_args st2)) new)%list ∧
    occurrences undefined_product_key new = 1%nat ∧
    request_of (a_jar st) (a_args st2) undefined_product_key = Some (undefined_product_request (a_jar st)).
Proof.
  intros Hwf Hk st1 st2.
  destruct (app_mount_fresh ProductApi.singleProduct JUndefined st
              (FetchArgs "/products/undefined" GET JUndefined)) as (Hc & Hj & Hl);
    [in_api|reflexivity|done|].
  split; [done|].
  destruct (app_mutate_built ProductApi.addProduct arg true st2
              (FetchArgs "/products" POST arg) eq_refl) as [_ Hlog].
  destruct (mutation_settled_spec "addProduct" (sent_outcome true) (a_cache st2) undefined_product_key)
    as ([new [Hsent Hocc]] & _).
  exists new. split_and!.
  - rewrite (Hlog new Hsent). reflexivity.
  - rewrite Hocc. subst st2. rewrite app_respond_cache. subst st1.
    unfold product_page_mount. rewrite Hc, settle_start_fetch by done.
    by destruct r.
  - subst st2 st1. unfold request_of. simpl.
    unfold product_page_mount, app_mount. simpl. by rewrite lookup_insert_eq.
Qed.

Lemma add_page_fetches_undefined_witness :
  cache_wf (a_cache (app_init demo_jar)) ∧
  c_entries (a_cache (app_init demo_jar)) !! undefined_product_key = None ∧
  let st1 := product_page_mount JUndefined (app_init demo_jar) in
  let st2 := app_respond (c_next (a_cache (app_init demo_jar))) None st1 in
  a_log st1 = (a_log (app_init demo_jar) ++ [undefined_product_request demo_jar])%list ∧
  ∃ new,
    a_log (app_mutate ProductApi.addProduct demo_product_form true st2) =
      (a_log st2 ++ fetchBaseQuery demo_jar (FetchArgs "/products" POST demo_product_form)
                  :: omap (request_of demo_jar (a_args st2)) new)%list ∧
    occurrences undefined_product_key new = 1%nat ∧
    request_of demo_jar (a_args st2) undefined_product_key = Some (undefined_product_request demo_jar).
Proof.
  assert (cache_wf (a_cache (app_init demo_jar))) as Hwf
    by apply cache_init_wf.
  assert (c_entries (a_cache (app_init demo_jar)) !! undefined_product_key = None) as Hk
    by apply lookup_empty.
  split_and!; [exact Hwf|exact Hk|].
  exact (add_page_fetches_undefined (app_init demo_jar) None demo_product_form Hwf Hk).
Defined.

(** ** Editing a product and saving it unchanged *)

(** The fields of a product as the API returns it to the edit page. *)
Definition product_fields (fs : list (string * jsval)) (id name cat color : string)
    (l : list string) (p n : Q) (desc : string) : Prop :=
  js_get_field fs "id" = JStr id ∧ js_get_field fs "name" = JStr name ∧
  js_get_field fs "category" = JStr cat ∧ js_get_field fs "color" = JStr color ∧
  js_get_field fs "size" = JArr (map JStr l) ∧ js_get_field fs "price" = JNum p ∧
  js_get_field fs "inStock" = JNum n ∧ js_get_field fs "description" = JStr desc.

(** The [bodyData] JSON of those fields, in the schema's order. *)
Definition product_body (name cat color : string) (l : list string) (p n : Q) (desc : string) : jsval :=
  JObj [("name", JStr name); ("category", JStr cat); ("color", JStr color);
        ("size", JArr (map JStr l)); ("price", JNum p); ("inStock", JNum n);
        ("description", JStr desc)].

Lemma js_or_num_pos (q : Q) d : (0 < q)%Q → js_or (JNum q) d = JNum q.
Proof.
  intros Hq. unfold js_or. simpl. destruct (Qeq_bool q 0) eqn:E; [|done].
  apply Qeq_bool_iff in E. rewrite E in Hq. by apply Qlt_irrefl in Hq.
Qed.

Lemma js_join_nonempty (l : list string) :
  l ≠ [] → Forall (λ x, x ≠ "") l → js_join "," l ≠ "".
Proof.
  intros Hne Hall. destruct l as [|x xs]; [done|]. apply Forall_cons in Hall as [Hx _].
  destruct x as [|c x]; [done|]. by destruct xs.
Qed.

(** The arguments of the [updateProduct] call an unchanged edit makes. *)
Definition update_arg (id : string) (body : jsval) : jsval :=
  JObj [("id", JStr id); ("data", JFormData [("bodyData", FVJson body)])].

(** C32. Editing a product and saving it unchanged sends the product back:
    when the product's text fields are non-empty, its sizes non-empty and
    free of commas, and its price and stock positive, the edit page
    prefills the form, [handleSubmit] accepts it and calls
    [updateProduct] with the product's [id] and a [FormData] holding only
    the [bodyData] JSON of the product's own fields (no image part when no
    new file is chosen), which is the multipart [PATCH /products/{id}]. *)
Theorem edit_unchanged_roundtrip fs id name cat color l p n desc st :
  product_fields fs id name cat color l p n desc →
  name ≠ "" → cat ≠ "" → color ≠ "" → desc ≠ "" →
  l ≠ [] → Forall (λ x, x ≠ "" ∧ no_char ","%char x = true) l → (0 < p)%Q → (0 < n)%Q →
  ps_productImage st = JUndefined → ps_fromData st = [] →
  ∃ st1 st2,
    prefill (JObj fs) st = inr st1 ∧
    handleSubmit (JObj fs) st1 =
      inr (st2, Some (MCall ProductApi.updateProduct
                        (update_arg id (product_body name cat color l p n desc)))) ∧
    ep_query ProductApi.updateProduct (update_arg id (product_body name cat color l p n desc)) =
      inr (FetchArgs ("/products/" +:+ id) PATCH
             (JFormData [("bodyData", FVJson (product_body name cat color l p n desc))])).
Proof.
  intros (Hid & Hn & Hc & Hco & Hs & Hp & Hst & Hd) Hn0 Hc0 Hco0 Hd0 Hl Hall Hp0 Hst0 Himg Hfd.
  rewrite prefill_obj, Hn, Hc, Hco, Hs, Hp, Hst, Hd. unfold join_sizes, tmpl.
  rewrite js_template_strs. simpl. rewrite !js_or_str_empty, !js_or_num_pos by done.
  do 2 eexists. split; [reflexivity|].
  assert (js_join "," l ≠ "") as Hj by (apply js_join_nonempty; [done|]; eapply Forall_impl; [exact Hall|]; naive_solver).
  unfold handleSubmit. rewrite (proj2 (schema_nil _)).
  2:{ split_and!; try (eexists; split; [reflexivity|]); try done. by apply Qlt_le_weak. }
  unfold onSubmit_send. simpl. rewrite js_split_join; [|done|eapply Forall_impl; [exact Hall|]; naive_solver].
  rewrite Himg, Hfd. simpl. rewrite Hid. split; reflexivity.
Qed.

Definition demo_product : list (string * jsval) :=
  [("id", JStr "p1"); ("name", JStr "Shirt"); ("category", JStr "Clothes"); ("color", JStr "Blue");
   ("size", JArr [JStr "S"; JStr "M"]); ("price", JNum 10); ("inStock", JNum 5);
   ("description", JStr "Cotton"); ("productImage", JStr "shirt.png")].

Lemma edit_unchanged_roundtrip_witness :
  product_fields demo_product "p1" "Shirt" "Clothes" "Blue" ["S"; "M"] 10 5 "Cotton" ∧
  ∃ st1 st2,
    prefill (JObj demo_product) pstate_init = inr st1 ∧
    handleSubmit (JObj demo_product) st1 =
      inr (st2, Some (MCall ProductApi.updateProduct
                        (update_arg "p1" (product_body "Shirt" "Clothes" "Blue" ["S"; "M"] 10 5 "Cotton")))) ∧
    ep_query ProductApi.updateProduct (update_arg "p1" (product_body "Shirt" "Clothes" "Blue" ["S"; "M"] 10 5 "Cotton")) =
      inr (FetchArgs ("/products/" +:+ "p1") PATCH
             (JFormData [("bodyData", FVJson (product_body "Shirt" "Clothes" "Blue" ["S"; "M"] 10 5 "Cotton"))])).
Proof.
  assert (product_fields demo_product "p1" "Shirt" "Clothes" "Blue" ["S"; "M"] 10 5 "Cotton") as Hf
    by (split_and!; reflexivity).
  assert (Forall (λ x, x ≠ "" ∧ no_char ","%char x = true) ["S"; "M"]) as Hall
    by (repeat constructor; discriminate).
  split; [exact Hf|].
  exact (edit_unchanged_roundtrip demo_product "p1" "Shirt" "Clothes" "Blue" ["S"; "M"] 10 5 "Cotton"
           pstate_init Hf ltac:(discriminate) ltac:(discriminate) ltac:(discriminate) ltac:(discriminate)
           ltac:(discriminate) Hall ltac:(vm_compute; reflexivity) ltac:(vm_compute; reflexivity)
           eq_refl eq_refl).
Defined.

End AddProductScenario.
